(** * Bonsai: the double-buffered GPU array and the snapshot handoff

    A shallow embedding of
    - [tools/bonsaiRenderer/smoke/GpuArray.h] (class [GpuArray<T>]),
    - the I/O thread of [runtime/src/main.cpp] (the poll loop over
      [ioSharedData] inside the OpenMP parallel region), and
    - the choice of initial conditions at the start of [main],
    together with the properties of these that the specification states and
    further properties read off the code.

    The C++ object is a record; the process state it acts on (host heap,
    device heap, GL buffer objects, the active CUDA device, the two global
    device ids) is a second record, threaded through every method.  A method
    either returns, or the process leaves through [exit(-1)]
    ([cutilSafeCall]), or it dies on an uncaught exception. *)

From Stdlib Require Import NArith ZArith List Bool Ascii String Lia.
From stdpp Require Import base numbers option list gmap pretty.

Local Open Scope N_scope.

(** ** Machine integers *)

(** [uint] is [unsigned int] (32 bits), [size_t] has 64 bits. *)
Definition uint_max : N := 2 ^ 32.
Definition size_max : N := 2 ^ 64.
Definition to_uint (n : N) : N := n mod uint_max.
Definition to_size_t (n : N) : N := n mod size_max.

Module GpuArr.

(** ** Resources and the log of their acquisition and release *)

Inductive resource :=
| HostArray (a : N)        (* new T[n]                      *)
| DeviceMem (a : N)        (* cudaMalloc                    *)
| GlBuffer (v : N)         (* glGenBuffers                  *)
| GlRegistration (v : N).  (* cudaGLRegisterBufferObject    *)

Inductive event :=
| Acquire (r : resource)
| Release (r : resource).

Inductive cudaError :=
| cudaErrorMemoryAllocation
| cudaErrorInvalidValue
| cudaErrorInvalidDevicePointer
| cudaErrorInvalidDevice
| cudaErrorInvalidResourceHandle
| cudaErrorMapBufferObjectFailed
| cudaErrorUnmapBufferObjectFailed.

Inductive Direction := HOST_TO_DEVICE | DEVICE_TO_HOST.

Section Array.

(** The element type, and [sizeof(T)]. *)
Variable T : Type.
Variable sizeofT : N.

(** A block of host or device memory: its size in bytes and its elements,
    indexed from the start of the block. *)
Record block := Block { blk_bytes : N; blk_data : N → T }.

(** A GL buffer object. [gl_mapped] is the device address under which the
    store is visible to CUDA while the buffer is mapped. *)
Record glbuf := GlBuf {
  gl_bytes : N;
  gl_data : N → T;
  gl_elementArray : bool;
  gl_registered : bool;
  gl_writeDiscard : bool;
  gl_mapped : option N
}.

(** The process state. Address 0 is the null pointer and buffer name 0 is
    GL's reserved name; neither is ever handed out. *)
Record World := mkWorld {
  W_host : gmap N block;
  W_dev : gmap N block;
  W_gl : gmap N glbuf;
  W_host_avail : N;              (* bytes the host allocator can still give *)
  W_dev_avail : N;               (* bytes the device allocator can still give *)
  W_curDevice : Z;               (* the active CUDA device *)
  W_nDevices : Z;                (* cudaGetDeviceCount *)
  devID : Z;                     (* extern int devID *)
  renderDevID : Z;               (* extern int renderDevID *)
  W_junk : N → T;                (* what fresh, uninitialised memory holds *)
  W_discard : (N → T) → (N → T); (* what a write-discard map leaves of a store *)
  W_log : list event
}.

Definition with_host (f : gmap N block → gmap N block) (w : World) : World :=
  mkWorld (f (W_host w)) (W_dev w) (W_gl w) (W_host_avail w) (W_dev_avail w)
          (W_curDevice w) (W_nDevices w) (devID w) (renderDevID w)
          (W_junk w) (W_discard w) (W_log w).
Definition with_dev (f : gmap N block → gmap N block) (w : World) : World :=
  mkWorld (W_host w) (f (W_dev w)) (W_gl w) (W_host_avail w) (W_dev_avail w)
          (W_curDevice w) (W_nDevices w) (devID w) (renderDevID w)
          (W_junk w) (W_discard w) (W_log w).
Definition with_gl (f : gmap N glbuf → gmap N glbuf) (w : World) : World :=
  mkWorld (W_host w) (W_dev w) (f (W_gl w)) (W_host_avail w) (W_dev_avail w)
          (W_curDevice w) (W_nDevices w) (devID w) (renderDevID w)
          (W_junk w) (W_discard w) (W_log w).
Definition with_host_avail (n : N) (w : World) : World :=
  mkWorld (W_host w) (W_dev w) (W_gl w) n (W_dev_avail w)
          (W_curDevice w) (W_nDevices w) (devID w) (renderDevID w)
          (W_junk w) (W_discard w) (W_log w).
Definition with_dev_avail (n : N) (w : World) : World :=
  mkWorld (W_host w) (W_dev w) (W_gl w) (W_host_avail w) n
          (W_curDevice w) (W_nDevices w) (devID w) (renderDevID w)
          (W_junk w) (W_discard w) (W_log w).
Definition with_curDevice (d : Z) (w : World) : World :=
  mkWorld (W_host w) (W_dev w) (W_gl w) (W_host_avail w) (W_dev_avail w)
          d (W_nDevices w) (devID w) (renderDevID w)
          (W_junk w) (W_discard w) (W_log w).
Definition logged (e : event) (w : World) : World :=
  mkWorld (W_host w) (W_dev w) (W_gl w) (W_host_avail w) (W_dev_avail w)
          (W_curDevice w) (W_nDevices w) (devID w) (renderDevID w)
          (W_junk w) (W_discard w) (W_log w ++ [e]).

(** A name that is neither 0 nor in use. *)
Definition fresh_name {V} (m : gmap N V) : N := fresh ({[ 0 ]} ∪ dom m).

(** ** Outcomes and the method monad *)

Inductive outcome (A : Type) :=
| Ret (a : A) (w : World)   (* the call returns *)
| Exit (status : Z)         (* exit(status) *)
| Abort.                    (* uncaught exception or undefined behaviour *)
Arguments Ret {A} a w.
Arguments Exit {A} status.
Arguments Abort {A}.

Definition M (A : Type) : Type := World → outcome A.

#[global] Instance M_ret : MRet M := λ A a w, Ret a w.
#[global] Instance M_bind : MBind M := λ A B k m w,
  match m w with
  | Ret a w' => k a w'
  | Exit s => Exit s
  | Abort => Abort
  end.

(** A runtime API call: it succeeds with a value and a new state, or fails
    with an error code and no effect. *)
Inductive api (A : Type) :=
| ApiOk (a : A) (w : World)
| ApiErr (e : cudaError).
Arguments ApiOk {A} a w.
Arguments ApiErr {A} e.

(** [cutilSafeCall]: anything but [cudaSuccess] prints and calls [exit(-1)]. *)
Definition cutilSafeCall {A} (call : World → api A) : M A :=
  λ w, match call w with
       | ApiOk a w' => Ret a w'
       | ApiErr _ => Exit (-1)
       end.

(** A call whose error code the caller drops. *)
Definition unchecked (call : World → api unit) : M unit :=
  λ w, match call w with
       | ApiOk _ w' => Ret tt w'
       | ApiErr _ => Ret tt w
       end.

(** ** The host allocator *)

(** [new T[n]]: throws when the byte count overflows [size_t] or the heap
    is exhausted; nothing in [GpuArray] catches it. *)
Definition new_array (n : N) : M N := λ w,
  let bytes := n * sizeofT in
  if (size_max <=? bytes) || (W_host_avail w <? bytes) then Abort
  else
    let a := fresh_name (W_host w) in
    Ret a (logged (Acquire (HostArray a))
            (with_host_avail (W_host_avail w - bytes)
              (with_host <[a := Block bytes (W_junk w)]> w))).

(** [delete [] p] for a non-null [p]: undefined unless [p] is live. *)
Definition delete_array (a : N) : M unit := λ w,
  match W_host w !! a with
  | Some b =>
      Ret tt (logged (Release (HostArray a))
               (with_host_avail (W_host_avail w + blk_bytes b)
                 (with_host (delete a) w)))
  | None => Abort
  end.

(** ** The CUDA runtime *)

Definition cudaMalloc (bytes : N) (w : World) : api N :=
  if W_dev_avail w <? bytes then ApiErr cudaErrorMemoryAllocation
  else
    let a := fresh_name (W_dev w) in
    ApiOk a (logged (Acquire (DeviceMem a))
              (with_dev_avail (W_dev_avail w - bytes)
                (with_dev <[a := Block bytes (W_junk w)]> w))).

Definition cudaFree (a : N) (w : World) : api unit :=
  match W_dev w !! a with
  | Some b =>
      ApiOk tt (logged (Release (DeviceMem a))
                 (with_dev_avail (W_dev_avail w + blk_bytes b)
                   (with_dev (delete a) w)))
  | None => ApiErr cudaErrorInvalidDevicePointer
  end.

Definition cudaSetDevice (d : Z) (w : World) : api unit :=
  if ((0 <=? d) && (d <? W_nDevices w))%Z then ApiOk tt (with_curDevice d w)
  else ApiErr cudaErrorInvalidDevice.

(** A pointer [p + off] is the address [p] of a block and an element
    offset. [nbytes] bytes from element [off] on lie inside block [b]. *)
Definition in_block (b : block) (off nbytes : N) : bool :=
  off * sizeofT + nbytes <=? blk_bytes b.

(** The elements of [dst] after [n] elements of [src] are copied to it,
    both from element offset [off] on. *)
Definition blit (dst src : N → T) (doff soff n : N) : N → T :=
  λ i, if (doff <=? i) && (i <? doff + n) then src (i - doff + soff) else dst i.

(** [cudaMemcpy(dst + doff, src + soff, nbytes, kind)]. *)
Definition cudaMemcpy (kind : Direction) (dst doff src soff nbytes : N)
    (w : World) : api unit :=
  let n := nbytes / sizeofT in
  match kind with
  | HOST_TO_DEVICE =>
      match W_dev w !! dst, W_host w !! src with
      | Some d, Some s =>
          if in_block d doff nbytes && in_block s soff nbytes then
            ApiOk tt (with_dev
              <[dst := Block (blk_bytes d) (blit (blk_data d) (blk_data s) doff soff n)]> w)
          else ApiErr cudaErrorInvalidValue
      | _, _ => ApiErr cudaErrorInvalidValue
      end
  | DEVICE_TO_HOST =>
      match W_host w !! dst, W_dev w !! src with
      | Some d, Some s =>
          if in_block d doff nbytes && in_block s soff nbytes then
            ApiOk tt (with_host
              <[dst := Block (blk_bytes d) (blit (blk_data d) (blk_data s) doff soff n)]> w)
          else ApiErr cudaErrorInvalidValue
      | _, _ => ApiErr cudaErrorInvalidValue
      end
  end.

(** ** OpenGL buffer objects and CUDA/GL interop *)

(** [glGenBuffers(1, &vbo)]: a fresh non-zero name, no store yet. *)
Definition glGenBuffers : M N := λ w,
  let v := fresh_name (W_gl w) in
  Ret v (logged (Acquire (GlBuffer v))
          (with_gl <[v := GlBuf 0 (W_junk w) false false false None]> w)).

(** [glBindBuffer(target, vbo); glBufferData(target, size, 0,
    GL_DYNAMIC_DRAW); glBindBuffer(target, 0)]: the buffer gets an
    uninitialised store of [size] bytes. *)
Definition glBufferData (elementArray : bool) (v size : N) : M unit := λ w,
  match W_gl w !! v with
  | Some b =>
      Ret tt (with_gl <[v := GlBuf size (W_junk w) elementArray
                              (gl_registered b) (gl_writeDiscard b) (gl_mapped b)]> w)
  | None => Ret tt w
  end.

(** [glDeleteBuffers(1, &vbo)]: names that denote no buffer are ignored. *)
Definition glDeleteBuffers (v : N) : M unit := λ w,
  match W_gl w !! v with
  | Some _ => Ret tt (logged (Release (GlBuffer v)) (with_gl (delete v) w))
  | None => Ret tt w
  end.

Definition cudaGLRegisterBufferObject (v : N) (w : World) : api unit :=
  match W_gl w !! v with
  | Some b =>
      if gl_registered b then ApiErr cudaErrorInvalidResourceHandle
      else ApiOk tt (logged (Acquire (GlRegistration v))
             (with_gl <[v := GlBuf (gl_bytes b) (gl_data b) (gl_elementArray b)
                                true (gl_writeDiscard b) (gl_mapped b)]> w))
  | None => ApiErr cudaErrorInvalidResourceHandle
  end.

(** [cudaGLSetBufferObjectMapFlags(vbo, cudaGLMapFlagsWriteDiscard)]. *)
Definition cudaGLSetBufferObjectMapFlags (v : N) (w : World) : api unit :=
  match W_gl w !! v with
  | Some b =>
      if gl_registered b then
        ApiOk tt (with_gl <[v := GlBuf (gl_bytes b) (gl_data b) (gl_elementArray b)
                                   true true (gl_mapped b)]> w)
      else ApiErr cudaErrorInvalidResourceHandle
  | None => ApiErr cudaErrorInvalidResourceHandle
  end.

Definition cudaGLUnregisterBufferObject (v : N) (w : World) : api unit :=
  match W_gl w !! v with
  | Some b =>
      if gl_registered b then
        let w1 := match gl_mapped b with
                  | Some a => with_dev (delete a) w
                  | None => w
                  end in
        ApiOk tt (logged (Release (GlRegistration v))
          (with_gl <[v := GlBuf (gl_bytes b) (gl_data b) (gl_elementArray b)
                             false (gl_writeDiscard b) None]> w1))
      else ApiErr cudaErrorInvalidResourceHandle
  | None => ApiErr cudaErrorInvalidResourceHandle
  end.

(** [cudaGLMapBufferObject(&p, vbo)]: the store becomes visible at a fresh
    device address. Under the write-discard flag the runtime need not keep
    what the store held. *)
Definition cudaGLMapBufferObject (v : N) (w : World) : api N :=
  match W_gl w !! v with
  | Some b =>
      match gl_registered b, gl_mapped b with
      | true, None =>
          let a := fresh_name (W_dev w) in
          let seen := if gl_writeDiscard b then W_discard w (gl_data b)
                      else gl_data b in
          ApiOk a (with_dev <[a := Block (gl_bytes b) seen]>
                    (with_gl <[v := GlBuf (gl_bytes b) (gl_data b) (gl_elementArray b)
                                       true (gl_writeDiscard b) (Some a)]> w))
      | _, _ => ApiErr cudaErrorMapBufferObjectFailed
      end
  | None => ApiErr cudaErrorMapBufferObjectFailed
  end.

(** [cudaGLUnmapBufferObject(vbo)]: the store takes what was written through
    the device address, and the address dies. *)
Definition cudaGLUnmapBufferObject (v : N) (w : World) : api unit :=
  match W_gl w !! v with
  | Some b =>
      match gl_mapped b with
      | Some a =>
          match W_dev w !! a with
          | Some blk =>
              ApiOk tt (with_dev (delete a)
                (with_gl <[v := GlBuf (gl_bytes b) (blk_data blk) (gl_elementArray b)
                                   (gl_registered b) (gl_writeDiscard b) None]> w))
          | None => ApiErr cudaErrorUnmapBufferObjectFailed
          end
      | None => ApiErr cudaErrorUnmapBufferObjectFailed
      end
  | None => ApiErr cudaErrorUnmapBufferObjectFailed
  end.

(** A store through a device pointer, as a kernel does it: [p[i] = x]. *)
Definition deviceWrite (p i : N) (x : T) : M unit := λ w,
  match W_dev w !! p with
  | Some b =>
      if in_block b i sizeofT then
        Ret tt (with_dev <[p := Block (blk_bytes b)
                                 (λ j, if j =? i then x else blk_data b j)]> w)
      else Abort
  | None => Abort
  end.

(** A store through a host pointer: [p[i] = x]. *)
Definition hostWrite (p i : N) (x : T) : M unit := λ w,
  match W_host w !! p with
  | Some b =>
      if in_block b i sizeofT then
        Ret tt (with_host <[p := Block (blk_bytes b)
                                  (λ j, if j =? i then x else blk_data b j)]> w)
      else Abort
  | None => Abort
  end.

(** ** The class *)

(** [m_dptr] and [m_vbo] are arrays of two. *)
Record GpuArray := mkGpuArray {
  m_size : N;
  m_dptr0 : N; m_dptr1 : N;
  m_vbo0 : N; m_vbo1 : N;
  m_hptr : N;
  m_useVBO : bool;
  m_doubleBuffer : bool;
  m_currentRead : N;
  m_currentWrite : N
}.

(** [m_dptr[i]] and [m_vbo[i]]; the class only ever indexes with 0 and 1. *)
Definition m_dptr (g : GpuArray) (i : N) : N :=
  match i with 0 => m_dptr0 g | _ => m_dptr1 g end.
Definition m_vbo (g : GpuArray) (i : N) : N :=
  match i with 0 => m_vbo0 g | _ => m_vbo1 g end.

Definition set_size (n : N) (g : GpuArray) : GpuArray :=
  mkGpuArray n (m_dptr0 g) (m_dptr1 g) (m_vbo0 g) (m_vbo1 g) (m_hptr g)
             (m_useVBO g) (m_doubleBuffer g) (m_currentRead g) (m_currentWrite g).
Definition set_dptr (i p : N) (g : GpuArray) : GpuArray :=
  mkGpuArray (m_size g)
             (match i with 0 => p | _ => m_dptr0 g end)
             (match i with 0 => m_dptr1 g | _ => p end)
             (m_vbo0 g) (m_vbo1 g) (m_hptr g)
             (m_useVBO g) (m_doubleBuffer g) (m_currentRead g) (m_currentWrite g).
Definition set_vbo (i v : N) (g : GpuArray) : GpuArray :=
  mkGpuArray (m_size g) (m_dptr0 g) (m_dptr1 g)
             (match i with 0 => v | _ => m_vbo0 g end)
             (match i with 0 => m_vbo1 g | _ => v end)
             (m_hptr g)
             (m_useVBO g) (m_doubleBuffer g) (m_currentRead g) (m_currentWrite g).
Definition set_hptr (p : N) (g : GpuArray) : GpuArray :=
  mkGpuArray (m_size g) (m_dptr0 g) (m_dptr1 g) (m_vbo0 g) (m_vbo1 g) p
             (m_useVBO g) (m_doubleBuffer g) (m_currentRead g) (m_currentWrite g).
Definition set_useVBO (b : bool) (g : GpuArray) : GpuArray :=
  mkGpuArray (m_size g) (m_dptr0 g) (m_dptr1 g) (m_vbo0 g) (m_vbo1 g) (m_hptr g)
             b (m_doubleBuffer g) (m_currentRead g) (m_currentWrite g).
Definition set_doubleBuffer (b : bool) (g : GpuArray) : GpuArray :=
  mkGpuArray (m_size g) (m_dptr0 g) (m_dptr1 g) (m_vbo0 g) (m_vbo1 g) (m_hptr g)
             (m_useVBO g) b (m_currentRead g) (m_currentWrite g).
Definition set_currentRead (i : N) (g : GpuArray) : GpuArray :=
  mkGpuArray (m_size g) (m_dptr0 g) (m_dptr1 g) (m_vbo0 g) (m_vbo1 g) (m_hptr g)
             (m_useVBO g) (m_doubleBuffer g) i (m_currentWrite g).
Definition set_currentWrite (i : N) (g : GpuArray) : GpuArray :=
  mkGpuArray (m_size g) (m_dptr0 g) (m_dptr1 g) (m_vbo0 g) (m_vbo1 g) (m_hptr g)
             (m_useVBO g) (m_doubleBuffer g) (m_currentRead g) i.

(** [GpuArray()]. The initialiser list and the body set everything except
    [m_useVBO] and [m_doubleBuffer]; what those two hold until [alloc] is
    indeterminate, so the constructor takes it as given. *)
Definition GpuArray_ctor (indet_useVBO indet_doubleBuffer : bool) : GpuArray :=
  mkGpuArray 0 0 0 0 0 0 indet_useVBO indet_doubleBuffer 0 0.

Definition allocHost (g : GpuArray) : M GpuArray :=
  p ← new_array (m_size g);
  mret (set_hptr p g).

Definition freeHost (g : GpuArray) : M GpuArray :=
  if negb (m_hptr g =? 0) then
    delete_array (m_hptr g);;
    mret (set_hptr 0 g)
  else mret g.

Definition allocDevice (g : GpuArray) : M GpuArray :=
  p ← cutilSafeCall (cudaMalloc (to_size_t (m_size g * sizeofT)));
  let g := set_dptr 0 p g in
  if m_doubleBuffer g then
    p ← cutilSafeCall (cudaMalloc (to_size_t (m_size g * sizeofT)));
    mret (set_dptr 1 p g)
  else mret g.

Definition freeDevice (g : GpuArray) : M GpuArray :=
  g ← (if negb (m_dptr g 0 =? 0) then
         cutilSafeCall (cudaFree (m_dptr g 0));;
         mret (set_dptr 0 0 g)
       else mret g);
  if negb (m_dptr g 1 =? 0) then
    cutilSafeCall (cudaFree (m_dptr g 1));;
    mret (set_dptr 1 0 g)
  else mret g.

Definition createVbo (size : N) (useElementArray : bool) : M N :=
  vbo ← glGenBuffers;
  glBufferData useElementArray vbo size;;
  cutilSafeCall (cudaGLRegisterBufferObject vbo);;
  cutilSafeCall (cudaGLSetBufferObjectMapFlags vbo);;
  mret vbo.

Definition allocVbo (useElementArray : bool) (g : GpuArray) : M GpuArray :=
  v ← createVbo (to_size_t (m_size g * sizeofT)) useElementArray;
  let g := set_vbo 0 v g in
  if m_doubleBuffer g then
    v ← createVbo (to_size_t (m_size g * sizeofT)) useElementArray;
    mret (set_vbo 1 v g)
  else mret g.

Definition freeVbo (g : GpuArray) : M GpuArray :=
  g ← (if negb (m_vbo g 0 =? 0) then
         cutilSafeCall (cudaGLUnregisterBufferObject (m_vbo g 0));;
         glDeleteBuffers (m_vbo g 0);;
         mret (set_vbo 0 0 g)
       else mret g);
  if negb (m_vbo g 1 =? 0) then
    cutilSafeCall (cudaGLUnregisterBufferObject (m_vbo g 1));;
    glDeleteBuffers (m_vbo g 1);;
    mret (set_vbo 1 0 g)
  else mret g.

Definition alloc (size : N) (vbo doubleBuffer useElementArray : bool)
    (g : GpuArray) : M GpuArray :=
  let g := set_size size g in
  let g := set_useVBO vbo g in
  let g := set_doubleBuffer doubleBuffer g in
  let g := if m_doubleBuffer g then set_currentWrite 1 g else g in
  g ← allocHost g;
  if vbo then allocVbo useElementArray g else allocDevice g.

(** The condition of [free] is [m_vbo], the member array itself. As a
    condition an array is the address of its first element, and the address
    of a member is never null: the test does not look at what the array
    holds. *)
Definition m_vbo_as_condition (g : GpuArray) : bool := true.

Definition free (g : GpuArray) : M GpuArray :=
  g ← freeHost g;
  if m_vbo_as_condition g then freeVbo g else freeDevice g.

(** [~GpuArray()]. *)
Definition GpuArray_dtor (g : GpuArray) : M GpuArray := free g.

(** [std::swap(m_currentRead, m_currentWrite)]. *)
Definition swap (g : GpuArray) : GpuArray :=
  set_currentWrite (m_currentRead g) (set_currentRead (m_currentWrite g) g).

Definition map (g : GpuArray) : M GpuArray :=
  g ← (if negb (m_vbo g 0 =? 0) then
         p ← cutilSafeCall (cudaGLMapBufferObject (m_vbo g 0));
         mret (set_dptr 0 p g)
       else mret g);
  if m_doubleBuffer g && negb (m_vbo g 1 =? 0) then
    p ← cutilSafeCall (cudaGLMapBufferObject (m_vbo g 1));
    mret (set_dptr 1 p g)
  else mret g.

Definition unmap (g : GpuArray) : M GpuArray :=
  g ← (if negb (m_vbo g 0 =? 0) then
         cutilSafeCall (cudaGLUnmapBufferObject (m_vbo g 0));;
         mret (set_dptr 0 0 g)
       else mret g);
  if m_doubleBuffer g && negb (m_vbo g 1 =? 0) then
    cutilSafeCall (cudaGLUnmapBufferObject (m_vbo g 1));;
    mret (set_dptr 1 0 g)
  else mret g.

(** Reading one of the two global device ids. *)
Definition global (f : World → Z) : M Z := λ w, Ret (f w) w.

Definition copy (dir : Direction) (start count : N) (g : GpuArray) : M GpuArray :=
  let count := if count =? 0 then to_uint (m_size g) else count in
  d ← global renderDevID;
  unchecked (cudaSetDevice d);;
  g ← map g;
  match dir with
  | HOST_TO_DEVICE =>
      cutilSafeCall (cudaMemcpy HOST_TO_DEVICE
                       (m_dptr g (m_currentRead g)) start (m_hptr g) start
                       (to_size_t (count * sizeofT)))
  | DEVICE_TO_HOST =>
      cutilSafeCall (cudaMemcpy DEVICE_TO_HOST
                       (m_hptr g) start (m_dptr g (m_currentRead g)) start
                       (to_size_t (count * sizeofT)))
  end;;
  g ← unmap g;
  d ← global devID;
  unchecked (cudaSetDevice d);;
  mret g.

(** The body of [memset] is empty. *)
Definition memset (value : T) (start count : N) (g : GpuArray) : M GpuArray :=
  mret g.

Definition getDevicePtr (g : GpuArray) : N := m_dptr g (m_currentRead g).
Definition getVbo (g : GpuArray) : N := m_vbo g (m_currentRead g).
Definition getDeviceWritePtr (g : GpuArray) : N := m_dptr g (m_currentWrite g).
Definition getWriteVbo (g : GpuArray) : N := m_vbo g (m_currentWrite g).
Definition getHostPtr (g : GpuArray) : N := m_hptr g.
Definition getSize (g : GpuArray) : N := m_size g.

(** ** Sequences of calls on one object *)

Inductive op :=
| OpAlloc (size : N) (vbo doubleBuffer useElementArray : bool)
| OpFree
| OpSwap
| OpMap
| OpUnmap
| OpCopy (dir : Direction) (start count : N)
| OpMemset (value : T) (start count : N).

Definition step (o : op) (g : GpuArray) : M GpuArray :=
  match o with
  | OpAlloc size vbo db ea => alloc size vbo db ea g
  | OpFree => free g
  | OpSwap => mret (swap g)
  | OpMap => map g
  | OpUnmap => unmap g
  | OpCopy dir start count => copy dir start count g
  | OpMemset value start count => memset value start count g
  end.

Fixpoint run (ops : list op) (g : GpuArray) : M GpuArray :=
  match ops with
  | [] => mret g
  | o :: ops => g ← step o g; run ops g
  end.

Definition is_alloc (o : op) : bool :=
  match o with OpAlloc _ _ _ _ => true | _ => false end.

(** The role-index invariant of the data model. *)
Definition role_inv (g : GpuArray) : Prop :=
  if m_doubleBuffer g
  then (m_currentRead g = 0 ∧ m_currentWrite g = 1) ∨
       (m_currentRead g = 1 ∧ m_currentWrite g = 0)
  else m_currentRead g = 0 ∧ m_currentWrite g = 0.

(** ** Predicates on objects and process states *)

(** The three fields the role invariant reads. *)
Definition same_roles (g g' : GpuArray) : Prop :=
  m_doubleBuffer g' = m_doubleBuffer g ∧
  m_currentRead g' = m_currentRead g ∧
  m_currentWrite g' = m_currentWrite g.

(** The number of [alloc] calls in a sequence. *)
Definition allocs (ops : list op) : nat := length (List.filter is_alloc ops).

(** What of the process state concerns devices. *)
Definition same_devices (w w' : World) : Prop :=
  W_curDevice w' = W_curDevice w ∧ W_nDevices w' = W_nDevices w ∧
  devID w' = devID w ∧ renderDevID w' = renderDevID w.

(** A device id names a device. *)
Definition valid_device (w : World) (d : Z) : bool := ((0 <=? d) && (d <? W_nDevices w))%Z.

(** The host array of [g] is live and has room for [m_size] elements. *)
Definition host_ok (g : GpuArray) (w : World) : Prop :=
  m_hptr g ≠ 0 ∧ m_size g * sizeofT < size_max ∧
  ∃ b, W_host w !! m_hptr g = Some b ∧ blk_bytes b = m_size g * sizeofT.

(** Device slot [i] of [g] is live device memory of that size. *)
Definition dev_ok (g : GpuArray) (w : World) (i : N) : Prop :=
  m_dptr g i ≠ 0 ∧
  ∃ b, W_dev w !! m_dptr g i = Some b ∧ blk_bytes b = m_size g * sizeofT.

(** Buffer [i] of [g] is a registered, unmapped buffer object of that size
    with the write-discard flag. *)
Definition vbo_ok (g : GpuArray) (w : World) (i : N) : Prop :=
  m_vbo g i ≠ 0 ∧
  ∃ b, W_gl w !! m_vbo g i = Some b ∧ gl_bytes b = m_size g * sizeofT ∧
       gl_registered b = true ∧ gl_writeDiscard b = true ∧ gl_mapped b = None.

(** What [alloc] establishes and every call but [free] keeps. *)
Definition allocated (g : GpuArray) (w : World) : Prop :=
  role_inv g ∧ host_ok g w ∧
  if m_useVBO g then
    vbo_ok g w 0 ∧
    (if m_doubleBuffer g then vbo_ok g w 1 ∧ m_vbo g 0 ≠ m_vbo g 1
     else m_vbo g 1 = 0)
  else
    m_vbo g 0 = 0 ∧ m_vbo g 1 = 0 ∧ dev_ok g w 0 ∧
    (if m_doubleBuffer g then dev_ok g w 1 ∧ m_dptr g 0 ≠ m_dptr g 1 else True).

(** ** What the buffers hold *)

(** The elements of the host array. *)
Definition host_data (g : GpuArray) (w : World) : option (N → T) :=
  blk_data <$> W_host w !! m_hptr g.

(** The elements behind device pointer [m_dptr[i]]. *)
Definition dev_data (g : GpuArray) (w : World) (i : N) : option (N → T) :=
  blk_data <$> W_dev w !! m_dptr g i.

(** The elements of device slot [i]: the store of the buffer object if the
    object uses one, the device allocation otherwise. *)
Definition slot_data (g : GpuArray) (w : World) (i : N) : option (N → T) :=
  if m_useVBO g then gl_data <$> W_gl w !! m_vbo g i
  else blk_data <$> W_dev w !! m_dptr g i.

(** What a transfer finds in slot [i]: a buffer object is mapped first,
    with the write-discard flag. *)
Definition slot_seen (g : GpuArray) (w : World) (i : N) : option (N → T) :=
  if m_useVBO g then W_discard w <$> slot_data g w i else slot_data g w i.

(** Buffer [i] of [g] is mapped at [m_dptr[i]]. *)
Definition slot_mapped (g : GpuArray) (w : World) (i : N) : Prop :=
  m_vbo g i ≠ 0 ∧ m_dptr g i ≠ 0 ∧
  ∃ b blk, W_gl w !! m_vbo g i = Some b ∧ gl_bytes b = m_size g * sizeofT ∧
           gl_registered b = true ∧ gl_writeDiscard b = true ∧
           gl_mapped b = Some (m_dptr g i) ∧
           W_dev w !! m_dptr g i = Some blk ∧
           blk_bytes blk = m_size g * sizeofT.

(** The state between [map] and [unmap] of an allocated object. *)
Definition in_transfer (g : GpuArray) (w : World) : Prop :=
  role_inv g ∧ host_ok g w ∧
  if m_useVBO g then
    slot_mapped g w 0 ∧
    (if m_doubleBuffer g
     then slot_mapped g w 1 ∧ m_vbo g 0 ≠ m_vbo g 1 ∧ m_dptr g 0 ≠ m_dptr g 1
     else m_vbo g 1 = 0)
  else
    m_vbo g 0 = 0 ∧ m_vbo g 1 = 0 ∧ dev_ok g w 0 ∧
    (if m_doubleBuffer g then dev_ok g w 1 ∧ m_dptr g 0 ≠ m_dptr g 1 else True).

(** Two objects that differ in their device pointers only. *)
Definition same_but_dptr (g g' : GpuArray) : Prop :=
  m_size g' = m_size g ∧ m_hptr g' = m_hptr g ∧
  m_vbo0 g' = m_vbo0 g ∧ m_vbo1 g' = m_vbo1 g ∧
  m_useVBO g' = m_useVBO g ∧ same_roles g g'.

(** The count [copy] works with. *)
Definition effective_count (g : GpuArray) (count : N) : N :=
  if count =? 0 then to_uint (m_size g) else count.

(** Index [i] lies in the range of [n] elements from [start] on. *)
Definition in_range (start n i : N) : bool := (start <=? i) && (i <? start + n).

End Array.

Arguments Block {T} _ _.
Arguments blk_bytes {T} _.
Arguments blk_data {T} _ _.
Arguments gl_bytes {T} _.
Arguments gl_data {T} _ _.
Arguments gl_elementArray {T} _.
Arguments gl_registered {T} _.
Arguments gl_writeDiscard {T} _.
Arguments gl_mapped {T} _.
Arguments W_host {T} _.
Arguments W_dev {T} _.
Arguments W_gl {T} _.
Arguments W_host_avail {T} _.
Arguments W_dev_avail {T} _.
Arguments W_curDevice {T} _.
Arguments W_nDevices {T} _.
Arguments devID {T} _.
Arguments renderDevID {T} _.
Arguments W_junk {T} _ _.
Arguments W_discard {T} _ _ _.
Arguments W_log {T} _.
Arguments Ret {T A} a w.
Arguments ApiOk {T A} a w.
Arguments ApiErr {T A} e.
Arguments cutilSafeCall {T A} call _.
Arguments unchecked {T} call _.
Arguments new_array {T} sizeofT n _.
Arguments delete_array {T} a _.
Arguments cudaMalloc {T} bytes w.
Arguments cudaFree {T} a w.
Arguments cudaSetDevice {T} d w.
Arguments cudaMemcpy {T} sizeofT kind dst doff src soff nbytes w.
Arguments in_block {T} sizeofT b off nbytes.
Arguments glGenBuffers {T} _.
Arguments glBufferData {T} elementArray v size _.
Arguments glDeleteBuffers {T} v _.
Arguments cudaGLRegisterBufferObject {T} v w.
Arguments cudaGLSetBufferObjectMapFlags {T} v w.
Arguments cudaGLUnregisterBufferObject {T} v w.
Arguments cudaGLMapBufferObject {T} v w.
Arguments cudaGLUnmapBufferObject {T} v w.
Arguments allocHost {T} sizeofT g _.
Arguments freeHost {T} g _.
Arguments allocDevice {T} sizeofT g _.
Arguments freeDevice {T} g _.
Arguments createVbo {T} size useElementArray _.
Arguments allocVbo {T} sizeofT useElementArray g _.
Arguments freeVbo {T} g _.
Arguments global {T} f _.
Arguments with_host {T} f w.
Arguments with_dev {T} f w.
Arguments with_gl {T} f w.
Arguments with_host_avail {T} n w.
Arguments with_dev_avail {T} n w.
Arguments with_curDevice {T} d w.
Arguments logged {T} e w.
Arguments GlBuf {T} _ _ _ _ _ _.
Arguments Exit {T A} status.
Arguments Abort {T A}.
Arguments blit {T} dst src doff soff n _.
Arguments alloc {T} sizeofT size vbo doubleBuffer useElementArray g _.
Arguments free {T} g _.
Arguments GpuArray_dtor {T} g _.
Arguments map {T} g _.
Arguments unmap {T} g _.
Arguments copy {T} sizeofT dir start count g _.
Arguments memset {T} value start count g _.
Arguments deviceWrite {T} sizeofT p i x _.
Arguments step {T} sizeofT o g _.
Arguments run {T} sizeofT ops g _.
Arguments is_alloc {T} o.
Arguments OpFree {T}.
Arguments OpSwap {T}.
Arguments OpMap {T}.
Arguments OpUnmap {T}.
Arguments OpCopy {T} dir start count.
Arguments OpAlloc {T} size vbo doubleBuffer useElementArray.
Arguments OpMemset {T} value start count.
Arguments allocs {T} ops.
Arguments same_devices {T} w w'.
Arguments valid_device {T} w d.
Arguments host_ok {T} sizeofT g w.
Arguments dev_ok {T} sizeofT g w i.
Arguments vbo_ok {T} sizeofT g w i.
Arguments allocated {T} sizeofT g w.
Arguments hostWrite {T} sizeofT p i x _.
Arguments host_data {T} g w.
Arguments dev_data {T} g w i.
Arguments slot_data {T} g w i.
Arguments slot_seen {T} g w i.
Arguments slot_mapped {T} sizeofT g w i.
Arguments in_transfer {T} sizeofT g w.

(** ** Concrete processes and objects

    Elements are integers of four bytes. The process has two devices,
    computes on device 0 and renders on device 1; its heaps are empty, fresh
    memory holds zeros, and the runtime keeps a store across a map. *)
Definition process0 : World Z :=
  mkWorld Z ∅ ∅ ∅ (2 ^ 40) (2 ^ 40) 0 2 0 1 (λ _, 0%Z) (λ f, f) [].

(** The same process while the rendering device is active. *)
Definition process_rendering : World Z := with_curDevice 1 process0.

(** The same process with a runtime that hands out a cleared store on a
    write-discard map. *)
Definition process_discarding : World Z :=
  mkWorld Z ∅ ∅ ∅ (2 ^ 40) (2 ^ 40) 0 2 0 1 (λ _, 0%Z) (λ _ _, 0%Z) [].

Definition new_object : GpuArray := GpuArray_ctor false false.

(** The object and the process a returning call leaves. *)
Definition the (o : outcome Z GpuArray) : GpuArray * World Z :=
  match o with
  | Ret g w => (g, w)
  | _ => (new_object, process0)
  end.

(** Four elements in device memory, single-buffered. *)
Definition device_array : GpuArray * World Z :=
  the (alloc 4 4 false false false new_object process0).

(** Four elements in two buffer objects. *)
Definition vbo_array : GpuArray * World Z :=
  the (alloc 4 4 true true false new_object process0).

(** Allocate double-buffered, swap, copy, swap. *)
Definition swap_copy_swap : list (op Z) :=
  [OpAlloc 4 false true false; OpSwap; OpCopy HOST_TO_DEVICE 0 0; OpSwap].

Definition after_swap_copy_swap : GpuArray * World Z :=
  the (run 4 swap_copy_swap new_object process0).

(** Allocate double-buffered, swap, free, allocate double-buffered again. *)
Definition alloc_twice : list (op Z) :=
  [OpAlloc 4 false true false; OpSwap; OpFree; OpAlloc 4 false true false].

(** Four elements in device memory, double-buffered. *)
Definition double_array : GpuArray * World Z :=
  the (alloc 4 4 false true false new_object process0).

(** The double-buffered array allocated a second time, now single-buffered,
    without a [free] in between. *)
Definition single_array_again : GpuArray * World Z :=
  the (alloc 4 4 false false false double_array.1 double_array.2).

(** Four elements in device memory, allocated while the rendering device
    is active, and the array after a full copy to the device. *)
Definition rendering_array : GpuArray * World Z :=
  the (alloc 4 4 false false false new_object process_rendering).
Definition rendering_copied : GpuArray * World Z :=
  the (copy 4 HOST_TO_DEVICE 0 0 rendering_array.1 rendering_array.2).

(** The four-element array after [free]. *)
Definition freed_array : GpuArray * World Z :=
  the (free device_array.1 device_array.2).

(** The four-element array after elements 1 and 2 have been copied to the
    host. *)
Definition read_back_array : GpuArray * World Z :=
  the (copy 4 DEVICE_TO_HOST 1 2 device_array.1 device_array.2).

End GpuArr.

(** * The snapshot handoff of [main.cpp] *)

Module Handoff.

Section IO.

(** [float], the element type of the position and velocity arrays, and
    the type of the identifiers. *)
Variables (real real4 ident : Type).

(** The text [sprintf] makes of a [float] under ["%010.4f"]: the C
    library's. *)
Variable fmt_time : real → string.

(** [volatile IOSharedData_t ioSharedData]. The fields are the ones [main]
    reads and writes; an array that has been released is [None]. *)
Record IOSharedData_t := mkIO {
  writingFinished : bool;
  nBodies : Z;
  t_current : real;
  Pos : option (list real4);
  Vel : option (list real4);
  IDs : option (list ident)
}.

Definition set_writingFinished (b : bool) (d : IOSharedData_t) : IOSharedData_t :=
  mkIO b (nBodies d) (t_current d) (Pos d) (Vel d) (IDs d).

(** Modelled from the spec: [IOSharedData_t::free] is declared outside the
    examined files. The consumer drains a slot and releases it, and the flag
    changes only through the assignments in [main]: [free] gives up the
    three arrays and leaves the rest alone. *)
Definition IOSharedData_free (d : IOSharedData_t) : IOSharedData_t :=
  mkIO (writingFinished d) (nBodies d) (t_current d) None None None.

(** The slot is released. *)
Definition released (d : IOSharedData_t) : Prop :=
  Pos d = None ∧ Vel d = None ∧ IDs d = None.

(** What [main] has fixed before the parallel region starts. *)
Record config := mkConfig {
  nProcs : Z;
  procId : Z;
  snapshotFile : string;
  useMPIIO : bool
}.

(** What the I/O thread does that can be seen from outside. [file] is the
    text [fileName.c_str()] points to. *)
Inductive event :=
| write_dumbp_snapshot_parallel
    (pos vel : option (list real4)) (ids : option (list ident))
    (n : Z) (file : string) (t : real)
| write_snapshot_per_process
    (pos vel : option (list real4)) (ids : option (list ident))
    (n : Z) (file : string) (t : real)
| sleep (seconds : N)
| usleep (microseconds : N)
| store (d : IOSharedData_t)     (* the compute thread writes the slot *)
| set_simulationFinished         (* simulationFinished = true *)
| drain_begin                    (* the I/O thread saw writingFinished == false *)
| drain_end.                     (* the I/O thread set writingFinished = true *)

Definition is_write (e : event) : bool :=
  match e with
  | write_dumbp_snapshot_parallel _ _ _ _ _ _ => true
  | write_snapshot_per_process _ _ _ _ _ _ => true
  | _ => false
  end.

(** ** The name of the snapshot file

    [string fileName; fileName.resize(256);] gives [sprintf] 256 characters
    and the string's own terminator to write to: a text of more than 256
    characters runs past the end of the buffer. *)
Definition fits (text : string) : bool := (String.length text <=? 256)%nat.

(** ["%s_%010.4f"] of [snapshotFile] and the time. *)
Definition name_parallel (cfg : config) (t : real) : string :=
  snapshotFile cfg ++ "_" ++ fmt_time t.

(** ["%s_%010.4f-%d"] of [snapshotFile], the time and [procId]. *)
Definition name_per_process (cfg : config) (t : real) : string :=
  (snapshotFile cfg ++ "_" ++ fmt_time t) ++ "-" ++ pretty (procId cfg).

(** ** One pass through the body of the poll loop *)
Inductive poll_result :=
| Polled (d : IOSharedData_t) (evs : list event)   (* the end of the body is reached *)
| PollAssertFailed                                 (* the assert aborts the process *)
| PollOverrun.                                     (* sprintf writes past fileName *)

Definition io_poll (cfg : config) (d : IOSharedData_t) : poll_result :=
  if negb (writingFinished d) then
    let n := nBodies d in
    let t := t_current d in
    if fits (name_parallel cfg t) then
      let call :=
        if (nProcs cfg <=? 16)%Z then
          Some (write_dumbp_snapshot_parallel (Pos d) (Vel d) (IDs d) n
                  (name_parallel cfg t) t)
        else if fits (name_per_process cfg t) then
          Some (write_snapshot_per_process (Pos d) (Vel d) (IDs d) n
                  (name_per_process cfg t) t)
        else None in
      match call with
      | Some w =>
          let d := IOSharedData_free d in
          if negb (writingFinished d) then Polled (set_writingFinished true d) [w]
          else PollAssertFailed
      | None => PollOverrun
      end
    else PollOverrun
  else Polled d [usleep 100].

(** [n] passes with nobody else touching the slot. *)
Fixpoint io_polls (cfg : config) (n : nat) (d : IOSharedData_t) : poll_result :=
  match n with
  | O => Polled d []
  | S n =>
      match io_poll cfg d with
      | Polled d evs =>
          match io_polls cfg n d with
          | Polled d evs' => Polled d (evs ++ evs')
          | PollAssertFailed => PollAssertFailed
          | PollOverrun => PollOverrun
          end
      | PollAssertFailed => PollAssertFailed
      | PollOverrun => PollOverrun
      end
  end.

(** ** The two threads of the parallel region

    The compute thread runs [tree->iterate()], which is outside the examined
    files: all that is fixed is that it can store to [ioSharedData] and that
    it cannot reach [simulationFinished], a local of [main]. After it,
    thread 0 sets [simulationFinished]. *)
Inductive compute_pc :=
| P_iterate    (* inside tree->iterate() *)
| P_done.      (* past simulationFinished = true *)

(** Where the I/O thread stands: one point for each statement of its
    branch (the declaration of [fileName], its [resize] and the first
    [sprintf] are one point). *)
Inductive io_pc :=
| C_enter                               (* assert(!useMPIIO) *)
| C_sleep                               (* sleep(1) *)
| C_head                                (* while(!simulationFinished) *)
| C_test                                (* if(ioSharedData.writingFinished == false) *)
| C_read_n                              (* const int n = ioSharedData.nBodies *)
| C_read_t (n : Z)                      (* const float t_current = ioSharedData.t_current *)
| C_name (n : Z) (t : real)             (* fileName.resize(256); sprintf "%s_%010.4f" *)
| C_branch (n : Z) (t : real) (file : string)             (* if(nProcs <= 16) *)
| C_write_parallel (n : Z) (t : real) (file : string)     (* write_dumbp_snapshot_parallel *)
| C_name_proc (n : Z) (t : real)        (* sprintf "%s_%010.4f-%d" *)
| C_write_per_process (n : Z) (t : real) (file : string)  (* write_snapshot_per_process *)
| C_free                                (* ioSharedData.free() *)
| C_assert                              (* assert(ioSharedData.writingFinished == false) *)
| C_set                                 (* ioSharedData.writingFinished = true *)
| C_usleep                              (* usleep(100) *)
| C_exit.                               (* past the loop *)

Inductive io_next :=
| Next (pc : io_pc) (d : IOSharedData_t) (evs : list event)
| AssertFailed
| Overrun
| Finished.

(** One statement of the I/O thread, given what the two shared variables
    hold at that moment. *)
Definition io_step (cfg : config) (simulationFinished : bool)
    (d : IOSharedData_t) (pc : io_pc) : io_next :=
  match pc with
  | C_enter => if negb (useMPIIO cfg) then Next C_sleep d [] else AssertFailed
  | C_sleep => Next C_head d [sleep 1]
  | C_head => if negb simulationFinished then Next C_test d [] else Next C_exit d []
  | C_test =>
      if negb (writingFinished d) then Next C_read_n d [drain_begin]
      else Next C_usleep d []
  | C_read_n => Next (C_read_t (nBodies d)) d []
  | C_read_t n => Next (C_name n (t_current d)) d []
  | C_name n t =>
      if fits (name_parallel cfg t) then Next (C_branch n t (name_parallel cfg t)) d []
      else Overrun
  | C_branch n t file =>
      if (nProcs cfg <=? 16)%Z then Next (C_write_parallel n t file) d []
      else Next (C_name_proc n t) d []
  | C_write_parallel n t file =>
      Next C_free d [write_dumbp_snapshot_parallel (Pos d) (Vel d) (IDs d) n file t]
  | C_name_proc n t =>
      if fits (name_per_process cfg t)
      then Next (C_write_per_process n t (name_per_process cfg t)) d []
      else Overrun
  | C_write_per_process n t file =>
      Next C_free d [write_snapshot_per_process (Pos d) (Vel d) (IDs d) n file t]
  | C_free => Next C_assert (IOSharedData_free d) []
  | C_assert => if negb (writingFinished d) then Next C_set d [] else AssertFailed
  | C_set => Next C_head (set_writingFinished true d) [drain_end]
  | C_usleep => Next C_head d [usleep 100]
  | C_exit => Finished
  end.

(** The state of the parallel region. *)
Record region := mkRegion {
  simulationFinished : bool;
  ioSharedData : IOSharedData_t;
  compute_at : compute_pc;
  io_at : io_pc;
  dead : bool;             (* the process was aborted, or [sprintf] has
                              written past its buffer: what the program does
                              after that is not defined, and the region
                              stops *)
  trace : list event
}.

(** [bool simulationFinished = false; ioSharedData.writingFinished = true;]
    and the region is entered. *)
Definition region_init (d : IOSharedData_t) : region :=
  mkRegion false (set_writingFinished true d) P_iterate C_enter false [].

(** The interleavings of the two threads. With [useMPIIO] the region has
    one thread, and the I/O branch is not run. *)
Inductive region_step (cfg : config) : region → region → Prop :=
| compute_store r d :
    dead r = false → compute_at r = P_iterate →
    region_step cfg r
      (mkRegion (simulationFinished r) d P_iterate (io_at r) false (trace r ++ [store d]))
| compute_abort r :
    (* an exception out of iterate() with nProcs > 1 *)
    dead r = false → compute_at r = P_iterate → (1 < nProcs cfg)%Z →
    region_step cfg r
      (mkRegion (simulationFinished r) (ioSharedData r) P_iterate (io_at r) true (trace r))
| compute_finish r :
    (* iterate() returned, or threw with nProcs <= 1 *)
    dead r = false → compute_at r = P_iterate →
    region_step cfg r
      (mkRegion true (ioSharedData r) P_done (io_at r) false
                (trace r ++ [set_simulationFinished]))
| io_run r pc d evs :
    dead r = false → useMPIIO cfg = false →
    io_step cfg (simulationFinished r) (ioSharedData r) (io_at r) = Next pc d evs →
    region_step cfg r
      (mkRegion (simulationFinished r) d (compute_at r) pc false (trace r ++ evs))
| io_abort r :
    dead r = false → useMPIIO cfg = false →
    io_step cfg (simulationFinished r) (ioSharedData r) (io_at r) = AssertFailed →
    region_step cfg r
      (mkRegion (simulationFinished r) (ioSharedData r) (compute_at r) (io_at r) true (trace r))
| io_overrun r :
    dead r = false → useMPIIO cfg = false →
    io_step cfg (simulationFinished r) (ioSharedData r) (io_at r) = Overrun →
    region_step cfg r
      (mkRegion (simulationFinished r) (ioSharedData r) (compute_at r) (io_at r) true (trace r)).

(** The states the region can be in. *)
Inductive reachable (cfg : config) (d0 : IOSharedData_t) : region → Prop :=
| reach_init : reachable cfg d0 (region_init d0)
| reach_step r r' :
    reachable cfg d0 r → region_step cfg r r' → reachable cfg d0 r'.

(** The I/O thread is between reading [writingFinished == false] and
    setting the flag back. *)
Definition mid_drain (pc : io_pc) : bool :=
  match pc with
  | C_read_n | C_read_t _ | C_name _ _ | C_branch _ _ _ | C_write_parallel _ _ _
  | C_name_proc _ _ | C_write_per_process _ _ _ | C_free | C_assert | C_set => true
  | _ => false
  end.

(** The write call of the drain has been made. *)
Definition past_write (pc : io_pc) : bool :=
  match pc with C_free | C_assert | C_set => true | _ => false end.

(** The slot of the drain has been released. *)
Definition past_free (pc : io_pc) : bool :=
  match pc with C_assert | C_set => true | _ => false end.

Definition count (p : event → bool) (tr : list event) : nat :=
  length (List.filter p tr).

Definition is_set_finished (e : event) : bool :=
  match e with set_simulationFinished => true | _ => false end.
Definition is_store (e : event) : bool :=
  match e with store _ => true | _ => false end.
Definition is_drain_begin (e : event) : bool :=
  match e with drain_begin => true | _ => false end.
Definition is_drain_end (e : event) : bool :=
  match e with drain_end => true | _ => false end.

(** No store follows the terminal signal in a trace. *)
Fixpoint stores_precede_signal (tr : list event) : bool :=
  match tr with
  | [] => true
  | e :: tr =>
      if is_set_finished e then forallb (λ e, negb (is_store e)) tr
      else stores_precede_signal tr
  end.

(** A publish is pending: the last of the compute thread's stores and the
    I/O thread's resets in the trace is a store that left the flag at
    [false]. *)
Definition pending_after (acc : bool) (e : event) : bool :=
  match e with
  | store d => negb (writingFinished d)
  | drain_end => false
  | _ => acc
  end.
Definition pending (tr : list event) : bool := fold_left pending_after tr false.

(** A drain has begun, and the compute thread has not stored to the slot
    since the last one began. *)
Definition undisturbed_after (acc : bool) (e : event) : bool :=
  match e with
  | drain_begin => true
  | store _ => false
  | _ => acc
  end.
Definition undisturbed (tr : list event) : bool :=
  fold_left undisturbed_after tr false.

(** ** Schedules

    One move of the region: which thread runs, and for the compute thread
    what it does. *)
Inductive action :=
| DoStore (d : IOSharedData_t)
| DoAbort
| DoFinish
| DoIo.

Definition apply_action (cfg : config) (a : action) (r : region) : option region :=
  if dead r then None
  else
    match a, compute_at r with
    | DoStore d, P_iterate =>
        Some (mkRegion (simulationFinished r) d P_iterate (io_at r) false
                       (trace r ++ [store d]))
    | DoAbort, P_iterate =>
        if (1 <? nProcs cfg)%Z then
          Some (mkRegion (simulationFinished r) (ioSharedData r) P_iterate
                         (io_at r) true (trace r))
        else None
    | DoFinish, P_iterate =>
        Some (mkRegion true (ioSharedData r) P_done (io_at r) false
                       (trace r ++ [set_simulationFinished]))
    | DoIo, _ =>
        if useMPIIO cfg then None
        else
          match io_step cfg (simulationFinished r) (ioSharedData r) (io_at r) with
          | Next pc d evs =>
              Some (mkRegion (simulationFinished r) d (compute_at r) pc false
                             (trace r ++ evs))
          | AssertFailed | Overrun =>
              Some (mkRegion (simulationFinished r) (ioSharedData r)
                             (compute_at r) (io_at r) true (trace r))
          | Finished => None
          end
    | _, _ => None
    end.

Fixpoint schedule (cfg : config) (acts : list action) (r : region) : option region :=
  match acts with
  | [] => Some r
  | a :: acts =>
      match apply_action cfg a r with
      | Some r => schedule cfg acts r
      | None => None
      end
  end.

(** A store by the compute thread that publishes: it leaves the flag at
    [false]. *)
Definition is_ready_store (e : event) : bool :=
  match e with store d => negb (writingFinished d) | _ => false end.

(** The compute thread stores a snapshot, then the I/O thread goes from the
    loop head once through the body and back: ten statements, eleven with
    the second [sprintf]. *)
Definition round (cfg : config) (d : IOSharedData_t) : list action :=
  DoStore d :: repeat DoIo (if (nProcs cfg <=? 16)%Z then 10 else 11).

(** The snapshots written, in the order of the calls. *)
Definition written (tr : list event) : list event := List.filter is_write tr.

(** Drains begun against snapshots published: a published snapshot the
    I/O thread has not yet seen counts for one drain to come. *)
Definition delivery_inv (r : region) : Prop :=
  (count is_drain_begin (trace r) +
   (if negb (writingFinished (ioSharedData r)) && negb (mid_drain (io_at r))
    then 1 else 0) ≤ count is_ready_store (trace r))%nat.

(** The most statements the I/O thread still runs once the signal is set
    and it stands at [pc]. *)
Definition statements_left (pc : io_pc) : nat :=
  match pc with
  | C_exit => 0
  | C_head => 1
  | C_sleep | C_usleep | C_set => 2
  | C_enter | C_assert => 3
  | C_free => 4
  | C_write_parallel _ _ _ | C_write_per_process _ _ _ => 5
  | C_name_proc _ _ => 6
  | C_branch _ _ _ => 7
  | C_name _ _ => 8
  | C_read_t _ => 9
  | C_read_n => 10
  | C_test => 11
  end.

(** What holds of the region at every moment. *)
Definition region_inv (r : region) : Prop :=
  simulationFinished r
    = match compute_at r with P_done => true | P_iterate => false end ∧
  count is_set_finished (trace r) = (if simulationFinished r then 1 else 0)%nat ∧
  stores_precede_signal (trace r) = true ∧
  count is_drain_begin (trace r)
    = (count is_drain_end (trace r) + if mid_drain (io_at r) then 1 else 0)%nat ∧
  count is_write (trace r)
    = (count is_drain_end (trace r) + if past_write (io_at r) then 1 else 0)%nat ∧
  (io_at r = C_exit → simulationFinished r = true).

(** What holds of the slot at every moment. The flag is what the last
    store or reset made it. While the compute thread keeps its hands off
    the slot from the beginning of a drain on, the flag stays [false] up to
    the reset and is [true] after it, and the slot is released from
    [free()] on. *)
Definition slot_inv (r : region) : Prop :=
  writingFinished (ioSharedData r) = negb (pending (trace r)) ∧
  (undisturbed (trace r) = true →
   writingFinished (ioSharedData r) = negb (mid_drain (io_at r)) ∧
   (mid_drain (io_at r) = false ∨ past_free (io_at r) = true →
    released (ioSharedData r))).

End IO.

Arguments writingFinished {real real4 ident} _.
Arguments nBodies {real real4 ident} _.
Arguments t_current {real real4 ident} _.
Arguments Pos {real real4 ident} _.
Arguments Vel {real real4 ident} _.
Arguments IDs {real real4 ident} _.
Arguments mkIO {real real4 ident} _ _ _ _ _ _.
Arguments set_writingFinished {real real4 ident} b d.
Arguments IOSharedData_free {real real4 ident} d.
Arguments released {real real4 ident} d.
Arguments name_parallel {real} fmt_time cfg t.
Arguments name_per_process {real} fmt_time cfg t.
Arguments Polled {real real4 ident} d evs.
Arguments PollAssertFailed {real real4 ident}.
Arguments PollOverrun {real real4 ident}.
Arguments io_poll {real real4 ident} fmt_time cfg d.
Arguments io_polls {real real4 ident} fmt_time cfg n d.
Arguments io_step {real real4 ident} fmt_time cfg simulationFinished d pc.
Arguments write_dumbp_snapshot_parallel {real real4 ident} pos vel ids n file t.
Arguments write_snapshot_per_process {real real4 ident} pos vel ids n file t.
Arguments usleep {real real4 ident} microseconds.
Arguments sleep {real real4 ident} seconds.
Arguments is_write {real real4 ident} e.
Arguments count {real real4 ident} p tr.
Arguments simulationFinished {real real4 ident} _.
Arguments ioSharedData {real real4 ident} _.
Arguments compute_at {real real4 ident} _.
Arguments io_at {real real4 ident} _.
Arguments dead {real real4 ident} _.
Arguments trace {real real4 ident} _.
Arguments region_init {real real4 ident} d.
Arguments region_step {real real4 ident} fmt_time cfg _ _.
Arguments reachable {real real4 ident} fmt_time cfg d0 _.
Arguments mid_drain {real} pc.
Arguments past_write {real} pc.
Arguments past_free {real} pc.
Arguments statements_left {real} pc.
Arguments is_set_finished {real real4 ident} e.
Arguments is_store {real real4 ident} e.
Arguments is_drain_begin {real real4 ident} e.
Arguments is_drain_end {real real4 ident} e.
Arguments stores_precede_signal {real real4 ident} tr.
Arguments pending_after {real real4 ident} acc e.
Arguments pending {real real4 ident} tr.
Arguments undisturbed_after {real real4 ident} acc e.
Arguments undisturbed {real real4 ident} tr.
Arguments C_enter {real}.
Arguments C_exit {real}.
Arguments C_head {real}.
Arguments C_sleep {real}.
Arguments C_test {real}.
Arguments C_read_n {real}.
Arguments C_read_t {real} n.
Arguments C_free {real}.
Arguments C_assert {real}.
Arguments C_set {real}.
Arguments C_usleep {real}.
Arguments store {real real4 ident} d.
Arguments set_simulationFinished {real real4 ident}.
Arguments drain_begin {real real4 ident}.
Arguments drain_end {real real4 ident}.
Arguments Next {real real4 ident} pc d evs.
Arguments AssertFailed {real real4 ident}.
Arguments Overrun {real real4 ident}.
Arguments Finished {real real4 ident}.
Arguments mkRegion {real real4 ident} _ _ _ _ _ _.
Arguments DoStore {real real4 ident} d.
Arguments DoAbort {real real4 ident}.
Arguments DoFinish {real real4 ident}.
Arguments DoIo {real real4 ident}.
Arguments apply_action {real real4 ident} fmt_time cfg a r.
Arguments schedule {real real4 ident} fmt_time cfg acts r.
Arguments region_inv {real real4 ident} r.
Arguments slot_inv {real real4 ident} r.
Arguments is_ready_store {real real4 ident} e.
Arguments round {real real4 ident} cfg d.
Arguments written {real real4 ident} tr.
Arguments delivery_inv {real real4 ident} r.

(** ** Concrete runs

    Time stamps and elements are integers. *)

Fixpoint zeros (n : nat) : string :=
  match n with O => EmptyString | S n => String "0"%char (zeros n) end.

(** ["%010.4f"] of a time that is a whole number: the sign, zeros up to a
    width of ten, the digits and four decimals. *)
Definition fmt_time_Z (t : Z) : string :=
  let digits := (pretty (Z.abs t) ++ ".0000")%string in
  let sign := if (t <? 0)%Z then "-"%string else EmptyString in
  (sign ++ zeros (10 - String.length sign - String.length digits) ++ digits)%string.

(** One process, asynchronous writing, the default [snapshotFile]. *)
Definition one_process : config :=
  mkConfig 1 0 "snapshot_" false.

(** Process 3 of 32. *)
Definition many_processes : config :=
  mkConfig 32 3 "snapshot_" false.

(** [--snapname] with 250 zeros. *)
Definition long_name_process : config :=
  mkConfig 1 0 (zeros 250) false.

(** An empty slot, and a snapshot of two bodies at time 7. *)
Definition empty_slot : IOSharedData_t Z Z Z :=
  mkIO true 0 0%Z None None None.
Definition snapshot7 : IOSharedData_t Z Z Z :=
  mkIO false 2 7%Z (Some [1; 2]%Z) (Some [3; 4]%Z) (Some [5; 6]%Z).

(** A second snapshot, of one body at time 9. *)
Definition snapshot9 : IOSharedData_t Z Z Z :=
  mkIO false 1 9%Z (Some [7]%Z) (Some [8]%Z) (Some [9]%Z).

(** The compute thread publishes one snapshot, the I/O thread wakes up and
    drains it, the compute thread finishes, the I/O thread leaves. *)
Definition publish_drain_finish : list (action Z Z Z) :=
  DoStore snapshot7 :: repeat DoIo 12 ++ [DoFinish; DoIo].

(** The region after a schedule from the start. *)
Definition region_at (acts : list (action Z Z Z)) : region Z Z Z :=
  match schedule fmt_time_Z one_process acts (region_init empty_slot) with
  | Some r => r
  | None => region_init empty_slot
  end.

Definition region_end : region Z Z Z := region_at publish_drain_finish.

(** The compute thread finishes while the I/O thread is in the middle of a
    drain. *)
Definition region_signalled : region Z Z Z :=
  region_at (DoStore snapshot7 :: repeat DoIo 5 ++ [DoFinish]).

(** The I/O thread has drained a snapshot and stands at the assignment
    [writingFinished = true]. *)
Definition region_at_set : region Z Z Z :=
  region_at (DoStore snapshot7 :: repeat DoIo 11).

(** The I/O thread has woken up and stands at the loop head. *)
Definition region_at_head : region Z Z Z := region_at [DoIo; DoIo].

End Handoff.

(** * The choice of initial conditions in [main.cpp]

    Three places of [main] between the command line and the first use of
    the bodies: the two usage checks, the galaxy model built before MPI is
    initialised, and the chain that picks the source of the bodies. Each is
    a function of the variables [main] holds when it gets there; what lies
    between them in [main] (the set-up of MPI, of the tree and of the log)
    assigns none of these variables. *)

Module Startup.

(** The variables of [main] the decisions depend on, as they stand after the
    command line has been read; an [int] is what [atoi] gave. *)
Record options := mkOptions {
  fileName : string;
  bonsaiFileName : string;
  nPlummer : Z;
  nSphere : Z;
  nCube : Z;
  nMilkyWay : Z;
  taskVar : string;
  restartSim : bool;
  diskmode : bool;
  useMPIIO : bool
}.

(** The values [main] gives them before it reads the command line (with
    neither [TITAN_G] nor [SLURM_G] defined). *)
Definition default_options : options :=
  mkOptions EmptyString EmptyString (-1) (-1) (-1) (-1) EmptyString
            false false false.

(** [std::string::empty]. *)
Definition string_empty (s : string) : bool :=
  match s with EmptyString => true | _ => false end.

(** The two checks after which [main] prints the usage and leaves with
    [exit(0)]. *)
Definition usage_exit (o : options) : bool :=
  (string_empty (bonsaiFileName o) && string_empty (fileName o)
   && (nPlummer o =? -1)%Z && (nSphere o =? -1)%Z
   && (nMilkyWay o =? -1)%Z && (nCube o =? -1)%Z)
  || (negb (string_empty (bonsaiFileName o)) && negb (useMPIIO o)).

(** What has happened to the galaxy model before [MPI_Init]. *)
Inductive pre_mpi :=
| NotGenerated
| GeneratedBeforeInit (argVal : string)
    (* generateGalacticsModel(atoi(argVal), 32768*7, ..., false, ...) *)
| ArgValAssert                       (* assert(argVal != NULL) *)
| NoGalacticsAssert.                 (* assert(0), built without GALACTICS *)

(** "init galaxy before MPI initialization": [taskVar] as it is left, and
    what was done. *)
Definition init_galaxy (GALACTICS : bool) (getenv : string → option string)
    (o : options) : string * pre_mpi :=
  let argVal := getenv (taskVar o) in
  let taskVar := match argVal with None => EmptyString | Some _ => taskVar o end in
  if (0 <=? nMilkyWay o)%Z && negb (string_empty taskVar) then
    match argVal with
    | None => (taskVar, ArgValAssert)
    | Some v =>
        if GALACTICS then (taskVar, GeneratedBeforeInit v)
        else (taskVar, NoGalacticsAssert)
    end
  else (taskVar, NotGenerated).

(** Where the bodies come from. *)
Inductive ic_source :=
| ReadBonsaiFile              (* lReadBonsaiFile *)
| RestartTipsy                (* read_tipsy_file_parallel(..., true) *)
| ReadTipsy                   (* process 0: read_tipsy_file_parallel(..., false) *)
| ICRecv                      (* the others: tree->ICRecv(0, ...) *)
| GenerateGalactics           (* generateGalacticsModel(procId, nProcs, ...) *)
| ScaleGalactics              (* "Scale mass of previously generated model" *)
| Plummer (n : Z)
| Sphere (n : Z)
| Cube (n : Z)
| ShuffledDisk
| NoSourceAssert.             (* assert(0) *)

(** The chain of [if]s after the tree has been set up. *)
Definition select_initial_conditions (GALACTICS : bool) (procId : Z)
    (taskVar : string) (o : options) : ic_source :=
  if negb (string_empty (bonsaiFileName o)) && useMPIIO o then ReadBonsaiFile
  else if restartSim o then RestartTipsy
  else if (nPlummer o =? -1)%Z && (nSphere o =? -1)%Z && (nCube o =? -1)%Z
          && negb (diskmode o) && (nMilkyWay o =? -1)%Z then
    if (procId =? 0)%Z then ReadTipsy else ICRecv
  else if (0 <=? nMilkyWay o)%Z then
    if GALACTICS then
      if string_empty taskVar then GenerateGalactics else ScaleGalactics
    else NoSourceAssert
  else if (0 <=? nPlummer o)%Z then Plummer (nPlummer o)
  else if (0 <=? nSphere o)%Z then Sphere (nSphere o)
  else if (0 <=? nCube o)%Z then Cube (nCube o)
  else if diskmode o then ShuffledDisk
  else NoSourceAssert.

(** ** Concrete command lines *)

(** No variable of the environment is set. *)
Definition no_env : string → option string := λ _, None.

(** [SLURM_PROCID=3]. *)
Definition slurm_env : string → option string :=
  λ s, if String.eqb s "SLURM_PROCID" then Some "3"%string else None.

(** [--infile model.tipsy]. *)
Definition opts_infile : options :=
  mkOptions "model.tipsy" EmptyString (-1) (-1) (-1) (-1) EmptyString
            false false false.

(** [--milkyway 1000 --taskvar SLURM_PROCID]. *)
Definition opts_milkyway : options :=
  mkOptions EmptyString EmptyString (-1) (-1) (-1) 1000 "SLURM_PROCID"
            false false false.

(** [--plummer -5]. *)
Definition opts_plummer_negative : options :=
  mkOptions EmptyString EmptyString (-5) (-1) (-1) (-1) EmptyString
            false false false.

End Startup.

(** * Properties of [GpuArray] *)

Import GpuArr.

Section GpuArrayFacts.

Context {T : Type}.
Variable sizeofT : N.

Implicit Types (g : GpuArray) (w : World T).

(** ** Running a method *)

Lemma bind_Ret {A B} (m : M T A) (k : A → M T B) w b w' :
  (m ≫= k) w = Ret b w' ↔ ∃ a w1, m w = Ret a w1 ∧ k a w1 = Ret b w'.
Proof.
  unfold mbind, M_bind. split.
  - destruct (m w) as [a w1| |]; [eauto | discriminate | discriminate].
  - intros (a & w1 & -> & Hk). exact Hk.
Qed.

Lemma bind_Ret_l {A B} (m : M T A) (k : A → M T B) w a w1 :
  m w = Ret a w1 → (m ≫= k) w = k a w1.
Proof. unfold mbind, M_bind. intros ->. reflexivity. Qed.

Lemma mret_Ret {A} (a b : A) w w' :
  (mret a : M T A) w = Ret b w' ↔ a = b ∧ w = w'.
Proof.
  unfold mret, M_ret. split; [intros [= -> ->] | intros [-> ->]]; done.
Qed.

Lemma cutilSafeCall_Ret {A} (call : World T → api T A) w a w' :
  cutilSafeCall call w = Ret a w' ↔ call w = ApiOk a w'.
Proof.
  unfold cutilSafeCall. destruct (call w); split; intros [=]; subst; done.
Qed.

(** Take a returning run apart, statement by statement. *)
Ltac run_inv :=
  repeat match goal with
  | H : (_ ≫= _) _ = Ret _ _ |- _ =>
      apply bind_Ret in H; destruct H as (? & ? & ? & H)
  | H : mret _ _ = Ret _ _ |- _ =>
      apply mret_Ret in H; destruct H as [? ?]; subst
  | H : cutilSafeCall _ _ = Ret _ _ |- _ => apply cutilSafeCall_Ret in H
  | H : (if ?c then _ else _) _ = Ret _ _ |- _ => destruct c eqn:?
  end.

(** Reduce projections of records that are given by their constructor, and
    nothing else: the finite maps stay folded. *)
Tactic Notation "wcbn" :=
  cbn [m_size m_dptr0 m_dptr1 m_vbo0 m_vbo1 m_hptr m_useVBO m_doubleBuffer
       m_currentRead m_currentWrite
       W_host W_dev W_gl W_host_avail W_dev_avail W_curDevice W_nDevices
       devID renderDevID W_junk W_discard W_log
       with_host with_dev with_gl with_host_avail with_dev_avail
       with_curDevice logged
       blk_bytes blk_data gl_bytes gl_data gl_elementArray gl_registered
       gl_writeDiscard gl_mapped
       fmap option_fmap option_map
       N.eqb Pos.eqb negb andb app].
Tactic Notation "wcbn" "in" hyp(H) :=
  cbn [m_size m_dptr0 m_dptr1 m_vbo0 m_vbo1 m_hptr m_useVBO m_doubleBuffer
       m_currentRead m_currentWrite
       W_host W_dev W_gl W_host_avail W_dev_avail W_curDevice W_nDevices
       devID renderDevID W_junk W_discard W_log
       with_host with_dev with_gl with_host_avail with_dev_avail
       with_curDevice logged
       blk_bytes blk_data gl_bytes gl_data gl_elementArray gl_registered
       gl_writeDiscard gl_mapped
       fmap option_fmap option_map
       N.eqb Pos.eqb negb andb app] in H.
Tactic Notation "wcbn" "in" "*" :=
  cbn [m_size m_dptr0 m_dptr1 m_vbo0 m_vbo1 m_hptr m_useVBO m_doubleBuffer
       m_currentRead m_currentWrite
       W_host W_dev W_gl W_host_avail W_dev_avail W_curDevice W_nDevices
       devID renderDevID W_junk W_discard W_log
       with_host with_dev with_gl with_host_avail with_dev_avail
       with_curDevice logged
       blk_bytes blk_data gl_bytes gl_data gl_elementArray gl_registered
       gl_writeDiscard gl_mapped
       fmap option_fmap option_map
       N.eqb Pos.eqb negb andb app] in *.

(** Compute the fields of an object built with the setters. *)
Ltac simpl_obj :=
  cbn [m_size m_dptr0 m_dptr1 m_vbo0 m_vbo1 m_hptr m_useVBO m_doubleBuffer
       m_currentRead m_currentWrite m_dptr m_vbo
       set_size set_dptr set_vbo set_hptr set_useVBO set_doubleBuffer
       set_currentRead set_currentWrite GpuArray_ctor
       W_host W_dev W_gl W_host_avail W_dev_avail W_curDevice W_nDevices
       devID renderDevID W_junk W_discard W_log
       with_host with_dev with_gl with_host_avail with_dev_avail
       with_curDevice logged
       blk_bytes blk_data gl_bytes gl_data gl_elementArray gl_registered
       gl_writeDiscard gl_mapped
       fmap option_fmap option_map negb andb app N.eqb Pos.eqb] in *.

(** ** What a call leaves of the role indices *)

Lemma same_roles_inv g g' : same_roles g g' → role_inv g → role_inv g'.
Proof. unfold same_roles, role_inv. intros (-> & -> & ->). done. Qed.

Lemma same_roles_zero g g' :
  same_roles g g' →
  m_currentRead g = 0 ∧ m_currentWrite g = 0 →
  m_currentRead g' = 0 ∧ m_currentWrite g' = 0.
Proof. unfold same_roles. intros (_ & -> & ->). done. Qed.

Lemma map_roles g w g' w' : map g w = Ret g' w' → same_roles g g'.
Proof. unfold map. intros H. run_inv; done. Qed.

Lemma unmap_roles g w g' w' : unmap g w = Ret g' w' → same_roles g g'.
Proof. unfold unmap. intros H. run_inv; done. Qed.

Lemma free_roles g w g' w' : free g w = Ret g' w' → same_roles g g'.
Proof.
  unfold free, freeHost, m_vbo_as_condition, freeVbo. intros H. run_inv; done.
Qed.

Lemma same_roles_trans g1 g2 g3 :
  same_roles g1 g2 → same_roles g2 g3 → same_roles g1 g3.
Proof. unfold same_roles. intros (-> & -> & ->) (-> & -> & ->). done. Qed.

Lemma copy_roles dir start count g w g' w' :
  copy sizeofT dir start count g w = Ret g' w' → same_roles g g'.
Proof.
  unfold copy. intros H. run_inv;
  (eapply same_roles_trans; [eapply map_roles | eapply unmap_roles]; eassumption).
Qed.

Lemma step_roles o g w g' w' :
  is_alloc o = false →
  step sizeofT o g w = Ret g' w' →
  same_roles g g' ∨ g' = swap g.
Proof.
  destruct o; simpl; intros Ha H.
  - discriminate Ha.
  - left. eapply free_roles; eassumption.
  - right. apply mret_Ret in H as [<- _]. reflexivity.
  - left. eapply map_roles; eassumption.
  - left. eapply unmap_roles; eassumption.
  - left. eapply copy_roles; eassumption.
  - left. apply mret_Ret in H as [-> _]. done.
Qed.

Lemma swap_role_inv g : role_inv g → role_inv (swap g).
Proof.
  unfold role_inv, swap. simpl. destruct (m_doubleBuffer g); tauto.
Qed.

Lemma step_role_inv o g w g' w' :
  is_alloc o = false → role_inv g →
  step sizeofT o g w = Ret g' w' → role_inv g'.
Proof.
  intros Ha Hinv H. destruct (step_roles _ _ _ _ _ Ha H) as [Hs | ->].
  - eapply same_roles_inv; eassumption.
  - by apply swap_role_inv.
Qed.

Lemma step_roles_zero o g w g' w' :
  is_alloc o = false → m_currentRead g = 0 ∧ m_currentWrite g = 0 →
  step sizeofT o g w = Ret g' w' →
  m_currentRead g' = 0 ∧ m_currentWrite g' = 0.
Proof.
  intros Ha Hz H. destruct (step_roles _ _ _ _ _ Ha H) as [Hs | ->].
  - eapply same_roles_zero; eassumption.
  - simpl. tauto.
Qed.

Lemma alloc_fields size vbo db ea g w g' w' :
  alloc sizeofT size vbo db ea g w = Ret g' w' →
  m_size g' = size ∧ m_useVBO g' = vbo ∧ m_doubleBuffer g' = db ∧
  m_currentRead g' = m_currentRead g ∧
  m_currentWrite g' = (if db then 1 else m_currentWrite g).
Proof.
  unfold alloc, allocHost, allocVbo, allocDevice. simpl. intros H.
  destruct db; run_inv; done.
Qed.

Lemma alloc_role_inv size vbo db ea g w g' w' :
  m_currentRead g = 0 ∧ m_currentWrite g = 0 →
  alloc sizeofT size vbo db ea g w = Ret g' w' → role_inv g'.
Proof.
  intros [Hr Hw] H. apply alloc_fields in H as (_ & _ & Hdb & Hr' & Hw').
  unfold role_inv. rewrite Hdb, Hr', Hw', Hr. destruct db; auto.
Qed.

Lemma run_no_alloc ops : ∀ g w g' w',
  allocs ops = 0%nat → role_inv g →
  run sizeofT ops g w = Ret g' w' → role_inv g'.
Proof.
  induction ops as [|o ops IH]; simpl; intros g w g' w' Hn Hinv H.
  - apply mret_Ret in H as [<- _]. done.
  - unfold allocs in Hn. simpl in Hn.
    destruct (is_alloc o) eqn:Ho; [discriminate|].
    apply bind_Ret in H as (g1 & w1 & H1 & H).
    eapply IH; [exact Hn | | exact H].
    eapply step_role_inv; eassumption.
Qed.

Lemma run_one_alloc ops : ∀ g w g' w',
  (allocs ops ≤ 1)%nat →
  m_currentRead g = 0 ∧ m_currentWrite g = 0 →
  run sizeofT ops g w = Ret g' w' →
  if existsb is_alloc ops then role_inv g'
  else m_currentRead g' = 0 ∧ m_currentWrite g' = 0.
Proof.
  induction ops as [|o ops IH]; simpl; intros g w g' w' Hn Hz H.
  - apply mret_Ret in H as [<- _]. done.
  - unfold allocs in Hn. simpl in Hn.
    apply bind_Ret in H as (g1 & w1 & H1 & H).
    destruct (is_alloc o) eqn:Ho; simpl in *.
    + destruct o; try discriminate. simpl in H1.
      eapply run_no_alloc; [| | exact H].
      * unfold allocs. lia.
      * eapply alloc_role_inv; eassumption.
    + eapply IH; [exact Hn | | exact H].
      eapply step_roles_zero; eassumption.
Qed.

(** C2, as the code has it. An object is allocated once: in every sequence
    of calls on a freshly constructed object that holds at most one [alloc],
    the role indices are both 0 until the [alloc], and from the [alloc] on
    the role-index invariant holds (both 0 if single-buffered, 0 and 1 in
    one of the two orders if double-buffered). *)
Theorem role_inv_allocated_once (i1 i2 : bool) (ops : list (op T)) w g w' :
  (allocs ops ≤ 1)%nat →
  run sizeofT ops (GpuArray_ctor i1 i2) w = Ret g w' →
  if existsb is_alloc ops then role_inv g
  else m_currentRead g = 0 ∧ m_currentWrite g = 0.
Proof.
  intros Hn H. eapply run_one_alloc; [exact Hn | | exact H]. done.
Qed.

(** C6, as the code has it. [swap] has no way to reject a call: it always
    returns, having exchanged the two indices. On an object that satisfies
    the role invariant the result satisfies it too; if the object is
    double-buffered the read index has changed, and if it is not the call
    has changed nothing. *)
Theorem swap_never_rejects g w :
  role_inv g →
  step sizeofT OpSwap g w = Ret (swap g) w ∧
  m_currentRead (swap g) = m_currentWrite g ∧
  m_currentWrite (swap g) = m_currentRead g ∧
  role_inv (swap g) ∧
  if m_doubleBuffer g then m_currentRead (swap g) ≠ m_currentRead g
  else swap g = g.
Proof.
  intros Hinv. split; [reflexivity|]. split; [reflexivity|].
  split; [reflexivity|]. split; [by apply swap_role_inv|].
  unfold role_inv in Hinv. destruct g as [? ? ? ? ? ? ? db r wr]. simpl in *.
  destruct db.
  - destruct Hinv as [[-> ->] | [-> ->]]; done.
  - destruct Hinv as [-> ->]. reflexivity.
Qed.

(** C10. [memset] returns at once and hands back the object and the process
    state it was given: host array, both device slots, buffer handles,
    indices and flags are what they were, whatever the arguments. *)
Theorem memset_is_noop (value : T) (start count : N) g w :
  memset value start count g w = Ret g w.
Proof. reflexivity. Qed.

(** ** The active device *)

Lemma same_devices_refl w : same_devices w w.
Proof. done. Qed.

Lemma same_devices_trans w1 w2 w3 :
  same_devices w1 w2 → same_devices w2 w3 → same_devices w1 w3.
Proof.
  unfold same_devices. intros (-> & -> & -> & ->) (-> & -> & -> & ->). done.
Qed.

Lemma cudaGLMapBufferObject_devices v w a w' :
  cudaGLMapBufferObject v w = ApiOk a w' → same_devices w w'.
Proof.
  unfold cudaGLMapBufferObject. intros H.
  repeat case_match; simplify_eq; done.
Qed.

Lemma cudaGLUnmapBufferObject_devices v w u w' :
  cudaGLUnmapBufferObject v w = ApiOk u w' → same_devices w w'.
Proof.
  unfold cudaGLUnmapBufferObject. intros H.
  repeat case_match; simplify_eq; done.
Qed.

Lemma cudaMemcpy_devices kind dst doff src soff nbytes w u w' :
  cudaMemcpy sizeofT kind dst doff src soff nbytes w = ApiOk u w' →
  same_devices w w'.
Proof.
  unfold cudaMemcpy. intros H.
  repeat case_match; simplify_eq; done.
Qed.

Lemma map_devices g w g' w' : map g w = Ret g' w' → same_devices w w'.
Proof.
  unfold map. intros H. run_inv;
    repeat match goal with
    | H : cudaGLMapBufferObject _ _ = ApiOk _ _ |- _ =>
        apply cudaGLMapBufferObject_devices in H
    end;
    eauto using same_devices_refl, same_devices_trans.
Qed.

Lemma unmap_devices g w g' w' : unmap g w = Ret g' w' → same_devices w w'.
Proof.
  unfold unmap. intros H. run_inv;
    repeat match goal with
    | H : cudaGLUnmapBufferObject _ _ = ApiOk _ _ |- _ =>
        apply cudaGLUnmapBufferObject_devices in H
    end;
    eauto using same_devices_refl, same_devices_trans.
Qed.

Lemma global_Ret (f : World T → Z) w z w' :
  global f w = Ret z w' ↔ z = f w ∧ w' = w.
Proof. unfold global. split; [intros [= <- <-] | intros [-> ->]]; done. Qed.

Lemma set_device_Ret d w u w' :
  unchecked (cudaSetDevice d) w = Ret u w' →
  W_curDevice w' = (if valid_device w d then d else W_curDevice w) ∧
  W_nDevices w' = W_nDevices w ∧ devID w' = devID w ∧
  renderDevID w' = renderDevID w.
Proof.
  unfold unchecked, cudaSetDevice, valid_device.
  destruct ((0 <=? d)%Z && (d <? W_nDevices w)%Z); intros [= <- <-]; done.
Qed.

(** C5, as the code has it. [copy] keeps no record of the device that was
    active when it was entered. It calls [cudaSetDevice(renderDevID)] before
    the transfer and [cudaSetDevice(devID)] after it, and looks at neither
    result. Whenever [copy] returns, the transfer ([map], [cudaMemcpy],
    [unmap]) has run from the state the first call left, in which
    [renderDevID] is the active device if it names a device and the device
    of entry otherwise, and nothing in between has changed the active
    device. After [copy] the active device is [devID] if that names a
    device, and the device of the transfer otherwise. So when [devID] names
    a device, the device at entry is the device after the call exactly when
    it was [devID]. *)
Theorem copy_leaves_devID_active dir start count g w g' w' :
  copy sizeofT dir start count g w = Ret g' w' →
  let during :=
    if valid_device w (renderDevID w) then renderDevID w else W_curDevice w in
  let bytes :=
    to_size_t ((if count =? 0 then to_uint (m_size g) else count) * sizeofT) in
  (∃ w1 g1 w2 w3 w4,
     unchecked (cudaSetDevice (renderDevID w)) w = Ret tt w1 ∧
     map g w1 = Ret g1 w2 ∧
     match dir with
     | HOST_TO_DEVICE =>
         cutilSafeCall (cudaMemcpy sizeofT HOST_TO_DEVICE
                          (m_dptr g1 (m_currentRead g1)) start (m_hptr g1) start
                          bytes) w2
     | DEVICE_TO_HOST =>
         cutilSafeCall (cudaMemcpy sizeofT DEVICE_TO_HOST
                          (m_hptr g1) start (m_dptr g1 (m_currentRead g1)) start
                          bytes) w2
     end = Ret tt w3 ∧
     unmap g1 w3 = Ret g' w4 ∧
     unchecked (cudaSetDevice (devID w)) w4 = Ret tt w' ∧
     W_curDevice w1 = during ∧ W_curDevice w2 = during ∧
     W_curDevice w3 = during ∧ W_curDevice w4 = during) ∧
  W_curDevice w' = (if valid_device w (devID w) then devID w else during) ∧
  (valid_device w (devID w) = true →
   W_curDevice w' = devID w ∧
   (W_curDevice w' = W_curDevice w ↔ W_curDevice w = devID w)).
Proof.
  intros H during bytes. unfold copy in H.
  apply bind_Ret in H as (d & w0 & Hd & H). apply global_Ret in Hd as [-> ->].
  apply bind_Ret in H as ([] & w1 & Hs1 & H).
  pose proof (set_device_Ret _ _ _ _ Hs1) as (Hc1 & Hn1 & Hd1 & _).
  apply bind_Ret in H as (g1 & w2 & Hm & H).
  pose proof (map_devices _ _ _ _ Hm) as (Hc2 & Hn2 & Hd2 & _).
  apply bind_Ret in H as ([] & w3 & Hc & H).
  assert (same_devices w2 w3) as (Hc3 & Hn3 & Hd3 & _).
  { destruct dir; apply cutilSafeCall_Ret in Hc;
      eapply cudaMemcpy_devices; eassumption. }
  apply bind_Ret in H as (g2 & w4 & Hu & H).
  pose proof (unmap_devices _ _ _ _ Hu) as (Hc4 & Hn4 & Hd4 & _).
  apply bind_Ret in H as (d' & w5 & Hd' & H).
  apply global_Ret in Hd' as [-> ->].
  apply bind_Ret in H as ([] & w6 & Hs2 & H).
  apply mret_Ret in H as [<- <-].
  pose proof (set_device_Ret _ _ _ _ Hs2) as (Hc6 & _).
  assert (devID w4 = devID w) as Hdev by congruence.
  assert (valid_device w4 (devID w4) = valid_device w (devID w)) as Hv.
  { unfold valid_device. rewrite Hdev. congruence. }
  assert (W_curDevice w4 = during) as Hduring by (unfold during; congruence).
  assert (W_curDevice w6
          = (if valid_device w (devID w) then devID w else during)) as Hafter.
  { rewrite Hc6, Hv, Hdev, Hduring. reflexivity. }
  split_and!.
  - exists w1, g1, w2, w3, w4. rewrite <- Hdev.
    split_and!;
      [exact Hs1 | exact Hm | destruct dir; exact Hc | exact Hu | exact Hs2 | ..];
      unfold during; congruence.
  - exact Hafter.
  - intros Hvalid. rewrite Hvalid in Hafter. rewrite Hafter.
    split; [reflexivity|]. split; intros; congruence.
Qed.

(** ** Allocated objects *)

Lemma fresh_name_nonzero {V} (m : gmap N V) : fresh_name m ≠ 0.
Proof.
  unfold fresh_name. intros Heq.
  pose proof (is_fresh ({[0]} ∪ dom m)) as Hf. rewrite Heq in Hf.
  apply Hf. set_solver.
Qed.

Lemma fresh_name_None {V} (m : gmap N V) : m !! fresh_name m = None.
Proof.
  unfold fresh_name. apply not_elem_of_dom.
  pose proof (is_fresh ({[0]} ∪ dom m)) as Hf. set_solver.
Qed.

Lemma to_size_t_small n : n < size_max → to_size_t n = n.
Proof. unfold to_size_t. apply N.mod_small. Qed.

Lemma new_array_Ret n w a w' :
  new_array sizeofT n w = Ret a w' →
  n * sizeofT < size_max ∧ a = fresh_name (W_host w) ∧
  w' = logged (Acquire (HostArray a))
         (with_host_avail (W_host_avail w - n * sizeofT)
           (with_host <[a := Block (n * sizeofT) (W_junk w)]> w)).
Proof.
  unfold new_array. intros H.
  destruct (size_max <=? n * sizeofT) eqn:Hle; [discriminate|].
  destruct (W_host_avail w <? n * sizeofT); [discriminate|].
  simpl in H. injection H as <- <-. apply N.leb_gt in Hle. done.
Qed.

Lemma cudaMalloc_Ok bytes w a w' :
  cudaMalloc bytes w = ApiOk a w' →
  a = fresh_name (W_dev w) ∧
  w' = logged (Acquire (DeviceMem a))
         (with_dev_avail (W_dev_avail w - bytes)
           (with_dev <[a := Block bytes (W_junk w)]> w)).
Proof.
  unfold cudaMalloc. destruct (W_dev_avail w <? bytes); [discriminate|].
  intros [= <- <-]. done.
Qed.

Lemma createVbo_Ret size ea w v w' :
  createVbo size ea w = Ret v w' →
  v = fresh_name (W_gl w) ∧
  W_host w' = W_host w ∧ W_dev w' = W_dev w ∧
  W_gl w' = <[v := GlBuf size (W_junk w) ea true true None]> (W_gl w) ∧
  W_log w' = W_log w ++ [Acquire (GlBuffer v); Acquire (GlRegistration v)].
Proof.
  unfold createVbo. intros H.
  apply bind_Ret in H as (v0 & w1 & Hg & H).
  unfold glGenBuffers in Hg. injection Hg as <- <-.
  apply bind_Ret in H as (u1 & w2 & Hb & H).
  unfold glBufferData in Hb. wcbn in Hb. rewrite lookup_insert_eq in Hb.
  injection Hb as <- <-.
  apply bind_Ret in H as (u2 & w3 & Hr & H). apply cutilSafeCall_Ret in Hr.
  unfold cudaGLRegisterBufferObject in Hr. wcbn in Hr.
  rewrite lookup_insert_eq in Hr. wcbn in Hr. injection Hr as <- <-.
  apply bind_Ret in H as (u3 & w4 & Hf & H). apply cutilSafeCall_Ret in Hf.
  unfold cudaGLSetBufferObjectMapFlags in Hf. wcbn in Hf.
  rewrite lookup_insert_eq in Hf. wcbn in Hf. injection Hf as <- <-.
  apply mret_Ret in H as [<- <-]. wcbn.
  rewrite !insert_insert_eq, <- app_assoc. done.
Qed.

Lemma alloc_allocated i1 i2 size vbo db ea w g w' :
  alloc sizeofT size vbo db ea (GpuArray_ctor i1 i2) w = Ret g w' →
  allocated sizeofT g w' ∧ m_size g = size ∧ m_useVBO g = vbo ∧ m_doubleBuffer g = db.
Proof.
  intros H. pose proof (alloc_fields _ _ _ _ _ _ _ _ H) as (Hs & Hv & Hd & Hr & Hw).
  assert (role_inv g) as Hinv by (eapply alloc_role_inv; [|exact H]; done).
  split; [|done]. split; [exact Hinv|]. clear Hinv Hs Hv Hd Hr Hw.
  unfold alloc, allocHost in H.
  apply bind_Ret in H as (g1 & w1 & Hh & H).
  apply bind_Ret in Hh as (a & w0 & Hn & Hh).
  apply mret_Ret in Hh as [<- <-].
  apply new_array_Ret in Hn as (Hlt & Ha & ->).
  pose proof (fresh_name_nonzero (W_host w)) as Ha0. rewrite <- Ha in Ha0.
  clear Ha.
  destruct vbo, db; unfold allocVbo, allocDevice in H; simpl_obj;
    rewrite to_size_t_small in H by exact Hlt.
  - apply bind_Ret in H as (v0 & w2 & Hc0 & H).
    apply createVbo_Ret in Hc0 as (Hv0 & Hh0 & Hd0 & Hg0 & _).
    apply bind_Ret in H as (v1 & w3 & Hc1 & H).
    apply createVbo_Ret in Hc1 as (Hv1 & Hh1 & Hd1 & Hg1 & _).
    apply mret_Ret in H as [<- <-].
    assert (v0 ≠ 0) as Hv00 by (rewrite Hv0; apply fresh_name_nonzero).
    assert (v1 ≠ 0) as Hv10 by (rewrite Hv1; apply fresh_name_nonzero).
    assert (v0 ≠ v1) as Hne.
    { intros ->. pose proof (fresh_name_None (W_gl w2)) as Hf.
      rewrite <- Hv1, Hg0, lookup_insert_eq in Hf. discriminate. }
    unfold allocated, host_ok, vbo_ok. simpl_obj.
    rewrite Hh1, Hh0, Hg1, Hg0.
    rewrite !lookup_insert_eq.
    rewrite (lookup_insert_ne _ v1 v0) by congruence.
    rewrite lookup_insert_eq.
    split_and!; eauto 12.
  - apply bind_Ret in H as (v0 & w2 & Hc0 & H).
    apply createVbo_Ret in Hc0 as (Hv0 & Hh0 & Hd0 & Hg0 & _).
    apply mret_Ret in H as [<- <-].
    assert (v0 ≠ 0) as Hv00 by (rewrite Hv0; apply fresh_name_nonzero).
    unfold allocated, host_ok, vbo_ok. simpl_obj.
    rewrite Hh0, Hg0. rewrite !lookup_insert_eq.
    split_and!; eauto 12.
  - apply bind_Ret in H as (p0 & w2 & Hm0 & H).
    apply cutilSafeCall_Ret, cudaMalloc_Ok in Hm0 as (Hp0 & ->).
    apply bind_Ret in H as (p1 & w3 & Hm1 & H).
    apply cutilSafeCall_Ret, cudaMalloc_Ok in Hm1 as (Hp1 & ->).
    apply mret_Ret in H as [<- <-]. simpl_obj.
    assert (p0 ≠ 0) as Hp00 by (rewrite Hp0; apply fresh_name_nonzero).
    assert (p1 ≠ 0) as Hp10 by (rewrite Hp1; apply fresh_name_nonzero).
    assert (p0 ≠ p1) as Hne.
    { intros ->.
      pose proof (fresh_name_None
        (<[p1:=Block (size * sizeofT) (W_junk w)]> (W_dev w))) as Hf.
      rewrite <- Hp1, lookup_insert_eq in Hf. discriminate. }
    unfold allocated, host_ok, dev_ok. simpl_obj.
    rewrite !lookup_insert_eq.
    rewrite (lookup_insert_ne _ p1 p0) by congruence.
    rewrite lookup_insert_eq.
    split_and!; eauto 12.
  - apply bind_Ret in H as (p0 & w2 & Hm0 & H).
    apply cutilSafeCall_Ret, cudaMalloc_Ok in Hm0 as (Hp0 & ->).
    apply mret_Ret in H as [<- <-]. simpl_obj.
    assert (p0 ≠ 0) as Hp00 by (rewrite Hp0; apply fresh_name_nonzero).
    unfold allocated, host_ok, dev_ok. simpl_obj.
    rewrite !lookup_insert_eq.
    split_and!; eauto 12.
Qed.

(** ** [alloc] then [free] *)

Lemma eqb_nonzero (n : N) : n ≠ 0 → negb (n =? 0) = true.
Proof. intros Hn. apply negb_true_iff, N.eqb_neq. exact Hn. Qed.

Lemma free_device_backed g w :
  allocated sizeofT g w → m_useVBO g = false →
  free g w =
    Ret (set_hptr 0 g)
        (logged (Release (HostArray (m_hptr g)))
          (with_host_avail (W_host_avail w + m_size g * sizeofT)
            (with_host (delete (m_hptr g)) w))).
Proof.
  intros (_ & (Hp & _ & b & Hb & Hbytes) & Hrest) Hvbo.
  rewrite Hvbo in Hrest. destruct Hrest as (Hv0 & Hv1 & _).
  unfold free, freeHost. rewrite (eqb_nonzero _ Hp).
  unfold delete_array, freeVbo, m_vbo_as_condition, mbind, M_bind, mret, M_ret.
  rewrite Hb, Hbytes. simpl_obj. rewrite Hv0. simpl_obj. rewrite Hv1.
  reflexivity.
Qed.

(** C1 fails on the code for an object in plain device memory. Whatever the
    size and whether double-buffered or not, when [alloc] without a graphics
    buffer returns, the [free] that follows returns too, and all it releases
    is the host array: the device heap is what it was, the first device
    slot is still a live allocation, and the object still points to it. *)
Theorem free_leaks_device_memory i1 i2 size db ea w g w1 :
  alloc sizeofT size false db ea (GpuArray_ctor i1 i2) w = Ret g w1 →
  ∃ g2 w2,
    free g w1 = Ret g2 w2 ∧
    W_log w2 = W_log w1 ++ [Release (HostArray (m_hptr g))] ∧
    W_dev w2 = W_dev w1 ∧
    m_dptr g2 0 = m_dptr g 0 ∧ m_dptr g 0 ≠ 0 ∧
    is_Some (W_dev w2 !! m_dptr g 0).
Proof.
  intros H. apply alloc_allocated in H as (Hall & _ & Hvbo & _).
  rewrite (free_device_backed _ _ Hall Hvbo).
  eexists _, _. split; [reflexivity|].
  destruct Hall as (_ & _ & Hrest). rewrite Hvbo in Hrest.
  destruct Hrest as (_ & _ & (Hp & b & Hb & _) & _).
  wcbn. rewrite Hb. eauto.
Qed.

(** ** [map], the transfer, [unmap] *)

Lemma cudaGLMapBufferObject_Ok v b w :
  W_gl w !! v = Some b → gl_registered b = true →
  gl_writeDiscard b = true → gl_mapped b = None →
  cudaGLMapBufferObject v w =
    ApiOk (fresh_name (W_dev w))
      (with_dev <[fresh_name (W_dev w) :=
                    Block (gl_bytes b) (W_discard w (gl_data b))]>
        (with_gl <[v := GlBuf (gl_bytes b) (gl_data b) (gl_elementArray b)
                           true true (Some (fresh_name (W_dev w)))]> w)).
Proof.
  intros Hb Hr Hd Hm. unfold cudaGLMapBufferObject.
  rewrite Hb, Hr, Hm, Hd. reflexivity.
Qed.

Lemma cudaGLUnmapBufferObject_Ok v b a blk w :
  W_gl w !! v = Some b → gl_mapped b = Some a → W_dev w !! a = Some blk →
  cudaGLUnmapBufferObject v w =
    ApiOk tt
      (with_dev (delete a)
        (with_gl <[v := GlBuf (gl_bytes b) (blk_data blk) (gl_elementArray b)
                           (gl_registered b) (gl_writeDiscard b) None]> w)).
Proof.
  intros Hb Hm Hblk. unfold cudaGLUnmapBufferObject.
  rewrite Hb, Hm, Hblk. reflexivity.
Qed.

Lemma role_inv_read g :
  role_inv g →
  m_currentRead g = 0 ∨ (m_currentRead g = 1 ∧ m_doubleBuffer g = true).
Proof.
  unfold role_inv. destruct (m_doubleBuffer g); intros H.
  - destruct H as [[-> _] | [-> _]]; auto.
  - destruct H as [-> _]. auto.
Qed.

Lemma map_allocated g w :
  allocated sizeofT g w →
  ∃ g1 w1,
    map g w = Ret g1 w1 ∧ in_transfer sizeofT g1 w1 ∧ same_but_dptr g g1 ∧
    W_host w1 = W_host w ∧ W_discard w1 = W_discard w ∧
    (∃ d, slot_seen g w (m_currentRead g) = Some d ∧
          dev_data g1 w1 (m_currentRead g) = Some d).
Proof.
  intros (Hinv & (Hp & Hlt & hb & Hhb & Hhbytes) & Hrest).
  pose proof (role_inv_read _ Hinv) as Hread.
  unfold map, in_transfer, same_but_dptr, same_roles, slot_seen, slot_data,
    dev_data.
  unfold mbind, M_bind, mret, M_ret, cutilSafeCall.
  destruct (m_useVBO g) eqn:Hvbo.
  - destruct Hrest as ((Hv0 & b0 & Hb0 & Hbytes0 & Hreg0 & Hwd0 & Hmap0) & Hrest).
    rewrite (eqb_nonzero _ Hv0).
    rewrite (cudaGLMapBufferObject_Ok _ _ _ Hb0 Hreg0 Hwd0 Hmap0).
    pose proof (fresh_name_nonzero (W_dev w)) as Ha0.
    set (a0 := fresh_name (W_dev w)) in *.
    destruct (m_doubleBuffer g) eqn:Hdb.
    + destruct Hrest as ((Hv1 & b1 & Hb1 & Hbytes1 & Hreg1 & Hwd1 & Hmap1) & Hne).
      simpl_obj. rewrite Hdb, (eqb_nonzero _ Hv1). simpl_obj.
      erewrite cudaGLMapBufferObject_Ok;
        [| simpl_obj; rewrite lookup_insert_ne by exact Hne; exact Hb1 | done..].
      simpl_obj.
      set (m1 := <[a0 := Block (gl_bytes b0) (W_discard w (gl_data b0))]> (W_dev w)).
      pose proof (fresh_name_nonzero m1) as Ha1.
      assert (a0 ≠ fresh_name m1) as Hane.
      { intros Heq. pose proof (fresh_name_None m1) as Hf.
        rewrite <- Heq in Hf. unfold m1 in Hf.
        rewrite lookup_insert_eq in Hf. discriminate. }
      set (a1 := fresh_name m1) in *.
      eexists _, _. split; [reflexivity|].
      unfold role_inv, host_ok, slot_mapped in *. simpl_obj.
      rewrite Hvbo, Hdb in *.
      rewrite !lookup_insert_eq.
      rewrite (lookup_insert_ne _ (m_vbo1 g) (m_vbo0 g)) by congruence.
      rewrite lookup_insert_eq.
      unfold m1.
      rewrite (lookup_insert_ne _ a1 a0) by congruence.
      rewrite lookup_insert_eq.
      split_and!; [solve [eauto 12 | tauto] .. |].
      destruct Hread as [-> | [-> _]]; simpl_obj.
      * rewrite Hb0. simpl_obj. eexists. split; [reflexivity|].
        rewrite lookup_insert_ne by congruence.
        rewrite lookup_insert_eq. reflexivity.
      * rewrite Hb1. simpl_obj. eexists. split; [reflexivity|].
        rewrite lookup_insert_eq. reflexivity.
    + simpl_obj. rewrite Hdb. simpl_obj.
      eexists _, _. split; [reflexivity|].
      unfold role_inv, host_ok, slot_mapped in *. simpl_obj.
      rewrite Hvbo, Hdb in *.
      rewrite !lookup_insert_eq.
      split_and!; [solve [eauto 12 | tauto] .. |].
      destruct Hread as [-> | [_ [=]]]. simpl_obj.
      rewrite Hb0. simpl_obj. eexists. split; [reflexivity|].
      rewrite lookup_insert_eq. reflexivity.
  - destruct Hrest as (Hv0 & Hv1 & Hd0 & Hd1).
    rewrite Hv0. simpl_obj. rewrite Hv1, andb_false_r. simpl_obj.
    eexists _, _. split; [reflexivity|].
    unfold host_ok. rewrite Hvbo. split_and!; [solve [eauto 12 | tauto] .. |].
    assert (∃ b, W_dev w !! m_dptr g (m_currentRead g) = Some b) as (b & Hb).
    { destruct Hread as [-> | [-> Hdb]].
      - destruct Hd0 as (_ & b & Hb & _). eauto.
      - rewrite Hdb in Hd1. destruct Hd1 as ((_ & b & Hb & _) & _). eauto. }
    rewrite Hb. simpl_obj. eauto.
Qed.

Hypothesis sizeofT_pos : 0 < sizeofT.

Lemma in_transfer_read_slot g w :
  in_transfer sizeofT g w →
  ∃ blk, W_dev w !! m_dptr g (m_currentRead g) = Some blk ∧
         blk_bytes blk = m_size g * sizeofT.
Proof.
  intros (Hinv & _ & Hrest). pose proof (role_inv_read _ Hinv) as Hread.
  destruct (m_useVBO g).
  - destruct Hrest as (H0 & H1). destruct Hread as [-> | [-> Hdb]].
    + destruct H0 as (_ & _ & b & blk & _ & _ & _ & _ & _ & Hblk & Hbytes).
      eauto.
    + rewrite Hdb in H1.
      destruct H1 as ((_ & _ & b & blk & _ & _ & _ & _ & _ & Hblk & Hbytes) & _).
      eauto.
  - destruct Hrest as (_ & _ & H0 & H1). destruct Hread as [-> | [-> Hdb]].
    + destruct H0 as (_ & blk & Hblk & Hbytes). eauto.
    + rewrite Hdb in H1. destruct H1 as ((_ & blk & Hblk & Hbytes) & _). eauto.
Qed.

Lemma lookup_insert_bytes (m : gmap N (block T)) p q blk' blk n :
  m !! p = Some blk → blk_bytes blk' = blk_bytes blk →
  (∃ b, m !! q = Some b ∧ blk_bytes b = n) →
  ∃ b, <[p := blk']> m !! q = Some b ∧ blk_bytes b = n.
Proof.
  intros Hp Hbytes (b & Hq & Hn). destruct (decide (p = q)) as [-> | Hne].
  - rewrite lookup_insert_eq. exists blk'. split; [done|]. congruence.
  - rewrite lookup_insert_ne by done. eauto.
Qed.

Lemma dev_ok_update g w p blk blk' i :
  W_dev w !! p = Some blk → blk_bytes blk' = blk_bytes blk →
  dev_ok sizeofT g w i → dev_ok sizeofT g (with_dev <[p := blk']> w) i.
Proof.
  intros Hp Hbytes (Hnz & Hb). split; [exact Hnz|].
  eapply lookup_insert_bytes; eassumption.
Qed.

Lemma slot_mapped_update g w p blk blk' i :
  W_dev w !! p = Some blk → blk_bytes blk' = blk_bytes blk →
  slot_mapped sizeofT g w i →
  slot_mapped sizeofT g (with_dev <[p := blk']> w) i.
Proof.
  intros Hp Hbytes (Hnz & Hpz & b & bk & Hb & H1 & H2 & H3 & H4 & Hbk & H5).
  split; [exact Hnz|]. split; [exact Hpz|].
  destruct (lookup_insert_bytes (W_dev w) p (m_dptr g i) blk' blk
              (m_size g * sizeofT) Hp Hbytes) as (bk' & Hbk' & H5'); [eauto|].
  exists b, bk'. done.
Qed.

Lemma in_transfer_update_dev g w p blk blk' :
  in_transfer sizeofT g w →
  W_dev w !! p = Some blk → blk_bytes blk' = blk_bytes blk →
  in_transfer sizeofT g (with_dev <[p := blk']> w).
Proof.
  intros (Hinv & Hhost & Hrest) Hp Hbytes. split; [exact Hinv|].
  split; [exact Hhost|].
  pose proof (dev_ok_update g w p blk blk') as Hd.
  pose proof (slot_mapped_update g w p blk blk') as Hs.
  destruct (m_useVBO g), (m_doubleBuffer g).
  - destruct Hrest as (H0 & H1 & Hne1 & Hne2). split_and!; auto.
  - destruct Hrest as (H0 & H1). split_and!; auto.
  - destruct Hrest as (H0 & H1 & H2 & H3 & Hne). split_and!; auto.
  - destruct Hrest as (H0 & H1 & H2 & _). split_and!; auto.
Qed.

Lemma in_transfer_update_host g w blk blk' :
  in_transfer sizeofT g w →
  W_host w !! m_hptr g = Some blk → blk_bytes blk' = blk_bytes blk →
  in_transfer sizeofT g (with_host <[m_hptr g := blk']> w).
Proof.
  intros (Hinv & (Hp & Hlt & b & Hb & Hn) & Hrest) Hblk Hbytes.
  split; [exact Hinv|]. split; [|exact Hrest].
  split; [exact Hp|]. split; [exact Hlt|]. wcbn.
  rewrite lookup_insert_eq. exists blk'. split; [done|]. congruence.
Qed.

Lemma blit_same_offset (dst src : N → T) start n i :
  blit dst src start start n i = if in_range start n i then src i else dst i.
Proof.
  unfold blit, in_range. destruct (start <=? i) eqn:Hle; [|reflexivity].
  wcbn. destruct (i <? start + n); [|reflexivity].
  apply N.leb_le in Hle. f_equal. lia.
Qed.

Lemma in_block_range (b : block T) start n size :
  blk_bytes b = size * sizeofT → start + n ≤ size →
  in_block sizeofT b start (n * sizeofT) = true.
Proof.
  intros Hb Hle. unfold in_block. rewrite Hb. apply N.leb_le. nia.
Qed.

(** The transfer itself, host to device. *)
Lemma memcpy_to_device g w start n :
  in_transfer sizeofT g w → start + n ≤ m_size g →
  ∃ w2 h d,
    cudaMemcpy sizeofT HOST_TO_DEVICE (m_dptr g (m_currentRead g)) start
      (m_hptr g) start (to_size_t (n * sizeofT)) w = ApiOk tt w2 ∧
    in_transfer sizeofT g w2 ∧
    W_host w2 = W_host w ∧ W_discard w2 = W_discard w ∧
    host_data g w = Some h ∧ dev_data g w (m_currentRead g) = Some d ∧
    dev_data g w2 (m_currentRead g) = Some (blit d h start start n).
Proof.
  intros Ht Hle. pose proof (in_transfer_read_slot _ _ Ht) as (blk & Hblk & Hbytes).
  pose proof Ht as (_ & (_ & Hlt & hb & Hhb & Hhbytes) & _).
  assert (n * sizeofT < size_max) as Hsmall by nia.
  unfold cudaMemcpy, host_data, dev_data.
  rewrite to_size_t_small by exact Hsmall.
  rewrite Hblk, Hhb.
  rewrite (in_block_range _ _ _ _ Hbytes Hle), (in_block_range _ _ _ _ Hhbytes Hle).
  rewrite N.div_mul by lia. wcbn.
  eexists _, _, _. split; [reflexivity|].
  split; [eapply in_transfer_update_dev; [exact Ht | exact Hblk | done] |].
  wcbn. rewrite lookup_insert_eq. done.
Qed.

(** The transfer itself, device to host. *)
Lemma memcpy_to_host g w start n :
  in_transfer sizeofT g w → start + n ≤ m_size g →
  ∃ w2 h d,
    cudaMemcpy sizeofT DEVICE_TO_HOST (m_hptr g) start
      (m_dptr g (m_currentRead g)) start (to_size_t (n * sizeofT)) w
      = ApiOk tt w2 ∧
    in_transfer sizeofT g w2 ∧
    W_dev w2 = W_dev w ∧ W_discard w2 = W_discard w ∧
    host_data g w = Some h ∧ dev_data g w (m_currentRead g) = Some d ∧
    host_data g w2 = Some (blit h d start start n).
Proof.
  intros Ht Hle. pose proof (in_transfer_read_slot _ _ Ht) as (blk & Hblk & Hbytes).
  pose proof Ht as (_ & (_ & Hlt & hb & Hhb & Hhbytes) & _).
  assert (n * sizeofT < size_max) as Hsmall by nia.
  unfold cudaMemcpy, host_data, dev_data.
  rewrite to_size_t_small by exact Hsmall.
  rewrite Hblk, Hhb.
  rewrite (in_block_range _ _ _ _ Hbytes Hle), (in_block_range _ _ _ _ Hhbytes Hle).
  rewrite N.div_mul by lia. wcbn.
  eexists _, _, _. split; [reflexivity|].
  split; [eapply in_transfer_update_host; [exact Ht | exact Hhb | done] |].
  wcbn. rewrite lookup_insert_eq. done.
Qed.

Lemma unmap_in_transfer g w :
  in_transfer sizeofT g w →
  ∃ g2 w2,
    unmap g w = Ret g2 w2 ∧ allocated sizeofT g2 w2 ∧ same_but_dptr g g2 ∧
    W_host w2 = W_host w ∧ W_discard w2 = W_discard w ∧
    slot_data g2 w2 (m_currentRead g) = dev_data g w (m_currentRead g) ∧
    (m_useVBO g = true →
     m_dptr g2 (m_currentRead g) = 0 ∧
     W_dev w2 !! m_dptr g (m_currentRead g) = None).
Proof.
  intros (Hinv & (Hp & Hlt & hb & Hhb & Hhbytes) & Hrest).
  pose proof (role_inv_read _ Hinv) as Hread.
  unfold unmap, allocated, same_but_dptr, same_roles, slot_data, dev_data.
  unfold mbind, M_bind, mret, M_ret, cutilSafeCall.
  destruct (m_useVBO g) eqn:Hvbo.
  - destruct Hrest as ((Hv0 & _ & b0 & blk0 & Hb0 & Hbytes0 & Hreg0 & Hwd0
                        & Hmap0 & Hblk0 & Hbb0) & Hrest).
    rewrite (eqb_nonzero _ Hv0).
    rewrite (cudaGLUnmapBufferObject_Ok _ _ _ _ _ Hb0 Hmap0 Hblk0).
    destruct (m_doubleBuffer g) eqn:Hdb.
    + destruct Hrest as ((Hv1 & _ & b1 & blk1 & Hb1 & Hbytes1 & Hreg1 & Hwd1
                          & Hmap1 & Hblk1 & Hbb1) & Hvne & Hane).
      simpl_obj. rewrite Hdb, (eqb_nonzero _ Hv1). simpl_obj.
      erewrite cudaGLUnmapBufferObject_Ok;
        [| simpl_obj; rewrite lookup_insert_ne by exact Hvne; exact Hb1
         | exact Hmap1
         | simpl_obj; rewrite lookup_delete_ne by exact Hane; exact Hblk1].
      simpl_obj.
      eexists _, _. split; [reflexivity|].
      unfold role_inv, host_ok, vbo_ok in *. simpl_obj.
      rewrite Hvbo, Hdb in *.
      rewrite !lookup_insert_eq.
      rewrite (lookup_insert_ne _ (m_vbo1 g) (m_vbo0 g)) by congruence.
      rewrite lookup_insert_eq. simpl_obj.
      rewrite Hreg0, Hwd0, Hreg1, Hwd1.
      split_and!; [solve [eauto 12 | tauto] .. | |].
      * destruct Hread as [-> | [-> _]]; simpl_obj.
        -- rewrite lookup_insert_ne by congruence.
           rewrite lookup_insert_eq, Hblk0. reflexivity.
        -- rewrite lookup_insert_eq, Hblk1. reflexivity.
      * intros _. destruct Hread as [-> | [-> _]]; simpl_obj.
        -- split; [reflexivity|].
           rewrite lookup_delete_ne by congruence. apply lookup_delete_eq.
        -- split; [reflexivity|]. apply lookup_delete_eq.
    + simpl_obj. rewrite Hdb. simpl_obj.
      eexists _, _. split; [reflexivity|].
      unfold role_inv, host_ok, vbo_ok in *. simpl_obj.
      rewrite Hvbo, Hdb in *.
      rewrite !lookup_insert_eq. simpl_obj. rewrite Hreg0, Hwd0.
      destruct Hread as [Hr0 | [_ [=]]]. rewrite Hr0. simpl_obj.
      rewrite lookup_insert_eq, Hblk0. simpl_obj.
      split_and!; [solve [eauto 12 | tauto] .. |].
      intros _. split; [reflexivity|]. apply lookup_delete_eq.
  - destruct Hrest as (Hv0 & Hv1 & Hd).
    rewrite Hv0. simpl_obj. rewrite Hv1, andb_false_r. simpl_obj.
    eexists _, _. split; [reflexivity|].
    unfold host_ok. rewrite Hvbo.
    split_and!; [solve [eauto 12 | tauto | discriminate] ..].
Qed.

(** ** [copy] *)

Lemma set_device_frame d w :
  ∃ w', unchecked (cudaSetDevice d) w = Ret tt w' ∧
        W_host w' = W_host w ∧ W_dev w' = W_dev w ∧ W_gl w' = W_gl w ∧
        W_discard w' = W_discard w.
Proof.
  unfold unchecked, cudaSetDevice.
  destruct ((0 <=? d)%Z && (d <? W_nDevices w)%Z); eexists; done.
Qed.

Lemma allocated_frame g w w' :
  W_host w' = W_host w → W_dev w' = W_dev w → W_gl w' = W_gl w →
  allocated sizeofT g w → allocated sizeofT g w'.
Proof.
  unfold allocated, host_ok, dev_ok, vbo_ok. intros -> -> ->. done.
Qed.

Lemma same_but_dptr_trans g1 g2 g3 :
  same_but_dptr g1 g2 → same_but_dptr g2 g3 → same_but_dptr g1 g3.
Proof.
  unfold same_but_dptr.
  intros (-> & -> & -> & -> & -> & H12) (-> & -> & -> & -> & -> & H23).
  split_and!; try done. eapply same_roles_trans; eassumption.
Qed.

Lemma effective_count_default g :
  m_size g < uint_max → effective_count g 0 = m_size g.
Proof. intros Hlt. unfold effective_count, to_uint. cbn [N.eqb]. by apply N.mod_small. Qed.

(** Entering [copy]: the render device is selected and the slots are
    mapped. *)
Lemma copy_enter g w :
  allocated sizeofT g w →
  ∃ w1 g1 w2 d,
    unchecked (cudaSetDevice (renderDevID w)) w = Ret tt w1 ∧
    map g w1 = Ret g1 w2 ∧
    in_transfer sizeofT g1 w2 ∧ same_but_dptr g g1 ∧
    W_host w2 = W_host w ∧ W_discard w2 = W_discard w ∧
    slot_seen g w (m_currentRead g) = Some d ∧
    dev_data g1 w2 (m_currentRead g) = Some d.
Proof.
  intros Hall.
  destruct (set_device_frame (renderDevID w) w) as (w1 & Hs1 & Hh1 & Hd1 & Hg1 & Hx1).
  pose proof (allocated_frame _ _ _ Hh1 Hd1 Hg1 Hall) as Hall1.
  destruct (map_allocated _ _ Hall1)
    as (g1 & w2 & Hmap & Ht2 & Hsame1 & Hh2 & Hx2 & d & Hseen & Hdev2).
  exists w1, g1, w2, d. split_and!; try done; try congruence.
  unfold slot_seen, slot_data in *. rewrite Hd1, Hg1, Hx1 in Hseen. exact Hseen.
Qed.

(** Leaving [copy]: the slots are unmapped and the compute device is
    selected. *)
Lemma copy_leave g1 w3 :
  in_transfer sizeofT g1 w3 →
  ∃ g2 w4 w5,
    unmap g1 w3 = Ret g2 w4 ∧
    unchecked (cudaSetDevice (devID w4)) w4 = Ret tt w5 ∧
    allocated sizeofT g2 w5 ∧ same_but_dptr g1 g2 ∧
    W_host w5 = W_host w3 ∧ W_discard w5 = W_discard w3 ∧
    slot_data g2 w5 (m_currentRead g1) = dev_data g1 w3 (m_currentRead g1).
Proof.
  intros Ht3.
  destruct (unmap_in_transfer _ _ Ht3)
    as (g2 & w4 & Hun & Hall4 & Hsame2 & Hh4 & Hx4 & Hslot & _).
  destruct (set_device_frame (devID w4) w4) as (w5 & Hs5 & Hh5 & Hd5 & Hg5 & Hx5).
  exists g2, w4, w5. split_and!; try done; try congruence.
  - eapply allocated_frame; eassumption.
  - unfold slot_data in *. rewrite Hd5, Hg5. exact Hslot.
Qed.

(** [copy(HOST_TO_DEVICE, start, count)] on an allocated object, for a range
    inside the buffer. *)
Lemma copy_to_device start count g w :
  allocated sizeofT g w →
  start + effective_count g count ≤ m_size g →
  ∃ g' w' h d,
    copy sizeofT HOST_TO_DEVICE start count g w = Ret g' w' ∧
    allocated sizeofT g' w' ∧ same_but_dptr g g' ∧
    W_discard w' = W_discard w ∧
    host_data g w = Some h ∧ slot_seen g w (m_currentRead g) = Some d ∧
    host_data g' w' = Some h ∧
    slot_data g' w' (m_currentRead g)
      = Some (blit d h start start (effective_count g count)).
Proof.
  intros Hall Hle. unfold copy. fold (effective_count g count).
  set (n := effective_count g count) in *.
  destruct (copy_enter _ _ Hall)
    as (w1 & g1 & w2 & d & Hs1 & Hmap & Ht2 & Hsame1 & Hh2 & Hx2 & Hseen & Hdev2).
  rewrite (bind_Ret_l _ _ w (renderDevID w) w) by reflexivity.
  rewrite (bind_Ret_l _ _ _ _ _ Hs1), (bind_Ret_l _ _ _ _ _ Hmap).
  pose proof Hsame1 as (Hsz1 & Hhp1 & _ & _ & Hvbo1 & _ & Hrd1 & _).
  assert (start + n ≤ m_size g1) as Hle1 by (rewrite Hsz1; exact Hle).
  destruct (memcpy_to_device _ _ _ _ Ht2 Hle1)
    as (w3 & h & d0 & Hcp & Ht3 & Hh3 & Hx3 & Hhost & Hdev & Hdev3).
  apply cutilSafeCall_Ret in Hcp. rewrite (bind_Ret_l _ _ _ _ _ Hcp).
  destruct (copy_leave _ _ Ht3)
    as (g2 & w4 & w5 & Hun & Hs5 & Hall5 & Hsame2 & Hh5 & Hx5 & Hslot).
  rewrite (bind_Ret_l _ _ _ _ _ Hun).
  rewrite (bind_Ret_l _ _ w4 (devID w4) w4) by reflexivity.
  rewrite (bind_Ret_l _ _ _ _ _ Hs5).
  rewrite Hrd1 in *. rewrite Hdev2 in Hdev. injection Hdev as <-.
  pose proof Hsame2 as (_ & Hhp2 & _).
  exists g2, w5, h, d. split_and!.
  - reflexivity.
  - exact Hall5.
  - eapply same_but_dptr_trans; eassumption.
  - congruence.
  - unfold host_data in *. rewrite Hhp1, Hh2 in Hhost. exact Hhost.
  - exact Hseen.
  - unfold host_data in *. rewrite Hhp2, Hh5, Hh3. exact Hhost.
  - rewrite Hslot. exact Hdev3.
Qed.

(** [copy(DEVICE_TO_HOST, start, count)] on an allocated object, for a range
    inside the buffer. *)
Lemma copy_to_host start count g w :
  allocated sizeofT g w →
  start + effective_count g count ≤ m_size g →
  ∃ g' w' h d,
    copy sizeofT DEVICE_TO_HOST start count g w = Ret g' w' ∧
    allocated sizeofT g' w' ∧ same_but_dptr g g' ∧
    W_discard w' = W_discard w ∧
    host_data g w = Some h ∧ slot_seen g w (m_currentRead g) = Some d ∧
    host_data g' w' = Some (blit h d start start (effective_count g count)) ∧
    slot_data g' w' (m_currentRead g) = Some d.
Proof.
  intros Hall Hle. unfold copy. fold (effective_count g count).
  set (n := effective_count g count) in *.
  destruct (copy_enter _ _ Hall)
    as (w1 & g1 & w2 & d & Hs1 & Hmap & Ht2 & Hsame1 & Hh2 & Hx2 & Hseen & Hdev2).
  rewrite (bind_Ret_l _ _ w (renderDevID w) w) by reflexivity.
  rewrite (bind_Ret_l _ _ _ _ _ Hs1), (bind_Ret_l _ _ _ _ _ Hmap).
  pose proof Hsame1 as (Hsz1 & Hhp1 & _ & _ & Hvbo1 & _ & Hrd1 & _).
  assert (start + n ≤ m_size g1) as Hle1 by (rewrite Hsz1; exact Hle).
  destruct (memcpy_to_host _ _ _ _ Ht2 Hle1)
    as (w3 & h & d0 & Hcp & Ht3 & Hd3 & Hx3 & Hhost & Hdev & Hhost3).
  apply cutilSafeCall_Ret in Hcp. rewrite (bind_Ret_l _ _ _ _ _ Hcp).
  destruct (copy_leave _ _ Ht3)
    as (g2 & w4 & w5 & Hun & Hs5 & Hall5 & Hsame2 & Hh5 & Hx5 & Hslot).
  rewrite (bind_Ret_l _ _ _ _ _ Hun).
  rewrite (bind_Ret_l _ _ w4 (devID w4) w4) by reflexivity.
  rewrite (bind_Ret_l _ _ _ _ _ Hs5).
  rewrite Hrd1 in *. rewrite Hdev2 in Hdev. injection Hdev as <-.
  pose proof Hsame2 as (_ & Hhp2 & _).
  exists g2, w5, h, d. split_and!.
  - reflexivity.
  - exact Hall5.
  - eapply same_but_dptr_trans; eassumption.
  - congruence.
  - unfold host_data in *. rewrite Hhp1, Hh2 in Hhost. exact Hhost.
  - exact Hseen.
  - unfold host_data in *. rewrite Hhp2, Hh5. exact Hhost3.
  - rewrite Hslot. unfold dev_data in *. rewrite Hd3. exact Hdev2.
Qed.


Lemma to_uint_le n : to_uint n ≤ n.
Proof. unfold to_uint. apply N.Div0.mod_le. Qed.

(** C7, as the code has it. On an allocated object, for [count] in
    [0, size] and [start] in [0, size - count], with [start = 0] when
    [count = 0] (a [count] of 0 stands for the whole buffer) and, for a
    buffer object, a runtime that keeps the store across a write-discard
    map: [copy(HOST_TO_DEVICE, start, count)] and then
    [copy(DEVICE_TO_HOST, start, count)] both return, and the host array
    holds what it held before. *)
Theorem copy_round_trip start count g w :
  allocated sizeofT g w →
  count ≤ m_size g → start ≤ m_size g - count →
  (count = 0 → start = 0) →
  (m_useVBO g = true → ∀ f i, W_discard w f i = f i) →
  ∃ g1 w1 g2 w2 h h2,
    copy sizeofT HOST_TO_DEVICE start count g w = Ret g1 w1 ∧
    copy sizeofT DEVICE_TO_HOST start count g1 w1 = Ret g2 w2 ∧
    host_data g w = Some h ∧ host_data g2 w2 = Some h2 ∧
    ∀ i, h2 i = h i.
Proof.
  intros Hall Hcount Hstart Hzero Hkeep.
  assert (start + effective_count g count ≤ m_size g) as Hle.
  { unfold effective_count. destruct (count =? 0) eqn:Hc.
    - apply N.eqb_eq in Hc. rewrite (Hzero Hc).
      pose proof (to_uint_le (m_size g)). lia.
    - lia. }
  destruct (copy_to_device start count g w Hall Hle)
    as (g1 & w1 & h & d & Hc1 & Hall1 & Hsame & Hx1 & Hh & Hd & Hh1 & Hd1).
  pose proof Hsame as (Hsz & Hhp & Hv0 & Hv1 & Hvbo & _ & Hrd & _).
  assert (effective_count g1 count = effective_count g count) as Hn
    by (unfold effective_count; rewrite Hsz; reflexivity).
  assert (start + effective_count g1 count ≤ m_size g1) as Hle1
    by (rewrite Hn, Hsz; exact Hle).
  destruct (copy_to_host start count g1 w1 Hall1 Hle1)
    as (g2 & w2 & h1 & dd & Hc2 & _ & _ & _ & Hh1' & Hdd & Hh2 & _).
  rewrite Hh1 in Hh1'. injection Hh1' as <-.
  exists g1, w1, g2, w2, h, (blit h dd start start (effective_count g1 count)).
  split_and!; try done.
  intros i. rewrite blit_same_offset, Hn.
  destruct (in_range start (effective_count g count) i) eqn:Hin; [|reflexivity].
  rewrite Hrd in Hdd. unfold slot_seen in Hdd. rewrite Hvbo, Hd1 in Hdd.
  destruct (m_useVBO g) eqn:Hu.
  - cbn [fmap option_fmap option_map] in Hdd. injection Hdd as <-.
    rewrite Hx1, (Hkeep eq_refl), blit_same_offset, Hin. reflexivity.
  - injection Hdd as <-. rewrite blit_same_offset, Hin. reflexivity.
Qed.

(** C8. On an allocated object that uses a buffer object, [map] returns and
    gives a non-null device pointer; after a store through any device
    pointer, [unmap] returns, [getDevicePtr] is the null pointer, and the
    address that was valid while mapped is no longer a device allocation. *)
Theorem unmap_nulls_device_pointer g w :
  allocated sizeofT g w → m_useVBO g = true →
  ∃ g1 w1,
    map g w = Ret g1 w1 ∧ getDevicePtr g1 ≠ 0 ∧
    ∀ p i x w2,
      deviceWrite sizeofT p i x w1 = Ret tt w2 →
      ∃ g3 w3,
        unmap g1 w2 = Ret g3 w3 ∧ getDevicePtr g3 = 0 ∧
        W_dev w3 !! getDevicePtr g1 = None.
Proof.
  intros Hall Hvbo.
  destruct (map_allocated _ _ Hall)
    as (g1 & w1 & Hmap & Ht & Hsame & _ & _ & _).
  pose proof Hsame as (_ & _ & _ & _ & Hvbo1 & _ & Hrd & _).
  exists g1, w1. split; [exact Hmap|]. split.
  - unfold getDevicePtr. destruct Ht as (Hinv & _ & Hrest).
    rewrite Hvbo1, Hvbo in Hrest.
    destruct (role_inv_read _ Hinv) as [-> | [-> Hdb]].
    + destruct Hrest as ((_ & Hnz & _) & _). exact Hnz.
    + rewrite Hdb in Hrest. destruct Hrest as (_ & (_ & Hnz & _) & _). exact Hnz.
  - intros p i x w2 Hwrite. unfold deviceWrite in Hwrite.
    destruct (W_dev w1 !! p) as [b|] eqn:Hb; [|discriminate].
    destruct (in_block sizeofT b i sizeofT); [|discriminate].
    injection Hwrite as <-.
    assert (in_transfer sizeofT g1
              (with_dev <[p := Block (blk_bytes b)
                                 (λ j, if j =? i then x else blk_data b j)]> w1))
      as Ht2 by (eapply in_transfer_update_dev; [exact Ht | exact Hb | done]).
    destruct (unmap_in_transfer _ _ Ht2)
      as (g3 & w3 & Hun & _ & Hsame3 & _ & _ & _ & Hnull).
    pose proof Hsame3 as (_ & _ & _ & _ & _ & _ & Hrd3 & _).
    destruct Hnull as [Hz Hdead]; [congruence|].
    exists g3, w3. unfold getDevicePtr. rewrite Hrd3. done.
Qed.

(** ** More on [swap], [free], [map] and [unmap] *)

(** [swap] is its own inverse, and it exchanges what the read accessors and
    the write accessors return; host pointer and size are not concerned. *)
Theorem swap_involutive g :
  swap (swap g) = g ∧
  getDevicePtr (swap g) = getDeviceWritePtr g ∧
  getDeviceWritePtr (swap g) = getDevicePtr g ∧
  getVbo (swap g) = getWriteVbo g ∧
  getWriteVbo (swap g) = getVbo g ∧
  getHostPtr (swap g) = getHostPtr g ∧
  getSize (swap g) = getSize g.
Proof. destruct g. split_and!; reflexivity. Qed.

(** With a null host pointer and no buffer names there is nothing [free]
    releases. *)
Lemma free_nothing_to_release g w :
  m_hptr g = 0 → m_vbo g 0 = 0 → m_vbo g 1 = 0 → free g w = Ret g w.
Proof.
  intros Hh Hv0 Hv1.
  unfold free, freeHost, freeVbo, m_vbo_as_condition, mbind, M_bind, mret, M_ret.
  rewrite Hh. simpl_obj. rewrite Hv0. simpl_obj. rewrite Hv1. reflexivity.
Qed.

(** What a returning [free] leaves in the object. *)
Lemma free_clears g w g1 w1 :
  free g w = Ret g1 w1 →
  m_hptr g1 = 0 ∧ m_vbo g1 0 = 0 ∧ m_vbo g1 1 = 0 ∧
  m_dptr g1 0 = m_dptr g 0 ∧ m_dptr g1 1 = m_dptr g 1.
Proof.
  unfold free, freeHost, freeVbo, m_vbo_as_condition. intros H.
  apply bind_Ret in H as (ga & wa & Ha & H).
  assert (m_hptr ga = 0 ∧ m_vbo ga 0 = m_vbo g 0 ∧ m_vbo ga 1 = m_vbo g 1 ∧
          m_dptr ga 0 = m_dptr g 0 ∧ m_dptr ga 1 = m_dptr g 1)
    as (Hh & Hv0 & Hv1 & Hd0 & Hd1).
  { destruct (m_hptr g =? 0) eqn:Hz; simpl_obj.
    - apply mret_Ret in Ha as [<- _]. apply N.eqb_eq in Hz. done.
    - apply bind_Ret in Ha as (? & ? & _ & Ha).
      apply mret_Ret in Ha as [<- _]. done. }
  apply bind_Ret in H as (gb & wb & Hb & H).
  assert (m_hptr gb = 0 ∧ m_vbo gb 0 = 0 ∧ m_vbo gb 1 = m_vbo g 1 ∧
          m_dptr gb 0 = m_dptr g 0 ∧ m_dptr gb 1 = m_dptr g 1)
    as (Hh' & Hv0' & Hv1' & Hd0' & Hd1').
  { destruct (m_vbo ga 0 =? 0) eqn:Hz; simpl_obj.
    - apply mret_Ret in Hb as [<- _]. apply N.eqb_eq in Hz. done.
    - apply bind_Ret in Hb as (? & ? & _ & Hb).
      apply bind_Ret in Hb as (? & ? & _ & Hb).
      apply mret_Ret in Hb as [<- _]. done. }
  destruct (m_vbo gb 1 =? 0) eqn:Hz; simpl_obj.
  - apply mret_Ret in H as [<- _]. apply N.eqb_eq in Hz. done.
  - apply bind_Ret in H as (? & ? & _ & H).
    apply bind_Ret in H as (? & ? & _ & H).
    apply mret_Ret in H as [<- _]. done.
Qed.

(** [free], and so the destructor, on an object that was constructed and
    never allocated returns at once and changes neither the object nor the
    process, whatever the two uninitialised flags hold. *)
Theorem free_of_new_object (i1 i2 : bool) w :
  free (GpuArray_ctor i1 i2) w = Ret (GpuArray_ctor i1 i2) w ∧
  GpuArray_dtor (GpuArray_ctor i1 i2) w = Ret (GpuArray_ctor i1 i2) w.
Proof. split; by apply free_nothing_to_release. Qed.

(** [free] is idempotent: whenever a [free] returns, on any object in any
    process state, a second [free] (the destructor's, say) returns too and
    changes nothing. *)
Theorem free_twice g w g1 w1 :
  free g w = Ret g1 w1 →
  free g1 w1 = Ret g1 w1 ∧ GpuArray_dtor g1 w1 = Ret g1 w1.
Proof.
  intros H. apply free_clears in H as (Hh & Hv0 & Hv1 & _).
  split; by apply free_nothing_to_release.
Qed.

(** Without buffer names [map] and [unmap] find nothing to do. *)
Lemma map_unmap_noop g w :
  m_vbo g 0 = 0 → m_vbo g 1 = 0 →
  map g w = Ret g w ∧ unmap g w = Ret g w.
Proof.
  intros Hv0 Hv1. unfold map, unmap, mbind, M_bind, mret, M_ret.
  rewrite Hv0. simpl_obj. rewrite Hv1, andb_false_r. done.
Qed.

(** Without buffer names, that is before [alloc] and on an object in plain
    device memory, any sequence of [map] and [unmap] calls, in any order
    and however unbalanced, returns and changes neither the object nor the
    process. *)
Theorem map_unmap_without_buffers (ops : list (op T)) g w :
  m_vbo g 0 = 0 → m_vbo g 1 = 0 →
  Forall (λ o, o = OpMap ∨ o = OpUnmap) ops →
  run sizeofT ops g w = Ret g w.
Proof.
  intros Hv0 Hv1 Hops. destruct (map_unmap_noop g w Hv0 Hv1) as [Hm Hu].
  induction Hops as [|o ops [-> | ->] _ IH]; cbn [run step].
  - reflexivity.
  - rewrite (bind_Ret_l _ _ _ _ _ Hm). exact IH.
  - rewrite (bind_Ret_l _ _ _ _ _ Hu). exact IH.
Qed.

(** ** What [alloc] does to the heaps *)

Lemma new_array_fits n w a w' :
  new_array sizeofT n w = Ret a w' → n * sizeofT ≤ W_host_avail w.
Proof.
  unfold new_array. intros H.
  destruct (size_max <=? n * sizeofT); [discriminate|].
  destruct (W_host_avail w <? n * sizeofT) eqn:Hlt; [discriminate|].
  by apply N.ltb_ge.
Qed.

Lemma createVbo_frame size ea w v w' :
  createVbo size ea w = Ret v w' →
  W_junk w' = W_junk w ∧ W_host_avail w' = W_host_avail w ∧
  W_dev_avail w' = W_dev_avail w.
Proof.
  unfold createVbo. intros H.
  apply bind_Ret in H as (v0 & w1 & Hg & H).
  unfold glGenBuffers in Hg. injection Hg as <- <-.
  apply bind_Ret in H as (u1 & w2 & Hb & H).
  unfold glBufferData in Hb. wcbn in Hb. rewrite lookup_insert_eq in Hb.
  injection Hb as <- <-.
  apply bind_Ret in H as (u2 & w3 & Hr & H). apply cutilSafeCall_Ret in Hr.
  unfold cudaGLRegisterBufferObject in Hr. wcbn in Hr.
  rewrite lookup_insert_eq in Hr. wcbn in Hr. injection Hr as <- <-.
  apply bind_Ret in H as (u3 & w4 & Hf & H). apply cutilSafeCall_Ret in Hf.
  unfold cudaGLSetBufferObjectMapFlags in Hf. wcbn in Hf.
  rewrite lookup_insert_eq in Hf. wcbn in Hf. injection Hf as <- <-.
  apply mret_Ret in H as [<- <-]. done.
Qed.

(** The host part of [alloc]: one fresh array, whatever the object held. *)
Lemma alloc_host size vbo db ea g0 w g w' :
  alloc sizeofT size vbo db ea g0 w = Ret g w' →
  m_hptr g = fresh_name (W_host w) ∧
  W_host w' = <[fresh_name (W_host w) := Block (size * sizeofT) (W_junk w)]> (W_host w) ∧
  size * sizeofT < size_max ∧ size * sizeofT ≤ W_host_avail w ∧
  W_host_avail w' = W_host_avail w - size * sizeofT.
Proof.
  intros H. unfold alloc, allocHost in H.
  apply bind_Ret in H as (g1 & w1 & Hh & H).
  apply bind_Ret in Hh as (a & w0 & Hn & Hh).
  apply mret_Ret in Hh as [<- <-].
  pose proof (new_array_fits _ _ _ _ Hn) as Hfit.
  apply new_array_Ret in Hn as (Hlt & -> & ->).
  destruct vbo, db; unfold allocVbo, allocDevice in H; simpl_obj.
  - apply bind_Ret in H as (v0 & w2 & Hc0 & H).
    pose proof (createVbo_frame _ _ _ _ _ Hc0) as (_ & Ha0 & _).
    apply createVbo_Ret in Hc0 as (_ & Hh0 & _).
    apply bind_Ret in H as (v1 & w3 & Hc1 & H).
    pose proof (createVbo_frame _ _ _ _ _ Hc1) as (_ & Ha1 & _).
    apply createVbo_Ret in Hc1 as (_ & Hh1 & _).
    apply mret_Ret in H as [<- <-]. simpl_obj.
    rewrite Hh1, Hh0, Ha1, Ha0. done.
  - apply bind_Ret in H as (v0 & w2 & Hc0 & H).
    pose proof (createVbo_frame _ _ _ _ _ Hc0) as (_ & Ha0 & _).
    apply createVbo_Ret in Hc0 as (_ & Hh0 & _).
    apply mret_Ret in H as [<- <-]. simpl_obj.
    rewrite Hh0, Ha0. done.
  - apply bind_Ret in H as (p0 & w2 & Hm0 & H).
    apply cutilSafeCall_Ret, cudaMalloc_Ok in Hm0 as (_ & ->).
    apply bind_Ret in H as (p1 & w3 & Hm1 & H).
    apply cutilSafeCall_Ret, cudaMalloc_Ok in Hm1 as (_ & ->).
    apply mret_Ret in H as [<- <-]. simpl_obj. done.
  - apply bind_Ret in H as (p0 & w2 & Hm0 & H).
    apply cutilSafeCall_Ret, cudaMalloc_Ok in Hm0 as (_ & ->).
    apply mret_Ret in H as [<- <-]. simpl_obj. done.
Qed.

(** The buffer objects of [alloc] with a graphics buffer. *)
Lemma alloc_vbo size db ea g0 w g w' :
  alloc sizeofT size true db ea g0 w = Ret g w' →
  let a := fresh_name (W_host w) in
  let b := GlBuf (size * sizeofT) (W_junk w) ea true true None in
  let v0 := fresh_name (W_gl w) in
  let v1 := fresh_name (<[v0 := b]> (W_gl w)) in
  m_dptr0 g = m_dptr0 g0 ∧ m_dptr1 g = m_dptr1 g0 ∧ W_dev w' = W_dev w ∧
  m_vbo0 g = v0 ∧
  if db then
    m_vbo1 g = v1 ∧ W_gl w' = <[v1 := b]> (<[v0 := b]> (W_gl w)) ∧
    W_log w' = W_log w ++ [Acquire (HostArray a);
                           Acquire (GlBuffer v0); Acquire (GlRegistration v0);
                           Acquire (GlBuffer v1); Acquire (GlRegistration v1)]
  else
    m_vbo1 g = m_vbo1 g0 ∧ W_gl w' = <[v0 := b]> (W_gl w) ∧
    W_log w' = W_log w ++ [Acquire (HostArray a);
                           Acquire (GlBuffer v0); Acquire (GlRegistration v0)].
Proof.
  intros H. unfold alloc, allocHost in H.
  apply bind_Ret in H as (g1 & w1 & Hh & H).
  apply bind_Ret in Hh as (a & w0 & Hn & Hh).
  apply mret_Ret in Hh as [<- <-].
  apply new_array_Ret in Hn as (Hlt & -> & ->).
  destruct db; unfold allocVbo in H; simpl_obj;
    rewrite to_size_t_small in H by exact Hlt.
  - apply bind_Ret in H as (v0 & w2 & Hc0 & H).
    pose proof (createVbo_frame _ _ _ _ _ Hc0) as (Hj0 & _ & _).
    apply createVbo_Ret in Hc0 as (Hv0 & Hh0 & Hd0 & Hg0 & Hl0).
    apply bind_Ret in H as (v1 & w3 & Hc1 & H).
    apply createVbo_Ret in Hc1 as (Hv1 & Hh1 & Hd1 & Hg1 & Hl1).
    apply mret_Ret in H as [<- <-]. simpl_obj.
    rewrite Hg1, Hl1, Hd1, Hd0, Hl0, Hv1, Hg0, Hj0, Hv0. simpl_obj.
    rewrite <- !app_assoc. done.
  - apply bind_Ret in H as (v0 & w2 & Hc0 & H).
    apply createVbo_Ret in Hc0 as (Hv0 & Hh0 & Hd0 & Hg0 & Hl0).
    apply mret_Ret in H as [<- <-]. simpl_obj.
    rewrite Hg0, Hl0, Hd0, Hv0. simpl_obj. rewrite <- !app_assoc. done.
Qed.

(** The device memory of [alloc] without a graphics buffer. *)
Lemma alloc_device size db ea g0 w g w' :
  alloc sizeofT size false db ea g0 w = Ret g w' →
  let a := fresh_name (W_host w) in
  let b := Block (size * sizeofT) (W_junk w) in
  let p0 := fresh_name (W_dev w) in
  let p1 := fresh_name (<[p0 := b]> (W_dev w)) in
  m_vbo0 g = m_vbo0 g0 ∧ m_vbo1 g = m_vbo1 g0 ∧ W_gl w' = W_gl w ∧
  m_dptr0 g = p0 ∧
  if db then
    m_dptr1 g = p1 ∧ W_dev w' = <[p1 := b]> (<[p0 := b]> (W_dev w)) ∧
    W_log w' = W_log w ++ [Acquire (HostArray a);
                           Acquire (DeviceMem p0); Acquire (DeviceMem p1)]
  else
    m_dptr1 g = m_dptr1 g0 ∧ W_dev w' = <[p0 := b]> (W_dev w) ∧
    W_log w' = W_log w ++ [Acquire (HostArray a); Acquire (DeviceMem p0)].
Proof.
  intros H. unfold alloc, allocHost in H.
  apply bind_Ret in H as (g1 & w1 & Hh & H).
  apply bind_Ret in Hh as (a & w0 & Hn & Hh).
  apply mret_Ret in Hh as [<- <-].
  apply new_array_Ret in Hn as (Hlt & -> & ->).
  destruct db; unfold allocDevice in H; simpl_obj;
    rewrite to_size_t_small in H by exact Hlt.
  - apply bind_Ret in H as (p0 & w2 & Hm0 & H).
    apply cutilSafeCall_Ret, cudaMalloc_Ok in Hm0 as (-> & ->).
    apply bind_Ret in H as (p1 & w3 & Hm1 & H).
    apply cutilSafeCall_Ret, cudaMalloc_Ok in Hm1 as (-> & ->).
    apply mret_Ret in H as [<- <-]. simpl_obj.
    rewrite <- !app_assoc. done.
  - apply bind_Ret in H as (p0 & w2 & Hm0 & H).
    apply cutilSafeCall_Ret, cudaMalloc_Ok in Hm0 as (-> & ->).
    apply mret_Ret in H as [<- <-]. simpl_obj.
    rewrite <- !app_assoc. done.
Qed.

(** [alloc] only acquires. *)
Lemma alloc_only_acquires size vbo db ea g0 w g w' :
  alloc sizeofT size vbo db ea g0 w = Ret g w' →
  W_host w ⊆ W_host w' ∧ W_dev w ⊆ W_dev w' ∧ W_gl w ⊆ W_gl w' ∧
  m_hptr g ≠ 0 ∧ W_host w !! m_hptr g = None ∧
  ∃ l, W_log w' = W_log w ++ l ∧ Forall (λ e, ∃ r, e = Acquire r) l.
Proof.
  intros H. pose proof (alloc_host _ _ _ _ _ _ _ _ H) as (Hp & Hh & _).
  rewrite Hp, Hh.
  assert (W_host w ⊆ <[fresh_name (W_host w) :=
                         Block (size * sizeofT) (W_junk w)]> (W_host w))
    as Hsub by apply insert_subseteq, fresh_name_None.
  destruct vbo.
  - pose proof (alloc_vbo _ _ _ _ _ _ _ H) as (_ & _ & Hd & _ & Hrest).
    rewrite Hd. destruct db; destruct Hrest as (_ & Hg & Hl); rewrite Hg, Hl.
    + split_and!; [done | done | | apply fresh_name_nonzero
                   | apply fresh_name_None | eexists; split; [done|]].
      * etrans; [apply insert_subseteq, fresh_name_None|].
        apply insert_subseteq, fresh_name_None.
      * repeat constructor; eauto.
    + split_and!; [done | done | apply insert_subseteq, fresh_name_None
                   | apply fresh_name_nonzero | apply fresh_name_None
                   | eexists; split; [done|]].
      repeat constructor; eauto.
  - pose proof (alloc_device _ _ _ _ _ _ _ H) as (_ & _ & Hg & _ & Hrest).
    rewrite Hg. destruct db; destruct Hrest as (_ & Hd & Hl); rewrite Hd, Hl.
    + split_and!; [done | | done | apply fresh_name_nonzero
                   | apply fresh_name_None | eexists; split; [done|]].
      * etrans; [apply insert_subseteq, fresh_name_None|].
        apply insert_subseteq, fresh_name_None.
      * repeat constructor; eauto.
    + split_and!; [done | apply insert_subseteq, fresh_name_None | done
                   | apply fresh_name_nonzero | apply fresh_name_None
                   | eexists; split; [done|]].
      repeat constructor; eauto.
Qed.

(** [alloc] never releases anything and never hands out a live address:
    whatever the object and the process were, every host array, device
    allocation and buffer object that exists before a returning [alloc]
    exists unchanged after it, the log gains acquisitions only, and the new
    host pointer is non-null and was not live before. On an object that is
    already allocated, [alloc] therefore leaves the previous resources live,
    and the previous host array with nothing pointing to it. The fields
    this [alloc] does not assign keep what they held: the buffer names when
    it allocates device memory, the device pointers when it creates buffer
    objects, and the second of the pair it does assign when it is not
    double-buffered. *)
Theorem alloc_never_releases size vbo db ea g0 w g w' :
  alloc sizeofT size vbo db ea g0 w = Ret g w' →
  W_host w ⊆ W_host w' ∧ W_dev w ⊆ W_dev w' ∧ W_gl w ⊆ W_gl w' ∧
  m_hptr g ≠ 0 ∧ W_host w !! m_hptr g = None ∧
  (∃ l, W_log w' = W_log w ++ l ∧ Forall (λ e, ∃ r, e = Acquire r) l) ∧
  (if vbo then m_dptr g 0 = m_dptr g0 0 ∧ m_dptr g 1 = m_dptr g0 1
   else m_vbo g 0 = m_vbo g0 0 ∧ m_vbo g 1 = m_vbo g0 1) ∧
  (db = false →
   if vbo then m_vbo g 1 = m_vbo g0 1 else m_dptr g 1 = m_dptr g0 1).
Proof.
  intros H.
  pose proof (alloc_only_acquires _ _ _ _ _ _ _ _ H)
    as (Hh & Hd & Hg & Hp & Hf & Hl).
  split_and!; try done.
  - destruct vbo.
    + pose proof (alloc_vbo _ _ _ _ _ _ _ H) as (H0 & H1 & _). by split.
    + pose proof (alloc_device _ _ _ _ _ _ _ H) as (H0 & H1 & _). by split.
  - intros ->. destruct vbo.
    + pose proof (alloc_vbo _ _ _ _ _ _ _ H) as (_ & _ & _ & _ & H1 & _).
      exact H1.
    + pose proof (alloc_device _ _ _ _ _ _ _ H) as (_ & _ & _ & _ & H1 & _).
      exact H1.
Qed.

(** What the accessors give once [alloc] has returned on a new object. The
    size is the one asked for and the host pointer is a live array. Without
    a graphics buffer both device pointers are live allocations, two
    different ones if double-buffered and the same one if not, and there is
    no buffer name. With a graphics buffer the buffer names are non-zero,
    different if double-buffered, and both device pointers are null: the
    object has to be mapped before it has a device pointer. *)
Theorem alloc_accessors i1 i2 size vbo db ea w g w' :
  alloc sizeofT size vbo db ea (GpuArray_ctor i1 i2) w = Ret g w' →
  getSize g = size ∧ getHostPtr g ≠ 0 ∧ is_Some (W_host w' !! getHostPtr g) ∧
  if vbo then
    getDevicePtr g = 0 ∧ getDeviceWritePtr g = 0 ∧
    getVbo g ≠ 0 ∧ getWriteVbo g ≠ 0 ∧
    is_Some (W_gl w' !! getVbo g) ∧ is_Some (W_gl w' !! getWriteVbo g) ∧
    (if db then getVbo g ≠ getWriteVbo g else getVbo g = getWriteVbo g)
  else
    getVbo g = 0 ∧ getWriteVbo g = 0 ∧
    getDevicePtr g ≠ 0 ∧ getDeviceWritePtr g ≠ 0 ∧
    is_Some (W_dev w' !! getDevicePtr g) ∧
    is_Some (W_dev w' !! getDeviceWritePtr g) ∧
    (if db then getDevicePtr g ≠ getDeviceWritePtr g
     else getDevicePtr g = getDeviceWritePtr g).
Proof.
  intros H.
  pose proof (alloc_fields _ _ _ _ _ _ _ _ H) as (Hs & _ & Hdb & Hr & Hw).
  pose proof (alloc_host _ _ _ _ _ _ _ _ H) as (Hp & Hh & _).
  unfold getSize, getHostPtr, getDevicePtr, getDeviceWritePtr, getVbo,
    getWriteVbo.
  rewrite Hr, Hw, Hp, Hh, lookup_insert_eq. simpl_obj.
  split; [exact Hs|]. split; [apply fresh_name_nonzero|]. split; [done|].
  destruct vbo.
  - pose proof (alloc_vbo _ _ _ _ _ _ _ H) as (Hd0 & Hd1 & _ & Hv0 & Hrest).
    simpl_obj.
    destruct db; destruct Hrest as (Hv1 & Hg & _); simpl_obj;
      rewrite ?Hd0, ?Hd1, ?Hv0, ?Hv1, Hg.
    + set (b := GlBuf (size * sizeofT) (W_junk w) ea true true None).
      assert (fresh_name (W_gl w) ≠ fresh_name (<[fresh_name (W_gl w) := b]> (W_gl w)))
        as Hne.
      { intros Heq.
        pose proof (fresh_name_None (<[fresh_name (W_gl w) := b]> (W_gl w))) as Hf.
        rewrite <- Heq, lookup_insert_eq in Hf. discriminate. }
      rewrite lookup_insert_eq, lookup_insert_ne, lookup_insert_eq by congruence.
      split_and!; try done; apply fresh_name_nonzero.
    + rewrite lookup_insert_eq.
      split_and!; try done; apply fresh_name_nonzero.
  - pose proof (alloc_device _ _ _ _ _ _ _ H) as (Hv0 & Hv1 & _ & Hd0 & Hrest).
    simpl_obj.
    destruct db; destruct Hrest as (Hd1 & Hd & _); simpl_obj;
      rewrite ?Hd0, ?Hd1, ?Hv0, ?Hv1, Hd.
    + set (b := Block (size * sizeofT) (W_junk w)).
      assert (fresh_name (W_dev w) ≠ fresh_name (<[fresh_name (W_dev w) := b]> (W_dev w)))
        as Hne.
      { intros Heq.
        pose proof (fresh_name_None (<[fresh_name (W_dev w) := b]> (W_dev w))) as Hf.
        rewrite <- Heq, lookup_insert_eq in Hf. discriminate. }
      rewrite lookup_insert_eq, lookup_insert_ne, lookup_insert_eq by congruence.
      split_and!; try done; apply fresh_name_nonzero.
    + rewrite lookup_insert_eq.
      split_and!; try done; apply fresh_name_nonzero.
Qed.

(** ** [alloc] then [free], with a graphics buffer *)

Lemma cudaGLUnregisterBufferObject_Ok v b w :
  W_gl w !! v = Some b → gl_registered b = true → gl_mapped b = None →
  cudaGLUnregisterBufferObject v w =
    ApiOk tt (logged (Release (GlRegistration v))
      (with_gl <[v := GlBuf (gl_bytes b) (gl_data b) (gl_elementArray b)
                         false (gl_writeDiscard b) None]> w)).
Proof.
  intros Hb Hr Hm. unfold cudaGLUnregisterBufferObject.
  rewrite Hb, Hr, Hm. reflexivity.
Qed.

(** [free] on an allocated object that uses buffer objects. *)
Lemma free_vbo_backed g w :
  allocated sizeofT g w → m_useVBO g = true →
  ∃ g2 w2,
    free g w = Ret g2 w2 ∧
    W_host w2 = delete (m_hptr g) (W_host w) ∧ W_dev w2 = W_dev w ∧
    W_host_avail w2 = W_host_avail w + m_size g * sizeofT ∧
    W_gl w2 = (if m_doubleBuffer g
               then delete (m_vbo g 1) (delete (m_vbo g 0) (W_gl w))
               else delete (m_vbo g 0) (W_gl w)) ∧
    W_log w2 = W_log w ++
      [Release (HostArray (m_hptr g));
       Release (GlRegistration (m_vbo g 0)); Release (GlBuffer (m_vbo g 0))] ++
      (if m_doubleBuffer g
       then [Release (GlRegistration (m_vbo g 1)); Release (GlBuffer (m_vbo g 1))]
       else []).
Proof.
  intros (_ & (Hp & _ & hb & Hhb & Hbytes) & Hrest) Hvbo.
  rewrite Hvbo in Hrest.
  destruct Hrest as ((Hv0 & b0 & Hb0 & _ & Hreg0 & _ & Hmap0) & Hrest).
  unfold free, freeHost. rewrite (eqb_nonzero _ Hp).
  unfold delete_array, freeVbo, m_vbo_as_condition, mbind, M_bind, mret, M_ret,
    cutilSafeCall.
  rewrite Hhb, Hbytes. simpl_obj. rewrite (eqb_nonzero _ Hv0).
  erewrite cudaGLUnregisterBufferObject_Ok; [| simpl_obj; exact Hb0 | done..].
  unfold glDeleteBuffers at 1. simpl_obj. rewrite lookup_insert_eq. simpl_obj.
  destruct (m_doubleBuffer g) eqn:Hdb.
  - destruct Hrest as ((Hv1 & b1 & Hb1 & _ & Hreg1 & _ & Hmap1) & Hne).
    simpl_obj. rewrite (eqb_nonzero _ Hv1).
    erewrite cudaGLUnregisterBufferObject_Ok;
      [| simpl_obj; rewrite lookup_delete_ne, lookup_insert_ne by done;
         exact Hb1 | done..].
    unfold glDeleteBuffers. simpl_obj. rewrite lookup_insert_eq. simpl_obj.
    eexists _, _. split; [reflexivity|]. simpl_obj.
    rewrite !delete_insert_eq, <- !app_assoc. done.
  - rewrite Hrest. simpl_obj.
    eexists _, _. split; [reflexivity|]. simpl_obj.
    rewrite !delete_insert_eq, <- !app_assoc. done.
Qed.

(** With a graphics buffer [alloc] then [free] leaks nothing: the [free]
    returns, host heap, device heap, buffer objects and the host allocator's
    supply are what they were before the [alloc], the object holds null
    pointers and no buffer name, and the log shows each resource acquired
    once and released once. *)
Theorem alloc_free_with_buffers i1 i2 size db ea w g w1 :
  alloc sizeofT size true db ea (GpuArray_ctor i1 i2) w = Ret g w1 →
  ∃ g2 w2,
    free g w1 = Ret g2 w2 ∧
    W_host w2 = W_host w ∧ W_dev w2 = W_dev w ∧ W_gl w2 = W_gl w ∧
    W_host_avail w2 = W_host_avail w ∧
    m_hptr g2 = 0 ∧ m_vbo g2 0 = 0 ∧ m_vbo g2 1 = 0 ∧
    m_dptr g2 0 = 0 ∧ m_dptr g2 1 = 0 ∧
    W_log w2 = W_log w ++
      [Acquire (HostArray (m_hptr g));
       Acquire (GlBuffer (m_vbo g 0)); Acquire (GlRegistration (m_vbo g 0))] ++
      (if db then [Acquire (GlBuffer (m_vbo g 1));
                   Acquire (GlRegistration (m_vbo g 1))] else []) ++
      [Release (HostArray (m_hptr g));
       Release (GlRegistration (m_vbo g 0)); Release (GlBuffer (m_vbo g 0))] ++
      (if db then [Release (GlRegistration (m_vbo g 1));
                   Release (GlBuffer (m_vbo g 1))] else []).
Proof.
  intros H.
  pose proof (alloc_allocated _ _ _ _ _ _ _ _ _ H) as (Hall & Hsz & Hvbo & Hdb).
  pose proof (alloc_host _ _ _ _ _ _ _ _ H) as (Hp & Hh & _ & Hfit & Hav).
  pose proof (alloc_vbo _ _ _ _ _ _ _ H) as (Hd0 & Hd1 & Hd & Hv0 & Hrest).
  destruct (free_vbo_backed _ _ Hall Hvbo)
    as (g2 & w2 & Hfree & Hh2 & Hdev2 & Hav2 & Hg2 & Hl2).
  pose proof (free_clears _ _ _ _ Hfree) as (Hc1 & Hc2 & Hc3 & Hc4 & Hc5).
  exists g2, w2. split; [exact Hfree|].
  rewrite Hh2, Hdev2, Hav2, Hg2, Hl2, Hc4, Hc5, Hdb, Hsz, Hav, Hh, Hp, Hd.
  simpl_obj. rewrite Hd0, Hd1, Hv0.
  rewrite delete_insert_id by apply fresh_name_None.
  split; [done|]. split; [done|].
  destruct db; destruct Hrest as (Hv1 & Hg & Hl); rewrite ?Hv1, Hg, Hl.
  - set (b := GlBuf (size * sizeofT) (W_junk w) ea true true None).
    assert (fresh_name (W_gl w) ≠ fresh_name (<[fresh_name (W_gl w) := b]> (W_gl w)))
      as Hne.
    { intros Heq.
      pose proof (fresh_name_None (<[fresh_name (W_gl w) := b]> (W_gl w))) as Hf.
      rewrite <- Heq, lookup_insert_eq in Hf. discriminate. }
    assert (W_gl w !! fresh_name (<[fresh_name (W_gl w) := b]> (W_gl w)) = None)
      as Hfresh.
    { pose proof (fresh_name_None (<[fresh_name (W_gl w) := b]> (W_gl w))) as Hf.
      rewrite lookup_insert_ne in Hf by done. exact Hf. }
    rewrite delete_insert_ne by done.
    rewrite (delete_insert_id (W_gl w)) by apply fresh_name_None.
    rewrite delete_insert_id by exact Hfresh.
    split_and!; try done; try lia. rewrite <- !app_assoc. done.
  - rewrite delete_insert_id by apply fresh_name_None.
    split_and!; try done; try lia. rewrite <- !app_assoc. done.
Qed.

(** ** Writing through a mapped pointer *)

Lemma in_block_element (b : block T) i size :
  blk_bytes b = size * sizeofT → i < size → in_block sizeofT b i sizeofT = true.
Proof.
  intros Hb Hi. unfold in_block. rewrite Hb. apply N.leb_le. nia.
Qed.

(** The interop session does what it is for. On an allocated object that
    uses buffer objects, [map] returns, a store of [x] at an element [i]
    inside the buffer through the device pointer returns, [unmap] returns
    and leaves the object allocated, and the store of the buffer object of
    the read slot then holds [x] at [i] and, everywhere else, what the map
    had exposed. *)
Theorem mapped_write_reaches_buffer g w i x :
  allocated sizeofT g w → m_useVBO g = true → i < m_size g →
  ∃ g1 w1 w2 g3 w3 d d',
    map g w = Ret g1 w1 ∧
    deviceWrite sizeofT (getDevicePtr g1) i x w1 = Ret tt w2 ∧
    unmap g1 w2 = Ret g3 w3 ∧
    allocated sizeofT g3 w3 ∧
    slot_seen g w (m_currentRead g) = Some d ∧
    slot_data g3 w3 (m_currentRead g) = Some d' ∧
    d' i = x ∧ ∀ j, j ≠ i → d' j = d j.
Proof.
  intros Hall Hvbo Hi.
  destruct (map_allocated _ _ Hall)
    as (g1 & w1 & Hmap & Ht & Hsame & _ & _ & d & Hseen & Hdev).
  pose proof Hsame as (Hsz & _ & _ & _ & _ & _ & Hrd & _).
  destruct (in_transfer_read_slot _ _ Ht) as (blk & Hblk & Hbytes).
  rewrite Hsz in Hbytes.
  pose proof (in_block_element _ _ _ Hbytes Hi) as Hin.
  set (blk' := Block (blk_bytes blk) (λ j, if j =? i then x else blk_data blk j)).
  assert (in_transfer sizeofT g1 (with_dev <[getDevicePtr g1 := blk']> w1))
    as Ht2 by (eapply in_transfer_update_dev; [exact Ht | exact Hblk | done]).
  destruct (unmap_in_transfer _ _ Ht2)
    as (g3 & w3 & Hun & Hall3 & _ & _ & _ & Hslot & _).
  exists g1, w1, (with_dev <[getDevicePtr g1 := blk']> w1), g3, w3, d,
    (blk_data blk').
  unfold dev_data in Hdev. rewrite <- Hrd, Hblk in Hdev.
  injection Hdev as <-.
  split_and!; try done.
  - unfold deviceWrite, getDevicePtr. rewrite Hblk, Hin. reflexivity.
  - rewrite <- Hrd, Hslot. unfold dev_data, getDevicePtr. wcbn.
    rewrite lookup_insert_eq. reflexivity.
  - unfold blk'. wcbn. by rewrite N.eqb_refl.
  - intros j Hj. unfold blk'. wcbn.
    destruct (j =? i) eqn:Hji; [|reflexivity].
    apply N.eqb_eq in Hji. contradiction.
Qed.

(** ** More on [copy] *)

Lemma bind_Exit {A B} (m : M T A) (k : A → M T B) w s :
  m w = Exit s → (m ≫= k) w = Exit s.
Proof. unfold mbind, M_bind. intros ->. reflexivity. Qed.

(** [copy] checks no bounds itself (the assertion on [start] is commented
    out): a range that leaves the buffer is found by [cudaMemcpy], and
    [cutilSafeCall] ends the process. On an allocated object a [copy] whose
    range ends past the last element does not return; the process exits
    with status -1, in either direction, with or without buffer objects. *)
Theorem copy_out_of_range_exits dir start count g w :
  allocated sizeofT g w →
  m_size g < start + effective_count g count →
  (start + effective_count g count) * sizeofT < size_max →
  copy sizeofT dir start count g w = Exit (-1).
Proof.
  intros Hall Hout Hwrap. unfold copy. fold (effective_count g count).
  set (n := effective_count g count) in *.
  destruct (copy_enter _ _ Hall)
    as (w1 & g1 & w2 & d & Hs1 & Hmap & Ht2 & Hsame1 & _).
  rewrite (bind_Ret_l _ _ w (renderDevID w) w) by reflexivity.
  rewrite (bind_Ret_l _ _ _ _ _ Hs1), (bind_Ret_l _ _ _ _ _ Hmap).
  pose proof Hsame1 as (Hsz1 & _).
  destruct (in_transfer_read_slot _ _ Ht2) as (blk & Hblk & Hbytes).
  pose proof Ht2 as (_ & (_ & Hlt & hb & Hhb & Hhbytes) & _).
  rewrite Hsz1 in Hbytes, Hhbytes.
  assert (n * sizeofT < size_max) as Hsmall by nia.
  assert (in_block sizeofT blk start (n * sizeofT) = false) as Hin1
    by (unfold in_block; rewrite Hbytes; apply N.leb_gt; nia).
  assert (in_block sizeofT hb start (n * sizeofT) = false) as Hin2
    by (unfold in_block; rewrite Hhbytes; apply N.leb_gt; nia).
  apply bind_Exit.
  destruct dir; unfold cutilSafeCall, cudaMemcpy;
    rewrite to_size_t_small by exact Hsmall; rewrite Hblk, Hhb;
    rewrite ?Hin1, ?Hin2; reflexivity.
Qed.

Lemma set_device_rest d w u w' :
  unchecked (cudaSetDevice d) w = Ret u w' →
  W_host w' = W_host w ∧ W_dev w' = W_dev w ∧ W_gl w' = W_gl w ∧
  W_log w' = W_log w ∧ W_host_avail w' = W_host_avail w ∧
  W_dev_avail w' = W_dev_avail w.
Proof.
  unfold unchecked, cudaSetDevice.
  destruct ((0 <=? d)%Z && (d <? W_nDevices w)%Z); intros [= <- <-]; done.
Qed.

(** On an object without buffer objects [copy] touches one block and
    nothing else. When it returns the object is what it was, nothing has
    been acquired or released, and of the two heaps only the block written
    has changed: the read slot's allocation when copying to the device, the
    host array when copying to the host. The write slot of a double-buffered
    object is never touched. *)
Theorem copy_touches_one_block dir start count g w g' w' :
  allocated sizeofT g w → m_useVBO g = false →
  copy sizeofT dir start count g w = Ret g' w' →
  g' = g ∧ W_gl w' = W_gl w ∧ W_log w' = W_log w ∧
  W_host_avail w' = W_host_avail w ∧ W_dev_avail w' = W_dev_avail w ∧
  match dir with
  | HOST_TO_DEVICE =>
      W_host w' = W_host w ∧
      ∀ p, p ≠ getDevicePtr g → W_dev w' !! p = W_dev w !! p
  | DEVICE_TO_HOST =>
      W_dev w' = W_dev w ∧
      ∀ p, p ≠ getHostPtr g → W_host w' !! p = W_host w !! p
  end ∧
  (m_doubleBuffer g = true →
   W_dev w' !! getDeviceWritePtr g = W_dev w !! getDeviceWritePtr g).
Proof.
  intros Hall Hvbo H.
  pose proof Hall as (Hinv & _ & Hrest). rewrite Hvbo in Hrest.
  destruct Hrest as (Hv0 & Hv1 & _ & Hdb).
  pose proof (λ w0, map_unmap_noop g w0 Hv0 Hv1) as Hnoop.
  unfold copy in H.
  apply bind_Ret in H as (d1 & wa & Hg1 & H). apply global_Ret in Hg1 as [-> ->].
  apply bind_Ret in H as (u1 & w1 & Hs1 & H).
  apply set_device_rest in Hs1 as (Hh1 & Hd1 & Hgl1 & Hl1 & Ha1 & Hb1).
  apply bind_Ret in H as (g1 & w2 & Hm & H).
  rewrite (proj1 (Hnoop _)) in Hm.
  injection Hm as <- <-.
  apply bind_Ret in H as (u2 & w3 & Hc & H).
  apply bind_Ret in H as (g2 & w4 & Hu & H).
  rewrite (proj2 (Hnoop _)) in Hu.
  injection Hu as <- <-.
  apply bind_Ret in H as (d2 & wb & Hg2 & H). apply global_Ret in Hg2 as [-> ->].
  apply bind_Ret in H as (u3 & w5 & Hs2 & H).
  apply set_device_rest in Hs2 as (Hh5 & Hd5 & Hgl5 & Hl5 & Ha5 & Hb5).
  apply mret_Ret in H as [<- <-].
  rewrite Hh5, Hd5, Hgl5, Hl5, Ha5, Hb5.
  assert (m_doubleBuffer g = true →
          getDevicePtr g ≠ getDeviceWritePtr g) as Hslots.
  { intros Hd. unfold role_inv in Hinv. rewrite Hd in Hdb, Hinv.
    destruct Hdb as (_ & Hne).
    unfold getDevicePtr, getDeviceWritePtr.
    destruct Hinv as [[-> ->] | [-> ->]]; simpl_obj; congruence. }
  destruct dir; apply cutilSafeCall_Ret in Hc; unfold cudaMemcpy in Hc;
    repeat case_match; simplify_eq; wcbn;
    rewrite ?Hh1, ?Hd1, ?Hgl1, ?Hl1, ?Ha1, ?Hb1;
    (split_and!; try done);
    try (intros p Hp; unfold getDevicePtr, getHostPtr in Hp;
         by rewrite lookup_insert_ne);
    try (intros Hd; apply Hslots in Hd; unfold getDevicePtr in Hd;
         by rewrite lookup_insert_ne).
Qed.

(** ** Write, [swap], [copy] *)

Lemma allocated_swap g w : allocated sizeofT g w → allocated sizeofT (swap g) w.
Proof.
  intros (Hinv & Hrest). split; [by apply swap_role_inv | exact Hrest].
Qed.

Lemma allocated_update_dev g w p blk blk' :
  allocated sizeofT g w →
  W_dev w !! p = Some blk → blk_bytes blk' = blk_bytes blk →
  allocated sizeofT g (with_dev <[p := blk']> w).
Proof.
  intros (Hinv & Hhost & Hrest) Hp Hbytes. split; [exact Hinv|].
  split; [exact Hhost|].
  pose proof (dev_ok_update g w p blk blk') as Hd.
  destruct (m_useVBO g), (m_doubleBuffer g).
  - exact Hrest.
  - exact Hrest.
  - destruct Hrest as (H0 & H1 & H2 & H3 & Hne). split_and!; auto.
  - destruct Hrest as (H0 & H1 & H2 & _). split_and!; auto.
Qed.

(** Double buffering end to end. On an allocated double-buffered object in
    plain device memory, of fewer than 2^32 elements: a store of [x] at an
    element [i] inside the buffer through the write pointer returns; after
    [swap], a [copy(DEVICE_TO_HOST)] with the default arguments returns, and
    the host array then holds [x] at [i] and the former contents of the
    write slot at every other element. *)
Theorem write_swap_copy g w i x :
  allocated sizeofT g w → m_useVBO g = false → m_doubleBuffer g = true →
  m_size g < uint_max → i < m_size g →
  ∃ w1 g' w' d h',
    deviceWrite sizeofT (getDeviceWritePtr g) i x w = Ret tt w1 ∧
    copy sizeofT DEVICE_TO_HOST 0 0 (swap g) w1 = Ret g' w' ∧
    dev_data g w (m_currentWrite g) = Some d ∧
    host_data g' w' = Some h' ∧
    h' i = x ∧ ∀ j, j < m_size g → j ≠ i → h' j = d j.
Proof.
  intros Hall Hvbo Hdb Hsmall Hi.
  pose proof Hall as (Hinv & _ & Hrest). rewrite Hvbo, Hdb in Hrest.
  destruct Hrest as (_ & _ & Hd0 & Hd1 & _).
  assert (∃ blk, W_dev w !! getDeviceWritePtr g = Some blk ∧
                 blk_bytes blk = m_size g * sizeofT) as (blk & Hblk & Hbytes).
  { unfold role_inv in Hinv. rewrite Hdb in Hinv. unfold getDeviceWritePtr.
    destruct Hinv as [[_ ->] | [_ ->]].
    - destruct Hd1 as (_ & b & Hb & Hbb). eauto.
    - destruct Hd0 as (_ & b & Hb & Hbb). eauto. }
  pose proof (in_block_element _ _ _ Hbytes Hi) as Hin.
  set (blk' := Block (blk_bytes blk) (λ j, if j =? i then x else blk_data blk j)).
  set (w1 := with_dev <[getDeviceWritePtr g := blk']> w).
  assert (allocated sizeofT (swap g) w1) as Hall1.
  { apply allocated_swap. eapply allocated_update_dev; [exact Hall | exact Hblk | done]. }
  assert (effective_count (swap g) 0 = m_size g) as Hn
    by (apply (effective_count_default (swap g)); exact Hsmall).
  assert (0 + effective_count (swap g) 0 ≤ m_size (swap g)) as Hle
    by (rewrite Hn; cbn [swap set_currentWrite set_currentRead m_size]; lia).
  destruct (copy_to_host 0 0 (swap g) w1 Hall1 Hle)
    as (g' & w' & h & dd & Hc & _ & _ & _ & Hh & Hdd & Hh' & _).
  exists w1, g', w', (blk_data blk), (blit h dd 0 0 (effective_count (swap g) 0)).
  assert (dd = blk_data blk') as ->.
  { unfold slot_seen, slot_data in Hdd.
    cbn [swap set_currentWrite set_currentRead m_useVBO m_currentRead m_dptr
         m_dptr0 m_dptr1] in Hdd.
    rewrite Hvbo in Hdd. unfold w1, getDeviceWritePtr, m_dptr in Hdd.
    wcbn in Hdd. rewrite lookup_insert_eq in Hdd. wcbn in Hdd.
    by injection Hdd as <-. }
  split_and!.
  - unfold deviceWrite. rewrite Hblk, Hin. reflexivity.
  - exact Hc.
  - unfold dev_data. fold (getDeviceWritePtr g). rewrite Hblk. reflexivity.
  - exact Hh'.
  - rewrite blit_same_offset, Hn. unfold in_range, blk'. wcbn.
    rewrite N.eqb_refl.
    replace (0 <=? i) with true by (symmetry; apply N.leb_le; lia).
    replace (i <? 0 + m_size g) with true by (symmetry; apply N.ltb_lt; lia).
    reflexivity.
  - intros j Hj Hji. rewrite blit_same_offset, Hn. unfold in_range, blk'. wcbn.
    replace (0 <=? j) with true by (symmetry; apply N.leb_le; lia).
    replace (j <? 0 + m_size g) with true by (symmetry; apply N.ltb_lt; lia).
    wcbn. destruct (j =? i) eqn:Heq; [|reflexivity].
    apply N.eqb_eq in Heq. contradiction.
Qed.

End GpuArrayFacts.

(** ** The properties at concrete inputs *)

Lemma device_array_allocated :
  allocated 4 device_array.1 device_array.2 ∧ m_useVBO device_array.1 = false.
Proof.
  destruct (alloc_allocated 4 false false 4 false false false process0
              device_array.1 device_array.2) as (H & _ & Hv & _);
    [vm_compute; reflexivity | done].
Qed.

Lemma vbo_array_allocated :
  allocated 4 vbo_array.1 vbo_array.2 ∧ m_useVBO vbo_array.1 = true.
Proof.
  destruct (alloc_allocated 4 false false 4 true true false process0
              vbo_array.1 vbo_array.2) as (H & _ & Hv & _);
    [vm_compute; reflexivity | done].
Qed.

(** Witness of C1's theorem: four elements, single-buffered, in device
    memory. *)
Lemma free_leaks_device_memory_witness :
  ∃ g2 w2,
    free device_array.1 device_array.2 = Ret g2 w2 ∧
    W_log w2 = W_log device_array.2 ++ [Release (HostArray (m_hptr device_array.1))] ∧
    W_dev w2 = W_dev device_array.2 ∧
    m_dptr g2 0 = m_dptr device_array.1 0 ∧ m_dptr device_array.1 0 ≠ 0 ∧
    is_Some (W_dev w2 !! m_dptr device_array.1 0).
Proof.
  apply (free_leaks_device_memory 4 false false 4 false false process0
           device_array.1 device_array.2).
  vm_compute. reflexivity.
Defined.

(** C2 fails on the code when an object is allocated again: a double-buffered
    object that was swapped and freed, then allocated double-buffered once
    more, has both role indices equal to 1. *)
Lemma role_inv_broken_by_second_alloc :
  match run 4 alloc_twice new_object process0 with
  | Ret g _ =>
      m_doubleBuffer g = true ∧ m_currentRead g = 1 ∧ m_currentWrite g = 1 ∧
      ¬ role_inv g
  | _ => False
  end.
Proof.
  vm_compute. split_and!; try reflexivity. intros [[H _] | [_ H]]; discriminate.
Qed.

Lemma after_swap_copy_swap_run :
  run 4 swap_copy_swap new_object process0
    = Ret after_swap_copy_swap.1 after_swap_copy_swap.2.
Proof. vm_compute. reflexivity. Qed.

(** Witness of C2's theorem: allocate double-buffered, swap, copy, swap. *)
Lemma role_inv_allocated_once_witness :
  if existsb is_alloc swap_copy_swap then role_inv after_swap_copy_swap.1
  else m_currentRead after_swap_copy_swap.1 = 0 ∧
       m_currentWrite after_swap_copy_swap.1 = 0.
Proof.
  apply (role_inv_allocated_once 4 false false swap_copy_swap process0
           after_swap_copy_swap.1 after_swap_copy_swap.2).
  - vm_compute. lia.
  - exact after_swap_copy_swap_run.
Defined.

(** C6 fails on the code: on a single-buffered object [swap] is not
    rejected. It returns, and object and process are what they were. *)
Lemma swap_on_single_buffer_returns :
  m_doubleBuffer device_array.1 = false ∧
  step 4 OpSwap device_array.1 device_array.2
    = Ret device_array.1 device_array.2.
Proof. split; vm_compute; reflexivity. Qed.

(** Witness of C6's theorem, on the same object. *)
Lemma swap_never_rejects_witness :
  step 4 OpSwap device_array.1 device_array.2
    = Ret (swap device_array.1) device_array.2 ∧
  m_currentRead (swap device_array.1) = m_currentWrite device_array.1 ∧
  m_currentWrite (swap device_array.1) = m_currentRead device_array.1 ∧
  role_inv (swap device_array.1) ∧
  if m_doubleBuffer device_array.1
  then m_currentRead (swap device_array.1) ≠ m_currentRead device_array.1
  else swap device_array.1 = device_array.1.
Proof.
  apply (swap_never_rejects (T:=Z) 4 device_array.1 device_array.2).
  vm_compute. split; reflexivity.
Defined.

(** C5 fails on the code: entered while the rendering device (1) is active,
    [copy] returns with the compute device (0) active. *)
Lemma copy_changes_active_device :
  match alloc 4 4 false false false new_object process_rendering with
  | Ret g w =>
      W_curDevice w = 1%Z ∧
      match copy 4 HOST_TO_DEVICE 0 0 g w with
      | Ret _ w' => W_curDevice w' = 0%Z
      | _ => False
      end
  | _ => False
  end.
Proof. vm_compute. split; reflexivity. Qed.

Lemma rendering_copied_run :
  copy 4 HOST_TO_DEVICE 0 0 rendering_array.1 rendering_array.2
    = Ret rendering_copied.1 rendering_copied.2.
Proof. vm_compute. reflexivity. Qed.

(** Witness of C5's theorem: a full copy on a four-element array, entered
    while the rendering device (1) is active. *)
Lemma copy_leaves_devID_active_witness :
  let during :=
    if valid_device rendering_array.2 (renderDevID rendering_array.2)
    then renderDevID rendering_array.2 else W_curDevice rendering_array.2 in
  let bytes :=
    to_size_t ((if 0 =? 0 then to_uint (m_size rendering_array.1) else 0) * 4) in
  (∃ w1 g1 w2 w3 w4,
     unchecked (cudaSetDevice (renderDevID rendering_array.2)) rendering_array.2
       = Ret tt w1 ∧
     map rendering_array.1 w1 = Ret g1 w2 ∧
     cutilSafeCall (cudaMemcpy 4 HOST_TO_DEVICE
                      (m_dptr g1 (m_currentRead g1)) 0 (m_hptr g1) 0 bytes) w2
       = Ret tt w3 ∧
     unmap g1 w3 = Ret rendering_copied.1 w4 ∧
     unchecked (cudaSetDevice (devID rendering_array.2)) w4
       = Ret tt rendering_copied.2 ∧
     W_curDevice w1 = during ∧ W_curDevice w2 = during ∧
     W_curDevice w3 = during ∧ W_curDevice w4 = during) ∧
  W_curDevice rendering_copied.2
    = (if valid_device rendering_array.2 (devID rendering_array.2)
       then devID rendering_array.2 else during) ∧
  (valid_device rendering_array.2 (devID rendering_array.2) = true →
   W_curDevice rendering_copied.2 = devID rendering_array.2 ∧
   (W_curDevice rendering_copied.2 = W_curDevice rendering_array.2
    ↔ W_curDevice rendering_array.2 = devID rendering_array.2)).
Proof.
  apply (copy_leaves_devID_active (T:=Z) 4 HOST_TO_DEVICE 0 0
           rendering_array.1 rendering_array.2
           rendering_copied.1 rendering_copied.2).
  exact rendering_copied_run.
Defined.

(** At that input the transfer runs on device 1 and [copy] returns on
    device 0. *)
Example rendering_copy_devices :
  W_curDevice rendering_array.2 = 1%Z ∧
  renderDevID rendering_array.2 = 1%Z ∧ devID rendering_array.2 = 0%Z ∧
  W_curDevice rendering_copied.2 = 0%Z.
Proof. vm_compute. split_and!; reflexivity. Qed.



(** C7 fails on the code in two ways. With a count of 0 and a start of 2
    on four elements, the first copy asks for four elements from element 2
    on and the process exits. With a buffer object and a runtime that
    clears the store on a write-discard map, the host's element 1, set to
    7, is 0 after the two copies. *)
Lemma copy_round_trip_fails :
  copy 4 HOST_TO_DEVICE 2 0 device_array.1 device_array.2 = Exit (-1) ∧
  match (g ← alloc 4 4 true false false new_object;
         hostWrite 4 (getHostPtr g) 1 7%Z;;
         g ← copy 4 HOST_TO_DEVICE 0 4 g;
         copy 4 DEVICE_TO_HOST 0 4 g) process_discarding with
  | Ret g w =>
      match host_data g w with
      | Some h => h 1 = 0%Z
      | None => False
      end
  | _ => False
  end.
Proof. split; vm_compute; reflexivity. Qed.

(** Witness of C7's theorem: elements 1 and 2 of the four-element array. *)
Lemma copy_round_trip_witness :
  ∃ g1 w1 g2 w2 h h2,
    copy 4 HOST_TO_DEVICE 1 2 device_array.1 device_array.2 = Ret g1 w1 ∧
    copy 4 DEVICE_TO_HOST 1 2 g1 w1 = Ret g2 w2 ∧
    host_data device_array.1 device_array.2 = Some h ∧
    host_data g2 w2 = Some h2 ∧
    ∀ i, h2 i = h i.
Proof.
  apply (copy_round_trip (T:=Z) 4 ltac:(lia) 1 2 device_array.1 device_array.2).
  - apply device_array_allocated.
  - vm_compute. discriminate.
  - vm_compute. discriminate.
  - discriminate.
  - vm_compute. discriminate.
Defined.

(** The end-to-end scenario of the specification: a double-buffered array
    of four elements, 1 2 3 4 stored through the write pointer, [swap],
    [copy(DEVICE_TO_HOST)]: the host array holds 1 2 3 4. *)
Example end_to_end_double_buffer :
  match (g ← alloc 4 4 false true false new_object;
         deviceWrite 4 (getDeviceWritePtr g) 0 1%Z;;
         deviceWrite 4 (getDeviceWritePtr g) 1 2%Z;;
         deviceWrite 4 (getDeviceWritePtr g) 2 3%Z;;
         deviceWrite 4 (getDeviceWritePtr g) 3 4%Z;;
         copy 4 DEVICE_TO_HOST 0 0 (swap g)) process0 with
  | Ret g w =>
      match host_data g w with
      | Some h => h 0 = 1%Z ∧ h 1 = 2%Z ∧ h 2 = 3%Z ∧ h 3 = 4%Z
      | None => False
      end
  | _ => False
  end.
Proof. vm_compute. split_and!; reflexivity. Qed.

(** Witness of C8's theorem: the double-buffered buffer-object array. *)
Lemma unmap_nulls_device_pointer_witness :
  ∃ g1 w1,
    map vbo_array.1 vbo_array.2 = Ret g1 w1 ∧ getDevicePtr g1 ≠ 0 ∧
    ∀ p i x w2,
      deviceWrite 4 p i x w1 = Ret tt w2 →
      ∃ g3 w3,
        unmap g1 w2 = Ret g3 w3 ∧ getDevicePtr g3 = 0 ∧
        W_dev w3 !! getDevicePtr g1 = None.
Proof.
  apply (unmap_nulls_device_pointer (T:=Z) 4 vbo_array.1 vbo_array.2).
  - apply vbo_array_allocated.
  - vm_compute. reflexivity.
Defined.

(** ** More properties at concrete inputs *)

Lemma device_array_run :
  alloc 4 4 false false false new_object process0
    = Ret device_array.1 device_array.2.
Proof. vm_compute. reflexivity. Qed.

Lemma vbo_array_run :
  alloc 4 4 true true false new_object process0 = Ret vbo_array.1 vbo_array.2.
Proof. vm_compute. reflexivity. Qed.

Lemma double_array_allocated :
  allocated 4 double_array.1 double_array.2 ∧
  m_useVBO double_array.1 = false ∧ m_doubleBuffer double_array.1 = true.
Proof.
  destruct (alloc_allocated 4 false false 4 false true false process0
              double_array.1 double_array.2) as (H & _ & Hv & Hd);
    [vm_compute; reflexivity | done].
Qed.

Lemma freed_array_run :
  free device_array.1 device_array.2 = Ret freed_array.1 freed_array.2.
Proof. vm_compute. reflexivity. Qed.

Lemma read_back_array_run :
  copy 4 DEVICE_TO_HOST 1 2 device_array.1 device_array.2
    = Ret read_back_array.1 read_back_array.2.
Proof. vm_compute. reflexivity. Qed.

Lemma free_twice_witness :
  free freed_array.1 freed_array.2 = Ret freed_array.1 freed_array.2 ∧
  GpuArray_dtor freed_array.1 freed_array.2 = Ret freed_array.1 freed_array.2.
Proof.
  apply (free_twice (T:=Z) device_array.1 device_array.2
           freed_array.1 freed_array.2).
  exact freed_array_run.
Defined.

Lemma map_unmap_without_buffers_witness :
  run 4 [OpMap; OpMap; OpUnmap; OpUnmap; OpUnmap] device_array.1 device_array.2
    = Ret device_array.1 device_array.2.
Proof.
  apply (map_unmap_without_buffers (T:=Z) 4
           [OpMap; OpMap; OpUnmap; OpUnmap; OpUnmap]
           device_array.1 device_array.2).
  - vm_compute. reflexivity.
  - vm_compute. reflexivity.
  - repeat (apply List.Forall_cons; [first [by left | by right]|]).
    apply List.Forall_nil.
Defined.

(** Witness of [alloc_never_releases]: a double-buffered array allocated
    a second time, single-buffered: the second device pointer still names
    the allocation of the first [alloc]. *)
Lemma alloc_never_releases_witness :
  W_host double_array.2 ⊆ W_host single_array_again.2 ∧
  W_dev double_array.2 ⊆ W_dev single_array_again.2 ∧
  W_gl double_array.2 ⊆ W_gl single_array_again.2 ∧
  m_hptr single_array_again.1 ≠ 0 ∧
  W_host double_array.2 !! m_hptr single_array_again.1 = None ∧
  (∃ l, W_log single_array_again.2 = W_log double_array.2 ++ l ∧
        Forall (λ e, ∃ r, e = Acquire r) l) ∧
  (if false
   then m_dptr single_array_again.1 0 = m_dptr double_array.1 0 ∧
        m_dptr single_array_again.1 1 = m_dptr double_array.1 1
   else m_vbo single_array_again.1 0 = m_vbo double_array.1 0 ∧
        m_vbo single_array_again.1 1 = m_vbo double_array.1 1) ∧
  (false = false →
   if false then m_vbo single_array_again.1 1 = m_vbo double_array.1 1
   else m_dptr single_array_again.1 1 = m_dptr double_array.1 1).
Proof.
  apply (alloc_never_releases (T:=Z) 4 4 false false false
           double_array.1 double_array.2
           single_array_again.1 single_array_again.2).
  vm_compute. reflexivity.
Defined.

(** There the second device pointer is non-null and live. *)
Example single_array_again_keeps_slot :
  m_dptr single_array_again.1 1 ≠ 0 ∧
  is_Some (W_dev single_array_again.2 !! m_dptr single_array_again.1 1) ∧
  m_dptr single_array_again.1 1 ≠ m_dptr single_array_again.1 0.
Proof. vm_compute. split_and!; [discriminate | eauto | discriminate]. Qed.

Lemma alloc_accessors_witness :
  getSize vbo_array.1 = 4 ∧ getHostPtr vbo_array.1 ≠ 0 ∧
  is_Some (W_host vbo_array.2 !! getHostPtr vbo_array.1) ∧
  if true then
    getDevicePtr vbo_array.1 = 0 ∧ getDeviceWritePtr vbo_array.1 = 0 ∧
    getVbo vbo_array.1 ≠ 0 ∧ getWriteVbo vbo_array.1 ≠ 0 ∧
    is_Some (W_gl vbo_array.2 !! getVbo vbo_array.1) ∧
    is_Some (W_gl vbo_array.2 !! getWriteVbo vbo_array.1) ∧
    (if true then getVbo vbo_array.1 ≠ getWriteVbo vbo_array.1
     else getVbo vbo_array.1 = getWriteVbo vbo_array.1)
  else
    getVbo vbo_array.1 = 0 ∧ getWriteVbo vbo_array.1 = 0 ∧
    getDevicePtr vbo_array.1 ≠ 0 ∧ getDeviceWritePtr vbo_array.1 ≠ 0 ∧
    is_Some (W_dev vbo_array.2 !! getDevicePtr vbo_array.1) ∧
    is_Some (W_dev vbo_array.2 !! getDeviceWritePtr vbo_array.1) ∧
    (if true then getDevicePtr vbo_array.1 ≠ getDeviceWritePtr vbo_array.1
     else getDevicePtr vbo_array.1 = getDeviceWritePtr vbo_array.1).
Proof.
  apply (alloc_accessors (T:=Z) 4 false false 4 true true false process0
           vbo_array.1 vbo_array.2).
  exact vbo_array_run.
Defined.

Lemma alloc_free_with_buffers_witness :
  ∃ g2 w2,
    free vbo_array.1 vbo_array.2 = Ret g2 w2 ∧
    W_host w2 = W_host process0 ∧ W_dev w2 = W_dev process0 ∧
    W_gl w2 = W_gl process0 ∧
    W_host_avail w2 = W_host_avail process0 ∧
    m_hptr g2 = 0 ∧ m_vbo g2 0 = 0 ∧ m_vbo g2 1 = 0 ∧
    m_dptr g2 0 = 0 ∧ m_dptr g2 1 = 0 ∧
    W_log w2 = W_log process0 ++
      [Acquire (HostArray (m_hptr vbo_array.1));
       Acquire (GlBuffer (m_vbo vbo_array.1 0));
       Acquire (GlRegistration (m_vbo vbo_array.1 0))] ++
      (if true then [Acquire (GlBuffer (m_vbo vbo_array.1 1));
                     Acquire (GlRegistration (m_vbo vbo_array.1 1))] else []) ++
      [Release (HostArray (m_hptr vbo_array.1));
       Release (GlRegistration (m_vbo vbo_array.1 0));
       Release (GlBuffer (m_vbo vbo_array.1 0))] ++
      (if true then [Release (GlRegistration (m_vbo vbo_array.1 1));
                     Release (GlBuffer (m_vbo vbo_array.1 1))] else []).
Proof.
  apply (alloc_free_with_buffers (T:=Z) 4 ltac:(lia) false false 4 true false
           process0 vbo_array.1 vbo_array.2).
  exact vbo_array_run.
Defined.

Lemma mapped_write_reaches_buffer_witness :
  ∃ g1 w1 w2 g3 w3 d d',
    map vbo_array.1 vbo_array.2 = Ret g1 w1 ∧
    deviceWrite 4 (getDevicePtr g1) 2 7%Z w1 = Ret tt w2 ∧
    unmap g1 w2 = Ret g3 w3 ∧
    allocated 4 g3 w3 ∧
    slot_seen vbo_array.1 vbo_array.2 (m_currentRead vbo_array.1) = Some d ∧
    slot_data g3 w3 (m_currentRead vbo_array.1) = Some d' ∧
    d' 2 = 7%Z ∧ ∀ j, j ≠ 2 → d' j = d j.
Proof.
  apply (mapped_write_reaches_buffer (T:=Z) 4 ltac:(lia)
           vbo_array.1 vbo_array.2 2 7%Z).
  - apply vbo_array_allocated.
  - apply vbo_array_allocated.
  - vm_compute. reflexivity.
Defined.

Lemma copy_out_of_range_exits_witness :
  copy 4 HOST_TO_DEVICE 3 2 device_array.1 device_array.2 = Exit (-1).
Proof.
  apply (copy_out_of_range_exits (T:=Z) 4 ltac:(lia) HOST_TO_DEVICE 3 2
           device_array.1 device_array.2).
  - apply device_array_allocated.
  - vm_compute. reflexivity.
  - vm_compute. reflexivity.
Defined.

Lemma copy_touches_one_block_witness :
  read_back_array.1 = device_array.1 ∧
  W_gl read_back_array.2 = W_gl device_array.2 ∧
  W_log read_back_array.2 = W_log device_array.2 ∧
  W_host_avail read_back_array.2 = W_host_avail device_array.2 ∧
  W_dev_avail read_back_array.2 = W_dev_avail device_array.2 ∧
  (W_dev read_back_array.2 = W_dev device_array.2 ∧
   ∀ p, p ≠ getHostPtr device_array.1 →
        W_host read_back_array.2 !! p = W_host device_array.2 !! p) ∧
  (m_doubleBuffer device_array.1 = true →
   W_dev read_back_array.2 !! getDeviceWritePtr device_array.1
     = W_dev device_array.2 !! getDeviceWritePtr device_array.1).
Proof.
  apply (copy_touches_one_block (T:=Z) 4 DEVICE_TO_HOST 1 2
           device_array.1 device_array.2 read_back_array.1 read_back_array.2).
  - apply device_array_allocated.
  - apply device_array_allocated.
  - exact read_back_array_run.
Defined.

Lemma write_swap_copy_witness :
  ∃ w1 g' w' d h',
    deviceWrite 4 (getDeviceWritePtr double_array.1) 2 7%Z double_array.2
      = Ret tt w1 ∧
    copy 4 DEVICE_TO_HOST 0 0 (swap double_array.1) w1 = Ret g' w' ∧
    dev_data double_array.1 double_array.2 (m_currentWrite double_array.1)
      = Some d ∧
    host_data g' w' = Some h' ∧
    h' 2 = 7%Z ∧ ∀ j, j < m_size double_array.1 → j ≠ 2 → h' j = d j.
Proof.
  apply (write_swap_copy (T:=Z) 4 ltac:(lia) double_array.1 double_array.2
           2 7%Z).
  - apply double_array_allocated.
  - apply double_array_allocated.
  - apply double_array_allocated.
  - vm_compute. reflexivity.
  - vm_compute. reflexivity.
Defined.

(** * Properties of the handoff *)

Import Handoff.

Section HandoffFacts.

Context {real real4 ident : Type}.
Variable fmt_time : real → string.
Variable cfg : config.

Implicit Types (d : IOSharedData_t real real4 ident)
  (r : region real real4 ident) (tr : list (event real real4 ident)).

Lemma string_length_app (s1 s2 : string) :
  String.length (s1 ++ s2) = (String.length s1 + String.length s2)%nat.
Proof. induction s1 as [|c s1 IH]; simpl; [reflexivity | by f_equal]. Qed.

Lemma fits_per_process (t : real) :
  fits (name_per_process fmt_time cfg t) = true →
  fits (name_parallel fmt_time cfg t) = true.
Proof.
  unfold fits, name_per_process, name_parallel.
  rewrite !Nat.leb_le, (string_length_app (_ ++ _ ++ _)). lia.
Qed.

Lemma io_poll_idle d :
  writingFinished d = true → io_poll fmt_time cfg d = Polled d [usleep 100].
Proof. unfold io_poll. intros ->. reflexivity. Qed.

Lemma io_polls_idle n : ∀ d,
  writingFinished d = true →
  io_polls fmt_time cfg n d = Polled d (repeat (usleep 100) n).
Proof.
  induction n as [|n IH]; intros d Hd; simpl.
  - reflexivity.
  - rewrite (io_poll_idle d Hd), (IH d Hd). reflexivity.
Qed.

Lemma io_polls_overrun n d :
  io_poll fmt_time cfg d = PollOverrun →
  io_polls fmt_time cfg (S n) d = PollOverrun.
Proof. cbn [io_polls]. by intros ->. Qed.

Lemma count_app (p : event real real4 ident → bool) tr tr' :
  count p (tr ++ tr') = (count p tr + count p tr')%nat.
Proof. unfold count. rewrite List.filter_app, length_app. reflexivity. Qed.

Lemma written_app tr tr' : written (tr ++ tr') = written tr ++ written tr'.
Proof. unfold written. apply List.filter_app. Qed.

(** C3, as the code has it. However often the I/O thread passes through the
    body of its loop with nobody else touching the slot: started on an idle
    flag, every pass only sleeps 100 microseconds and the slot is what it
    was. Started on a published slot, when the name of the snapshot file
    (with the rank, for more than 16 processes) has at most 256 characters,
    the first pass makes the one write call with the arrays, the body count
    and the time of the slot, releases the slot and sets the flag back, and
    each later pass only sleeps. When the name is longer, [sprintf] writes
    past the 256 characters of [fileName]: no write call is made, the slot
    is not released and the flag is not set back. *)
Theorem consume_attempts d (n : nat) :
  io_polls fmt_time cfg (S n) d =
    let t := t_current d in
    let name := (snapshotFile cfg ++ "_" ++ fmt_time t)%string in
    let name_rank := (name ++ "-" ++ pretty (procId cfg))%string in
    if writingFinished d then Polled d (repeat (usleep 100) (S n))
    else if (nProcs cfg <=? 16)%Z then
      if (String.length name <=? 256)%nat then
        Polled (mkIO true (nBodies d) t None None None)
          (write_dumbp_snapshot_parallel (Pos d) (Vel d) (IDs d) (nBodies d) name t
             :: repeat (usleep 100) n)
      else PollOverrun
    else
      if (String.length name_rank <=? 256)%nat then
        Polled (mkIO true (nBodies d) t None None None)
          (write_snapshot_per_process (Pos d) (Vel d) (IDs d) (nBodies d) name_rank t
             :: repeat (usleep 100) n)
      else PollOverrun.
Proof.
  cbv zeta. destruct (writingFinished d) eqn:Hd.
  - by apply io_polls_idle.
  - cbn [io_polls]. unfold io_poll, fits, name_per_process, name_parallel.
    set (name := (snapshotFile cfg ++ "_" ++ fmt_time (t_current d))%string).
    set (name_rank := (name ++ "-" ++ pretty (procId cfg))%string).
    assert (String.length name ≤ String.length name_rank)%nat as Hlen
      by (unfold name_rank; rewrite string_length_app; lia).
    rewrite Hd. cbn [negb].
    destruct (nProcs cfg <=? 16)%Z;
      destruct (Nat.leb_spec (String.length name) 256);
      destruct (Nat.leb_spec (String.length name_rank) 256); try lia;
      cbn [IOSharedData_free set_writingFinished writingFinished nBodies
           t_current Pos Vel IDs];
      rewrite ?Hd; cbn [negb];
      rewrite ?io_polls_idle by reflexivity; reflexivity.
Qed.

(** ** The parallel region *)

Lemma apply_action_step a r r' :
  apply_action fmt_time cfg a r = Some r' → region_step fmt_time cfg r r'.
Proof.
  unfold apply_action. destruct (dead r) eqn:Hdead; [discriminate|].
  destruct a, (compute_at r) eqn:Hc; try discriminate.
  - intros [= <-]. by apply compute_store.
  - destruct (1 <? nProcs cfg)%Z eqn:Hn; [|discriminate].
    intros [= <-]. apply compute_abort; [done..|]. by apply Z.ltb_lt.
  - intros [= <-]. by apply compute_finish.
  - destruct (useMPIIO cfg) eqn:Hu; [discriminate|].
    destruct (io_step _ _ _ _ _) eqn:Hs; [| | |discriminate]; intros [= <-];
      rewrite <- Hc; [by apply io_run | by apply io_abort | by apply io_overrun].
  - destruct (useMPIIO cfg) eqn:Hu; [discriminate|].
    destruct (io_step _ _ _ _ _) eqn:Hs; [| | |discriminate]; intros [= <-];
      rewrite <- Hc; [by apply io_run | by apply io_abort | by apply io_overrun].
Qed.

Lemma schedule_reachable d0 acts : ∀ r r',
  reachable fmt_time cfg d0 r → schedule fmt_time cfg acts r = Some r' →
  reachable fmt_time cfg d0 r'.
Proof.
  induction acts as [|a acts IH]; simpl; intros r r' Hr H.
  - injection H as <-. exact Hr.
  - destruct (apply_action fmt_time cfg a r) as [r1|] eqn:Ha; [|discriminate].
    eapply IH; [|exact H]. eapply reach_step; [exact Hr|].
    eapply apply_action_step. exact Ha.
Qed.

Lemma schedule_app acts1 acts2 : ∀ r r1,
  schedule fmt_time cfg acts1 r = Some r1 →
  schedule fmt_time cfg (acts1 ++ acts2) r = schedule fmt_time cfg acts2 r1.
Proof.
  induction acts1 as [|a acts1 IH]; simpl; intros r r1 H.
  - by injection H as <-.
  - destruct (apply_action fmt_time cfg a r) as [r0|]; [|discriminate]. by apply IH.
Qed.

Lemma apply_action_io r pc d evs :
  dead r = false → useMPIIO cfg = false →
  io_step fmt_time cfg (simulationFinished r) (ioSharedData r) (io_at r)
    = Next pc d evs →
  apply_action fmt_time cfg DoIo r
    = Some (mkRegion (simulationFinished r) d (compute_at r) pc false
              (trace r ++ evs)).
Proof.
  intros Hdead Hu Hs. unfold apply_action. rewrite Hdead, Hu, Hs.
  by destruct (compute_at r).
Qed.

Lemma no_store_precedes tr :
  forallb (λ e, negb (is_store e)) tr = true → stores_precede_signal tr = true.
Proof.
  induction tr as [|e tr IH]; simpl; [done|].
  intros [He Htr]%andb_true_iff. destruct (is_set_finished e); auto.
Qed.

Lemma stores_precede_app tr evs :
  stores_precede_signal tr = true →
  forallb (λ e, negb (is_store e)) evs = true →
  stores_precede_signal (tr ++ evs) = true.
Proof.
  intros Htr Hevs. induction tr as [|e tr IH]; simpl in *.
  - by apply no_store_precedes.
  - destruct (is_set_finished e); [|auto].
    rewrite forallb_app, Htr, Hevs. reflexivity.
Qed.

Lemma stores_precede_unsignalled tr evs :
  count is_set_finished tr = 0%nat →
  stores_precede_signal (tr ++ evs) = stores_precede_signal evs.
Proof.
  unfold count. induction tr as [|e tr IH]; simpl; [done|].
  destruct (is_set_finished e); simpl; [discriminate | exact IH].
Qed.

Lemma region_inv_init d0 : region_inv (region_init d0).
Proof. unfold region_inv, region_init. simpl. split_and!; done. Qed.

(** The events of one statement of the I/O thread. *)
Lemma io_step_inv r pc d evs :
  region_inv r →
  io_step fmt_time cfg (simulationFinished r) (ioSharedData r) (io_at r)
    = Next pc d evs →
  region_inv (mkRegion (simulationFinished r) d (compute_at r) pc false
                       (trace r ++ evs)).
Proof.
  intros (Hfin & Hsig & Hsps & Hdrain & Hwrite & Hexit) Hstep.
  unfold region_inv. cbn [simulationFinished compute_at io_at trace].
  rewrite !count_app.
  assert (forallb (λ e, negb (is_store e)) evs = true ∧
          count is_set_finished evs = 0%nat) as [Hns Hnf].
  { unfold io_step in Hstep.
    destruct (io_at r); repeat case_match; simplify_eq; done. }
  rewrite Hnf, Nat.add_0_r.
  split; [exact Hfin|]. split; [exact Hsig|].
  split; [by apply stores_precede_app|].
  unfold io_step in Hstep.
  destruct (io_at r) eqn:Hpc; repeat case_match; simplify_eq;
    cbn [mid_drain past_write] in *; unfold count in *;
    cbn [is_write is_drain_begin is_drain_end List.filter length];
    split_and!; try lia; try done.
Qed.

Lemma region_step_inv r r' :
  region_inv r → region_step fmt_time cfg r r' → region_inv r'.
Proof.
  intros Hinv Hstep. destruct Hstep as [r d Hd Hc | r Hd Hc Hn | r Hd Hc
                                        | r pc d evs Hd Hu Hs | r Hd Hu Hs
                                        | r Hd Hu Hs].
  - destruct Hinv as (Hfin & Hsig & Hsps & Hdrain & Hwrite & Hexit).
    rewrite Hc in Hfin. rewrite Hfin in Hsig.
    unfold region_inv. cbn [simulationFinished compute_at io_at trace].
    rewrite !count_app, Hfin. unfold count at 2 4 6 8. cbn.
    rewrite stores_precede_unsignalled by exact Hsig.
    rewrite !Nat.add_0_r. rewrite Hfin in Hexit. split_and!; done.
  - destruct Hinv as (Hfin & Hsig & Hsps & Hdrain & Hwrite & Hexit).
    unfold region_inv. cbn [simulationFinished compute_at io_at trace].
    rewrite Hc in Hfin. split_and!; done.
  - destruct Hinv as (Hfin & Hsig & Hsps & Hdrain & Hwrite & Hexit).
    rewrite Hc in Hfin. rewrite Hfin in Hsig.
    unfold region_inv. cbn [simulationFinished compute_at io_at trace].
    rewrite !count_app. unfold count at 2 4 6 8. cbn.
    rewrite stores_precede_unsignalled by exact Hsig.
    rewrite Hsig, !Nat.add_0_r. split_and!; done.
  - by apply io_step_inv.
  - destruct Hinv as (Hfin & Hsig & Hsps & Hdrain & Hwrite & Hexit).
    unfold region_inv. cbn [simulationFinished compute_at io_at trace].
    split_and!; done.
  - destruct Hinv as (Hfin & Hsig & Hsps & Hdrain & Hwrite & Hexit).
    unfold region_inv. cbn [simulationFinished compute_at io_at trace].
    split_and!; done.
Qed.

Lemma reachable_inv d0 r : reachable fmt_time cfg d0 r → region_inv r.
Proof.
  induction 1 as [|r r' _ IH Hstep].
  - apply region_inv_init.
  - eapply region_step_inv; eassumption.
Qed.

(** ** The slot and its flag *)

Lemma pending_app tr evs :
  pending (tr ++ evs) = fold_left pending_after evs (pending tr).
Proof. unfold pending. apply fold_left_app. Qed.

Lemma undisturbed_app tr evs :
  undisturbed (tr ++ evs) = fold_left undisturbed_after evs (undisturbed tr).
Proof. unfold undisturbed. apply fold_left_app. Qed.

Lemma slot_inv_init d0 : slot_inv (region_init d0).
Proof. unfold slot_inv, region_init. cbn. split; [reflexivity | discriminate]. Qed.

Lemma slot_step_inv r r' :
  slot_inv r → region_step fmt_time cfg r r' → slot_inv r'.
Proof.
  unfold slot_inv. intros [Hflag Hslot] Hstep.
  destruct Hstep as [r d Hd Hc | r Hd Hc Hn | r Hd Hc
                     | r pc d evs Hd Hu Hs | r Hd Hu Hs | r Hd Hu Hs];
    cbn [ioSharedData io_at trace]; rewrite ?pending_app, ?undisturbed_app;
    try (split; [exact Hflag | exact Hslot]).
  - cbn [fold_left pending_after undisturbed_after].
    split; [by rewrite negb_involutive | discriminate].
  - unfold io_step in Hs.
    destruct (io_at r) eqn:Hpc; repeat case_match; simplify_eq;
      cbn [fold_left pending_after undisturbed_after mid_drain past_free
           writingFinished set_writingFinished IOSharedData_free negb] in *;
      try (split; [exact Hflag | exact Hslot]).
    + (* the test finds a published slot *)
      split; [exact Hflag|]. intros _. split.
      * by destruct (writingFinished (ioSharedData r)).
      * intros [?|?]; discriminate.
    + (* free() *)
      split; [exact Hflag|]. intros Hund. split; [by apply Hslot|].
      intros _. by unfold released.
    + (* the flag is set back *)
      split; [reflexivity|]. intros Hund. split; [reflexivity|].
      intros _. destruct (Hslot Hund) as [_ Hrel].
      unfold released in *. cbn [Pos Vel IDs]. apply Hrel. by right.
Qed.

Lemma reachable_slot d0 r : reachable fmt_time cfg d0 r → slot_inv r.
Proof.
  induction 1 as [|r r' _ IH Hstep].
  - apply slot_inv_init.
  - eapply slot_step_inv; eassumption.
Qed.

(** C9. With the two threads interleaved statement by statement, at every
    moment of the parallel region: [simulationFinished] is set exactly when
    the compute thread is past its assignment, and the assignment has been
    made once if it is set and never otherwise; no store to the slot by the
    compute thread follows it; every drain the I/O thread has begun has been
    completed, the flag set back, except the one it is in the middle of; and
    the flag of the slot is [true] unless the last thing done to it was a
    store of the compute thread that left it [false]. If the I/O thread has
    left its loop, the signal is set, it is not in the middle of a drain,
    and the drains begun, the snapshots written and the flag resets are
    equal in number; and if the compute thread has not stored since the
    last drain began, the flag is [true] and the slot is released. *)
Theorem region_invariant d0 r :
  reachable fmt_time cfg d0 r →
  region_inv r ∧
  writingFinished (ioSharedData r) = negb (pending (trace r)) ∧
  (io_at r = C_exit →
   simulationFinished r = true ∧ mid_drain (io_at r) = false ∧
   count is_drain_begin (trace r) = count is_drain_end (trace r) ∧
   count is_write (trace r) = count is_drain_end (trace r) ∧
   (undisturbed (trace r) = true →
    writingFinished (ioSharedData r) = true ∧ released (ioSharedData r))).
Proof.
  intros Hreach.
  pose proof (reachable_inv d0 r Hreach) as Hinv.
  pose proof (reachable_slot d0 r Hreach) as [Hflag Hslot].
  split; [exact Hinv|]. split; [exact Hflag|].
  destruct Hinv as (_ & _ & _ & Hdrain & Hwrite & Hexit).
  intros Hpc. rewrite Hpc in *. cbn [mid_drain past_write past_free negb] in *.
  split_and!; [by apply Hexit | reflexivity | lia | lia |].
  intros Hund. destruct (Hslot Hund) as [Hf Hrel]. split; [exact Hf|].
  apply Hrel. by left.
Qed.

(** ** More on the parallel region *)

Lemma delivery_inv_init d0 : delivery_inv (region_init d0).
Proof. unfold delivery_inv, region_init. cbn. lia. Qed.

Lemma delivery_step_inv r r' :
  delivery_inv r → region_step fmt_time cfg r r' → delivery_inv r'.
Proof.
  unfold delivery_inv. intros Hinv Hstep.
  destruct Hstep as [r d Hd Hc | r Hd Hc Hn | r Hd Hc
                     | r pc d evs Hd Hu Hs | r Hd Hu Hs | r Hd Hu Hs];
    cbn [ioSharedData io_at trace]; rewrite ?count_app.
  - unfold count at 2 4. cbn [List.filter is_drain_begin is_ready_store length].
    destruct (writingFinished d), (writingFinished (ioSharedData r)),
      (mid_drain (io_at r)); cbn in *; lia.
  - exact Hinv.
  - unfold count at 2 4. cbn [List.filter is_drain_begin is_ready_store is_set_finished length].
    lia.
  - unfold io_step in Hs.
    destruct (io_at r) eqn:Hpc; repeat case_match; simplify_eq;
      cbn [mid_drain] in *; unfold count in *; cbn [List.filter length];
      cbn [is_drain_begin is_ready_store List.filter length writingFinished
           set_writingFinished IOSharedData_free negb andb] in *;
      repeat match goal with
             | H : negb ?b = _ |- _ => destruct b; cbn [negb andb] in *; try discriminate
             end;
      try rewrite List.app_nil_r;
      repeat match goal with
             | |- context [negb ?b] => destruct b; cbn [negb andb] in *
             end;
      first [lia | congruence].
  - exact Hinv.
  - exact Hinv.
Qed.

Lemma reachable_delivery d0 r : reachable fmt_time cfg d0 r → delivery_inv r.
Proof.
  induction 1 as [|r r' _ IH Hstep].
  - apply delivery_inv_init.
  - eapply delivery_step_inv; eassumption.
Qed.

(** However the two threads interleave, the I/O thread never writes more
    snapshots than the compute thread has published: every drain it begins
    answers a store of its own that left the flag at [false], so no
    published snapshot is written twice. *)
Theorem no_duplicate_delivery d0 r :
  reachable fmt_time cfg d0 r →
  (count is_write (trace r) ≤ count is_drain_begin (trace r))%nat ∧
  (count is_drain_begin (trace r) ≤ count is_ready_store (trace r))%nat.
Proof.
  intros Hreach.
  pose proof (reachable_inv d0 r Hreach) as (_ & _ & _ & Hdrain & Hwrite & _).
  pose proof (reachable_delivery d0 r Hreach) as Hdel. unfold delivery_inv in Hdel.
  split; [|lia].
  rewrite Hdrain, Hwrite. destruct (io_at r); cbn [mid_drain past_write]; lia.
Qed.

(** ** After the signal *)

Lemma apply_action_io_ended r :
  dead r = false → useMPIIO cfg = false →
  io_step fmt_time cfg (simulationFinished r) (ioSharedData r) (io_at r)
    = AssertFailed ∨
  io_step fmt_time cfg (simulationFinished r) (ioSharedData r) (io_at r)
    = Overrun →
  apply_action fmt_time cfg DoIo r
    = Some (mkRegion (simulationFinished r) (ioSharedData r) (compute_at r)
              (io_at r) true (trace r)).
Proof.
  intros Hdead Hu Hs. unfold apply_action. rewrite Hdead, Hu.
  destruct Hs as [-> | ->]; by destruct (compute_at r).
Qed.

(** One statement of the I/O thread after the signal: the process is
    ended, or fewer statements are left. *)
Lemma io_step_down r :
  dead r = false → useMPIIO cfg = false → simulationFinished r = true →
  io_at r ≠ C_exit →
  ∃ r1, apply_action fmt_time cfg DoIo r = Some r1 ∧
        simulationFinished r1 = true ∧
        (dead r1 = true ∨
         dead r1 = false ∧
         (statements_left (io_at r1) < statements_left (io_at r))%nat).
Proof.
  intros Hdead Hu Hfin Hpc.
  destruct (io_step fmt_time cfg (simulationFinished r) (ioSharedData r) (io_at r))
    as [pc d evs| | |] eqn:Hs.
  - rewrite (apply_action_io r pc d evs Hdead Hu Hs). eexists. split; [reflexivity|].
    cbn [simulationFinished dead io_at]. split; [exact Hfin|]. right.
    split; [reflexivity|].
    rewrite Hfin in Hs. unfold io_step in Hs.
    destruct (io_at r); repeat case_match; simplify_eq;
      cbn [statements_left negb] in *; first [lia | discriminate].
  - rewrite (apply_action_io_ended r Hdead Hu (or_introl Hs)).
    eexists. split; [reflexivity|]. cbn [simulationFinished dead].
    split; [exact Hfin | by left].
  - rewrite (apply_action_io_ended r Hdead Hu (or_intror Hs)).
    eexists. split; [reflexivity|]. cbn [simulationFinished dead].
    split; [exact Hfin | by left].
  - unfold io_step in Hs. destruct (io_at r); repeat case_match; simplify_eq.
Qed.

Lemma io_thread_runs_down n : ∀ r,
  (statements_left (io_at r) ≤ n)%nat →
  dead r = false → useMPIIO cfg = false → simulationFinished r = true →
  ∃ k r', (k ≤ n)%nat ∧ schedule fmt_time cfg (repeat DoIo k) r = Some r' ∧
          (io_at r' = C_exit ∨ dead r' = true).
Proof.
  induction n as [|n IH]; intros r Hn Hdead Hu Hfin.
  - exists 0%nat, r. split_and!; [lia | reflexivity |]. left.
    destruct (io_at r); cbn [statements_left] in Hn; first [reflexivity | lia].
  - destruct (statements_left (io_at r)) as [|m] eqn:Hrank.
    + exists 0%nat, r. split_and!; [lia | reflexivity |]. left.
      destruct (io_at r); cbn [statements_left] in Hrank;
        first [reflexivity | discriminate].
    + assert (io_at r ≠ C_exit) as Hne
        by (intros Heq; rewrite Heq in Hrank; discriminate).
      destruct (io_step_down r Hdead Hu Hfin Hne)
        as (r1 & Hstep & Hfin1 & [Hdead1 | [Hdead1 Hlt]]).
      * exists 1%nat, r1. split_and!; [lia | | by right].
        cbn [repeat schedule]. by rewrite Hstep.
      * destruct (IH r1) as (k & r' & Hk & Hrun & Hend); [lia | done | done | done |].
        exists (S k), r'. split_and!; [lia | | done].
        cbn [repeat schedule]. by rewrite Hstep.
Qed.

(** Once [simulationFinished] is set, only the I/O thread can move, and
    after at most eleven more of its steps (one for each statement of its
    branch; the declaration of [fileName], its [resize] and the first
    [sprintf] are one step) it has left the loop, unless the process has
    been ended on the way: by the [assert], or by a [sprintf] that wrote
    past the 256 characters of [fileName]. *)
Theorem io_thread_leaves d0 r :
  reachable fmt_time cfg d0 r →
  simulationFinished r = true → dead r = false → useMPIIO cfg = false →
  (∀ r1, region_step fmt_time cfg r r1 →
         apply_action fmt_time cfg DoIo r = Some r1) ∧
  ∃ k r', (k ≤ 11)%nat ∧ schedule fmt_time cfg (repeat DoIo k) r = Some r' ∧
          (io_at r' = C_exit ∨ dead r' = true).
Proof.
  intros Hreach Hfin Hdead Hu.
  pose proof (reachable_inv d0 r Hreach) as (Hc & _).
  rewrite Hfin in Hc. split.
  - intros r1 Hstep. unfold apply_action. rewrite Hdead, Hu.
    destruct (compute_at r) eqn:Hcpc; [discriminate|].
    inversion Hstep; subst; try congruence;
      rewrite Hcpc;
      match goal with H : io_step _ _ _ _ _ = _ |- _ => rewrite H end;
      reflexivity.
  - apply io_thread_runs_down; try done.
    destruct (io_at r); cbn [statements_left]; lia.
Qed.

(** ** A store in the middle of a drain *)

Lemma idle_loop k : ∀ r,
  dead r = false → useMPIIO cfg = false → simulationFinished r = false →
  writingFinished (ioSharedData r) = true →
  io_at r = C_head ∨ io_at r = C_test ∨ io_at r = C_usleep →
  ∃ r', schedule fmt_time cfg (repeat DoIo k) r = Some r' ∧
        written (trace r') = written (trace r) ∧
        ioSharedData r' = ioSharedData r.
Proof.
  induction k as [|k IH]; intros r Hdead Hu Hfin Hwf Hpc.
  - exists r. by split_and!.
  - cbn [repeat schedule].
    assert (∃ pc evs,
      io_step fmt_time cfg (simulationFinished r) (ioSharedData r) (io_at r)
        = Next pc (ioSharedData r) evs ∧ written evs = [] ∧
      (pc = C_head ∨ pc = C_test ∨ pc = C_usleep)) as (pc & evs & Hs & Hevs & Hpc').
    { rewrite Hfin. destruct Hpc as [-> | [-> | ->]]; cbn [io_step negb];
        rewrite ?Hwf; cbn [negb]; eexists _, _; split_and!;
        first [reflexivity | tauto]. }
    rewrite (apply_action_io r pc _ evs Hdead Hu Hs).
    destruct (IH (mkRegion (simulationFinished r) (ioSharedData r)
                    (compute_at r) pc false (trace r ++ evs)))
      as (r' & Hrun & Hw & Hd); try done.
    exists r'. split; [exact Hrun|]. split; [|exact Hd].
    rewrite Hw. cbn [trace]. rewrite written_app, Hevs. apply List.app_nil_r.
Qed.

(** The loop gives the compute thread no protection. If the compute thread
    stores a snapshot while the I/O thread stands between its [assert] and
    the assignment [writingFinished = true], the assignment marks the new
    snapshot as written: it stays in the slot with its arrays unreleased,
    and however long the I/O thread goes on, it never writes it. *)
Theorem store_during_drain_is_lost d0 r d :
  reachable fmt_time cfg d0 r →
  dead r = false → compute_at r = P_iterate → useMPIIO cfg = false →
  io_at r = C_set → writingFinished d = false →
  ∃ r', schedule fmt_time cfg [DoStore d; DoIo] r = Some r' ∧
        ioSharedData r' = set_writingFinished true d ∧
        io_at r' = C_head ∧
        written (trace r') = written (trace r) ∧
        count is_ready_store (trace r') = S (count is_ready_store (trace r)) ∧
        ∀ k, ∃ r'', schedule fmt_time cfg (repeat DoIo k) r' = Some r'' ∧
                    written (trace r'') = written (trace r) ∧
                    ioSharedData r'' = set_writingFinished true d.
Proof.
  intros Hreach Hdead Hc Hu Hpc Hd.
  pose proof (reachable_inv d0 r Hreach) as (Hfin & _). rewrite Hc in Hfin.
  eexists. split.
  { cbn [schedule]. unfold apply_action at 1. rewrite Hdead, Hc.
    unfold apply_action.
    cbn [dead compute_at simulationFinished ioSharedData io_at trace].
    rewrite Hu, Hpc. cbn [io_step]. reflexivity. }
  cbn [ioSharedData io_at trace].
  assert (written ((trace r ++ [store d]) ++ [drain_end]) = written (trace r)) as Hw.
  { rewrite !written_app. cbn. by rewrite !List.app_nil_r. }
  split_and!; try done.
  - rewrite !count_app. unfold count at 2 3.
    cbn [List.filter is_ready_store length]. rewrite Hd. cbn. lia.
  - intros k.
    edestruct (idle_loop k) as (r'' & Hrun & Hw' & Hd');
      [| | | | | exists r''; split; [exact Hrun|] ]; cbn [dead simulationFinished
      ioSharedData io_at trace writingFinished set_writingFinished] in *;
      try done; [by left|].
    split; [by rewrite Hw', Hw | exact Hd'].
Qed.

(** ** Publishing and draining in turn *)

Lemma round_writes r d :
  dead r = false → compute_at r = P_iterate → simulationFinished r = false →
  useMPIIO cfg = false → io_at r = C_head → writingFinished d = false →
  fits (name_parallel fmt_time cfg (t_current d)) = true →
  ((nProcs cfg <=? 16)%Z = false →
   fits (name_per_process fmt_time cfg (t_current d)) = true) →
  ∃ tr,
    schedule fmt_time cfg (round cfg d) r
      = Some (mkRegion false (mkIO true (nBodies d) (t_current d) None None None)
                P_iterate C_head false tr) ∧
    written tr
      = written (trace r) ++
        [if (nProcs cfg <=? 16)%Z
         then write_dumbp_snapshot_parallel (Pos d) (Vel d) (IDs d) (nBodies d)
                (name_parallel fmt_time cfg (t_current d)) (t_current d)
         else write_snapshot_per_process (Pos d) (Vel d) (IDs d) (nBodies d)
                (name_per_process fmt_time cfg (t_current d)) (t_current d)].
Proof.
  intros Hdead Hc Hfin Hu Hpc Hd Hf1 Hf2.
  destruct r as [fin d' cpc pc dd tr]. cbn in Hdead, Hc, Hfin, Hpc. subst.
  destruct d as [wf n t P V I]. cbn in Hd. subst wf.
  cbn [t_current] in Hf1, Hf2. unfold round.
  destruct (nProcs cfg <=? 16)%Z eqn:Hn; [clear Hf2 | specialize (Hf2 eq_refl)];
    (eexists; split;
     [ repeat (progress
         (cbn [repeat schedule apply_action dead compute_at simulationFinished
               ioSharedData io_at trace io_step negb writingFinished nBodies
               t_current Pos Vel IDs IOSharedData_free set_writingFinished];
          rewrite ?Hu, ?Hn, ?Hf1, ?Hf2));
       reflexivity
     | cbn [trace]; rewrite !written_app; unfold written;
       cbn [List.filter is_write]; by rewrite !List.app_nil_r ]).
Qed.

(** When every store of the compute thread is followed by one full pass of
    the I/O thread, and the names of the snapshot files have at most 256
    characters, every published snapshot is written exactly once, in the
    order of the stores, with its own arrays, body count, time and file
    name, and the slot is left released with the flag set back. *)
Theorem publish_drain_rounds (ds : list (IOSharedData_t real real4 ident)) : ∀ r,
  Forall (λ d,
    writingFinished d = false ∧
    (String.length
       (if (nProcs cfg <=? 16)%Z
        then (snapshotFile cfg ++ "_" ++ fmt_time (t_current d))%string
        else ((snapshotFile cfg ++ "_" ++ fmt_time (t_current d))
                ++ "-" ++ pretty (procId cfg))%string) ≤ 256)%nat) ds →
  dead r = false → compute_at r = P_iterate → simulationFinished r = false →
  useMPIIO cfg = false → io_at r = C_head →
  ∃ r', schedule fmt_time cfg (concat (List.map (round cfg) ds)) r = Some r' ∧
        io_at r' = C_head ∧ dead r' = false ∧
        compute_at r' = P_iterate ∧ simulationFinished r' = false ∧
        List.filter is_write (trace r')
          = List.filter is_write (trace r)
              ++ List.map
                   (λ d,
                      if (nProcs cfg <=? 16)%Z
                      then write_dumbp_snapshot_parallel
                             (Pos d) (Vel d) (IDs d) (nBodies d)
                             (snapshotFile cfg ++ "_" ++ fmt_time (t_current d))%string
                             (t_current d)
                      else write_snapshot_per_process
                             (Pos d) (Vel d) (IDs d) (nBodies d)
                             ((snapshotFile cfg ++ "_" ++ fmt_time (t_current d))
                                ++ "-" ++ pretty (procId cfg))%string
                             (t_current d)) ds ∧
        (ds ≠ [] → ioSharedData r' =
                     match last ds with
                     | Some d => mkIO true (nBodies d) (t_current d) None None None
                     | None => ioSharedData r
                     end).
Proof.
  induction ds as [|d ds IH] using rev_ind; intros r Hall Hdead Hc Hfin Hu Hpc.
  - exists r. cbn. rewrite List.app_nil_r. by split_and!.
  - apply Forall_app in Hall as [Hall Hd]. apply Forall_inv in Hd as [Hd Hlen].
    destruct (IH r Hall Hdead Hc Hfin Hu Hpc)
      as (r1 & Hrun & Hpc1 & Hdead1 & Hc1 & Hfin1 & Hw1 & _).
    assert (fits (name_parallel fmt_time cfg (t_current d)) = true ∧
            ((nProcs cfg <=? 16)%Z = false →
             fits (name_per_process fmt_time cfg (t_current d)) = true))
      as [Hf1 Hf2].
    { destruct (nProcs cfg <=? 16)%Z.
      - split; [|discriminate]. by apply Nat.leb_le.
      - assert (fits (name_per_process fmt_time cfg (t_current d)) = true) as Hf
          by by apply Nat.leb_le.
        split; [by apply fits_per_process | done]. }
    destruct (round_writes r1 d Hdead1 Hc1 Hfin1 Hu Hpc1 Hd Hf1 Hf2)
      as (tr & Hround & Hw).
    eexists. split.
    { rewrite List.map_app, concat_app. rewrite (schedule_app _ _ r r1 Hrun).
      cbn [List.map concat]. rewrite List.app_nil_r. exact Hround. }
    cbn [io_at dead trace ioSharedData compute_at simulationFinished].
    split_and!; try done.
    + fold (written tr). rewrite Hw. fold (written (trace r1)).
      unfold written at 1. rewrite Hw1, List.map_app, <- List.app_assoc.
      reflexivity.
    + intros _. by rewrite last_snoc.
Qed.

End HandoffFacts.

(** ** The region at concrete schedules *)

Lemma region_at_reachable acts :
  schedule fmt_time_Z one_process acts (region_init empty_slot)
    = Some (region_at acts) →
  reachable fmt_time_Z one_process empty_slot (region_at acts).
Proof.
  intros H.
  apply (schedule_reachable fmt_time_Z one_process empty_slot acts
           (region_init empty_slot));
    [apply reach_init | exact H].
Qed.

Lemma region_end_reachable :
  reachable fmt_time_Z one_process empty_slot region_end.
Proof. apply region_at_reachable. vm_compute. reflexivity. Qed.

Lemma region_signalled_reachable :
  reachable fmt_time_Z one_process empty_slot region_signalled.
Proof. apply region_at_reachable. vm_compute. reflexivity. Qed.

Lemma region_at_set_reachable :
  reachable fmt_time_Z one_process empty_slot region_at_set.
Proof. apply region_at_reachable. vm_compute. reflexivity. Qed.

(** One snapshot published, one written, and the I/O thread has left. *)
Example region_end_trace :
  io_at region_end = C_exit ∧
  ioSharedData region_end = mkIO true 2 7%Z None None None ∧
  trace region_end =
    [store snapshot7; sleep 1; drain_begin;
     write_dumbp_snapshot_parallel (Some [1; 2]%Z) (Some [3; 4]%Z)
       (Some [5; 6]%Z) 2 "snapshot__00007.0000" 7%Z;
     drain_end; set_simulationFinished].
Proof. vm_compute. split_and!; reflexivity. Qed.

(** A name of 261 characters: the pass over a published slot ends in the
    [sprintf], and nothing is written. *)
Example long_name_overruns :
  String.length (name_parallel fmt_time_Z long_name_process 7%Z) = 261%nat ∧
  io_poll fmt_time_Z long_name_process snapshot7 = PollOverrun.
Proof. vm_compute. split; reflexivity. Qed.

(** Witness of C3's theorem: one pass over a published slot with that
    name. *)
Lemma consume_attempts_witness :
  io_polls fmt_time_Z long_name_process 1 snapshot7 = PollOverrun.
Proof.
  rewrite (consume_attempts fmt_time_Z long_name_process snapshot7 0).
  vm_compute. reflexivity.
Defined.

(** Witness of C9's theorem: the region after that schedule. *)
Lemma region_invariant_witness :
  region_inv region_end ∧
  writingFinished (ioSharedData region_end) = negb (pending (trace region_end)) ∧
  (io_at region_end = C_exit →
   simulationFinished region_end = true ∧
   mid_drain (io_at region_end) = false ∧
   count is_drain_begin (trace region_end)
     = count is_drain_end (trace region_end) ∧
   count is_write (trace region_end) = count is_drain_end (trace region_end) ∧
   (undisturbed (trace region_end) = true →
    writingFinished (ioSharedData region_end) = true ∧
    released (ioSharedData region_end))).
Proof.
  apply (region_invariant fmt_time_Z one_process empty_slot region_end).
  exact region_end_reachable.
Defined.

(** Witness of [no_duplicate_delivery]: the run of one snapshot. *)
Lemma no_duplicate_delivery_witness :
  (count is_write (trace region_end) ≤ count is_drain_begin (trace region_end))%nat ∧
  (count is_drain_begin (trace region_end)
     ≤ count is_ready_store (trace region_end))%nat.
Proof.
  apply (no_duplicate_delivery fmt_time_Z one_process empty_slot region_end).
  exact region_end_reachable.
Defined.

(** Witness of [io_thread_leaves]: the signal arrives during a drain. *)
Lemma io_thread_leaves_witness :
  (∀ r1, region_step fmt_time_Z one_process region_signalled r1 →
         apply_action fmt_time_Z one_process DoIo region_signalled = Some r1) ∧
  ∃ k r', (k ≤ 11)%nat ∧
          schedule fmt_time_Z one_process (repeat DoIo k) region_signalled
            = Some r' ∧
          (io_at r' = C_exit ∨ dead r' = true).
Proof.
  apply (io_thread_leaves fmt_time_Z one_process empty_slot region_signalled).
  - exact region_signalled_reachable.
  - reflexivity.
  - reflexivity.
  - reflexivity.
Defined.

(** Witness of [store_during_drain_is_lost]: the second snapshot arrives
    just before the flag is set back for the first. *)
Lemma store_during_drain_is_lost_witness :
  ∃ r', schedule fmt_time_Z one_process [DoStore snapshot9; DoIo] region_at_set
          = Some r' ∧
        ioSharedData r' = set_writingFinished true snapshot9 ∧
        io_at r' = C_head ∧
        written (trace r') = written (trace region_at_set) ∧
        count is_ready_store (trace r')
          = S (count is_ready_store (trace region_at_set)) ∧
        ∀ k, ∃ r'', schedule fmt_time_Z one_process (repeat DoIo k) r' = Some r'' ∧
                    written (trace r'') = written (trace region_at_set) ∧
                    ioSharedData r'' = set_writingFinished true snapshot9.
Proof.
  apply (store_during_drain_is_lost fmt_time_Z one_process empty_slot
           region_at_set snapshot9).
  - exact region_at_set_reachable.
  - reflexivity.
  - reflexivity.
  - reflexivity.
  - reflexivity.
  - reflexivity.
Defined.

(** Witness of [publish_drain_rounds]: two snapshots on process 3 of 32,
    each drained before the next store. *)
Lemma publish_drain_rounds_witness :
  ∃ r', schedule fmt_time_Z many_processes
          (concat (List.map (round many_processes) [snapshot7; snapshot9]))
          region_at_head = Some r' ∧
        io_at r' = C_head ∧ dead r' = false ∧
        compute_at r' = P_iterate ∧ simulationFinished r' = false ∧
        List.filter is_write (trace r')
          = List.filter is_write (trace region_at_head)
              ++ List.map
                   (λ d,
                      if (nProcs many_processes <=? 16)%Z
                      then write_dumbp_snapshot_parallel
                             (Pos d) (Vel d) (IDs d) (nBodies d)
                             (snapshotFile many_processes ++ "_"
                                ++ fmt_time_Z (t_current d))%string
                             (t_current d)
                      else write_snapshot_per_process
                             (Pos d) (Vel d) (IDs d) (nBodies d)
                             ((snapshotFile many_processes ++ "_"
                                 ++ fmt_time_Z (t_current d))
                                ++ "-" ++ pretty (procId many_processes))%string
                             (t_current d)) [snapshot7; snapshot9] ∧
        ([snapshot7; snapshot9] ≠ [] →
         ioSharedData r' =
           match last [snapshot7; snapshot9] with
           | Some d => mkIO true (nBodies d) (t_current d) None None None
           | None => ioSharedData region_at_head
           end).
Proof.
  apply (publish_drain_rounds fmt_time_Z many_processes [snapshot7; snapshot9]
           region_at_head).
  - repeat (apply List.Forall_cons; [split; [reflexivity | vm_compute; lia]|]).
    apply List.Forall_nil.
  - reflexivity.
  - reflexivity.
  - reflexivity.
  - reflexivity.
  - reflexivity.
Defined.

(** * Properties of the choice of initial conditions *)

Import Startup.

Section StartupFacts.

Variable getenv : string → option string.
Variable procId : Z.

Implicit Types (o : options) (G : bool).

Lemma init_galaxy_cases G o :
  let '(tv, pre) := init_galaxy G getenv o in
  (pre = NotGenerated ∧
     ((nMilkyWay o < 0)%Z ∨
      string_empty tv = true ∧
      (getenv (taskVar o) = None ∨ string_empty (taskVar o) = true))) ∨
  (∃ v, pre = GeneratedBeforeInit v ∧ G = true ∧ (0 ≤ nMilkyWay o)%Z ∧
        getenv (taskVar o) = Some v ∧ tv = taskVar o ∧
        string_empty tv = false) ∨
  (pre = NoGalacticsAssert ∧ G = false ∧ (0 ≤ nMilkyWay o)%Z ∧
     getenv (taskVar o) ≠ None ∧ string_empty (taskVar o) = false).
Proof.
  unfold init_galaxy.
  destruct (getenv (taskVar o)) as [v|] eqn:Henv; cbn [string_empty negb andb].
  - destruct (Z.leb_spec 0 (nMilkyWay o)); cbn [andb];
      [|left; split; [done|left; lia]].
    destruct (string_empty (taskVar o)) eqn:He; cbn [negb];
      [left; split; [done|right; split; [done|by right]]|].
    destruct G.
    + right; left. exists v. by split_and!.
    + right; right. by split_and!.
  - rewrite andb_false_r. left. split; [done|right; split; [done|by left]].
Qed.

(** The first of the two asserts before [MPI_Init], [assert(argVal !=
    NULL)], never fails: when the variable of the environment is not set,
    [taskVar] has just been emptied and the block is not entered. *)
Theorem argVal_assert_never_fails G o :
  (init_galaxy G getenv o).2 ≠ ArgValAssert ∧
  (getenv (taskVar o) = None →
   init_galaxy G getenv o = (EmptyString, NotGenerated)).
Proof.
  split.
  - pose proof (init_galaxy_cases G o) as H.
    destruct (init_galaxy G getenv o) as [tv pre]. cbn.
    destruct H as [[-> _] | [(v & -> & _) | [-> _]]]; done.
  - intros Henv. unfold init_galaxy. rewrite Henv. cbn [string_empty negb].
    by rewrite andb_false_r.
Qed.

(** Case analysis on the tests of the three places. *)
Ltac split_tests :=
  repeat first
    [ progress cbn [andb orb negb fst snd] in *
    | discriminate
    | match goal with
      | H : context [(?a =? ?b)%Z] |- _ => destruct (Z.eqb_spec a b)
      | |- context [(?a =? ?b)%Z] => destruct (Z.eqb_spec a b)
      | H : context [(?a <=? ?b)%Z] |- _ => destruct (Z.leb_spec a b)
      | |- context [(?a <=? ?b)%Z] => destruct (Z.leb_spec a b)
      | H : context [if ?b then _ else _] |- _ => destruct b eqn:?
      | |- context [if ?b then _ else _] => destruct b eqn:?
      | H : context [negb ?b] |- _ => destruct b eqn:?
      | |- context [negb ?b] => destruct b eqn:?
      end ].

Lemma select_assert G tv o :
  usage_exit o = false →
  (select_initial_conditions G procId tv o = NoSourceAssert ↔
   string_empty (bonsaiFileName o) = true ∧ restartSim o = false ∧
   ((G = false ∧ (0 ≤ nMilkyWay o)%Z) ∨
    (diskmode o = false ∧
     (nMilkyWay o < 0)%Z ∧ (nPlummer o < 0)%Z ∧ (nSphere o < 0)%Z ∧
     (nCube o < 0)%Z ∧
     ¬ (nMilkyWay o = -1 ∧ nPlummer o = -1 ∧ nSphere o = -1 ∧ nCube o = -1)%Z))).
Proof.
  unfold usage_exit, select_initial_conditions.
  destruct o as [fn bf nP nS nC nM tvo rs dm mp]; cbn [fileName bonsaiFileName
    nPlummer nSphere nCube nMilkyWay taskVar restartSim diskmode useMPIIO].
  intros Hu. split.
  - intros H. split_tests; split_and?; try done; try lia;
      first [ left; split; [done|lia] | right; split_and!; try done; lia ].
  - intros (Hb & Hr & Hcase). rewrite Hb, Hr in *. cbn [negb andb orb] in *.
    destruct Hcase as [[-> Hm] | (-> & Hm & Hp & Hs & Hc & Hne)];
      split_tests; try done; try lia.
Qed.

(** The two asserts on the initial conditions, for a run that has passed
    the usage checks. The place before [MPI_Init] ends in [assert(0)]
    exactly when a Milky Way model is asked for in a build without
    [GALACTICS] and the task variable is set in the environment. The chain
    that picks the source of the bodies, whatever [taskVar] holds when it
    is reached, ends in an [assert(0)] exactly when neither a Bonsai file
    nor a restart takes precedence and either a Milky Way model is asked
    for in a build without [GALACTICS], or disk mode is off and every
    particle count is negative while not all are the default -1. *)
Theorem initial_conditions_asserts G o :
  usage_exit o = false →
  ((init_galaxy G getenv o).2 = NoGalacticsAssert ↔
   G = false ∧ (0 ≤ nMilkyWay o)%Z ∧
   string_empty (taskVar o) = false ∧ getenv (taskVar o) ≠ None) ∧
  (∀ tv,
     select_initial_conditions G procId tv o = NoSourceAssert ↔
     string_empty (bonsaiFileName o) = true ∧ restartSim o = false ∧
     ((G = false ∧ (0 ≤ nMilkyWay o)%Z) ∨
      (diskmode o = false ∧
       (nMilkyWay o < 0)%Z ∧ (nPlummer o < 0)%Z ∧ (nSphere o < 0)%Z ∧
       (nCube o < 0)%Z ∧
       ¬ (nMilkyWay o = -1 ∧ nPlummer o = -1 ∧ nSphere o = -1 ∧ nCube o = -1)%Z))).
Proof.
  intros Hu. split; [|intros tv; by apply select_assert].
  pose proof (init_galaxy_cases G o) as Hpre.
  destruct (init_galaxy G getenv o) as [tv pre]. cbn [snd].
  split.
  - intros ->.
    destruct Hpre as [[? _] | [(v & ? & _) | (_ & -> & Hm & Henv & He)]];
      [done | done | by split_and!].
  - intros (-> & Hm & He & Henv).
    destruct Hpre as [[-> [Hn | [_ [Hn | Hn]]]]
                     | [(v & _ & ? & _) | [-> _]]];
      first [lia | done | congruence].
Qed.

(** For a run that has passed the usage checks, with [taskVar] and the
    model as the place before [MPI_Init] left them: when the chain lets the
    bodies be read from a Tipsy file by process 0 and received by the
    others, there is a file name to read from and no model was built
    before, and the rank alone decides between reading and receiving. A
    Bonsai file is read exactly when one is named, and then MPI-IO is on. *)
Theorem file_sources_have_a_file G o tv pre ic :
  usage_exit o = false →
  init_galaxy G getenv o = (tv, pre) →
  select_initial_conditions G procId tv o = ic →
  (ic = ReadTipsy ∨ ic = ICRecv →
   string_empty (fileName o) = false ∧ pre = NotGenerated ∧
   (ic = ReadTipsy ↔ procId = 0%Z)) ∧
  (ic = ReadBonsaiFile ↔ string_empty (bonsaiFileName o) = false) ∧
  (ic = ReadBonsaiFile → useMPIIO o = true).
Proof.
  intros Hu Hpre Hsel.
  pose proof (init_galaxy_cases G o) as Hcases. rewrite Hpre in Hcases.
  clear Hpre. subst ic.
  unfold usage_exit in Hu. unfold select_initial_conditions.
  destruct o as [fn bf nP nS nC nM tvo rs dm mp]; cbn [fileName bonsaiFileName
    nPlummer nSphere nCube nMilkyWay taskVar restartSim diskmode useMPIIO] in *.
  split_and!.
  - intros H. split_tests; destruct H as [H|H]; try discriminate; try lia;
      (destruct (string_empty fn) eqn:?; cbn [andb orb] in Hu;
       try discriminate);
      (split_and!;
       [ done
       | destruct Hcases as [[-> _] | [(v & _ & _ & ? & _) | (_ & _ & ? & _)]];
         first [done | lia]
       | split; first [done | congruence] ]).
  - clear Hcases. split_tests; split; intros; try done; try lia.
  - clear Hcases. split_tests; intros; try done; try lia.
Qed.

(** For a run that has passed the usage checks, with [taskVar] and the
    model as the place before [MPI_Init] left them. The mass of the Milky
    Way model is rescaled only when the model was
    built before [MPI_Init], from the rank found in the environment; it is
    built after the tree is set up only when it was not built before. A
    model built before [MPI_Init] is rescaled unless the bodies are then
    read from a Bonsai file or from the files of a restart. *)
Theorem scale_only_after_generation G o tv pre ic :
  usage_exit o = false →
  init_galaxy G getenv o = (tv, pre) →
  select_initial_conditions G procId tv o = ic →
  (ic = ScaleGalactics →
   ∃ v, pre = GeneratedBeforeInit v ∧ getenv (taskVar o) = Some v) ∧
  (ic = GenerateGalactics → pre = NotGenerated) ∧
  (∀ v, pre = GeneratedBeforeInit v →
        ic = ScaleGalactics ∨ ic = ReadBonsaiFile ∨ ic = RestartTipsy).
Proof.
  intros Hu Hpre Hsel.
  pose proof (init_galaxy_cases G o) as Hcases. rewrite Hpre in Hcases.
  clear Hpre Hu. subst ic.
  unfold select_initial_conditions.
  destruct o as [fn bf nP nS nC nM tvo rs dm mp]; cbn [fileName bonsaiFileName
    nPlummer nSphere nCube nMilkyWay taskVar restartSim diskmode useMPIIO] in *.
  split_and!.
  - intros H.
    destruct Hcases as [[-> [Hn | [He _]]] | [(v & -> & _ & _ & Henv & _)
                                             | (-> & -> & _)]].
    + split_tests; try done; lia.
    + rewrite He in H. split_tests; done.
    + by exists v.
    + split_tests; done.
  - intros H.
    destruct Hcases as [[-> _] | [(v & -> & _ & _ & _ & _ & He)
                                 | (-> & -> & _)]]; [done| |].
    + rewrite He in H. split_tests; done.
    + split_tests; done.
  - intros v ->.
    destruct Hcases as [[? _] | [(v' & _ & -> & Hm & _ & _ & He)
                                | (? & _)]]; [done| |done].
    rewrite He. split_tests; try lia; auto.
Qed.

End StartupFacts.

(** ** The choice at concrete command lines *)

(** Witness of [initial_conditions_asserts]: [--plummer -5] passes the
    usage checks, and the chain ends in [assert(0)]. *)
Lemma initial_conditions_asserts_witness :
  ((init_galaxy true no_env opts_plummer_negative).2 = NoGalacticsAssert ↔
   true = false ∧ (0 ≤ nMilkyWay opts_plummer_negative)%Z ∧
   string_empty (taskVar opts_plummer_negative) = false ∧
   no_env (taskVar opts_plummer_negative) ≠ None) ∧
  (∀ tv,
     select_initial_conditions true 0 tv opts_plummer_negative = NoSourceAssert ↔
     string_empty (bonsaiFileName opts_plummer_negative) = true ∧
     restartSim opts_plummer_negative = false ∧
     ((true = false ∧ (0 ≤ nMilkyWay opts_plummer_negative)%Z) ∨
      (diskmode opts_plummer_negative = false ∧
       (nMilkyWay opts_plummer_negative < 0)%Z ∧
       (nPlummer opts_plummer_negative < 0)%Z ∧
       (nSphere opts_plummer_negative < 0)%Z ∧
       (nCube opts_plummer_negative < 0)%Z ∧
       ¬ (nMilkyWay opts_plummer_negative = -1 ∧
          nPlummer opts_plummer_negative = -1 ∧
          nSphere opts_plummer_negative = -1 ∧
          nCube opts_plummer_negative = -1)%Z))).
Proof.
  apply (initial_conditions_asserts no_env 0%Z true opts_plummer_negative).
  reflexivity.
Defined.

(** At that command line the chain does end in [assert(0)]. *)
Example negative_count_asserts :
  usage_exit opts_plummer_negative = false ∧
  select_initial_conditions true 0 EmptyString opts_plummer_negative
    = NoSourceAssert.
Proof. split; reflexivity. Qed.

(** Witness of [argVal_assert_never_fails]: a Milky Way model with the task
    variable not in the environment. *)
Lemma argVal_assert_never_fails_witness :
  (init_galaxy true no_env opts_milkyway).2 ≠ ArgValAssert ∧
  (no_env (taskVar opts_milkyway) = None →
   init_galaxy true no_env opts_milkyway = (EmptyString, NotGenerated)).
Proof. apply (argVal_assert_never_fails no_env true opts_milkyway). Defined.

(** Witness of [file_sources_have_a_file]: [--infile model.tipsy] on
    process 0. *)
Lemma file_sources_have_a_file_witness :
  (ReadTipsy = ReadTipsy ∨ ReadTipsy = ICRecv →
   string_empty (fileName opts_infile) = false ∧ NotGenerated = NotGenerated ∧
   (ReadTipsy = ReadTipsy ↔ 0%Z = 0%Z)) ∧
  (ReadTipsy = ReadBonsaiFile ↔ string_empty (bonsaiFileName opts_infile) = false) ∧
  (ReadTipsy = ReadBonsaiFile → useMPIIO opts_infile = true).
Proof.
  apply (file_sources_have_a_file no_env 0%Z true opts_infile EmptyString
           NotGenerated ReadTipsy).
  - reflexivity.
  - reflexivity.
  - reflexivity.
Defined.

(** Witness of [scale_only_after_generation]: a Milky Way model on the
    process whose rank the environment gives as 3. *)
Lemma scale_only_after_generation_witness :
  (ScaleGalactics = ScaleGalactics →
   ∃ v, GeneratedBeforeInit "3" = GeneratedBeforeInit v ∧
        slurm_env (taskVar opts_milkyway) = Some v) ∧
  (ScaleGalactics = GenerateGalactics → GeneratedBeforeInit "3" = NotGenerated) ∧
  (∀ v, GeneratedBeforeInit "3" = GeneratedBeforeInit v →
        ScaleGalactics = ScaleGalactics ∨ ScaleGalactics = ReadBonsaiFile ∨
        ScaleGalactics = RestartTipsy).
Proof.
  apply (scale_only_after_generation slurm_env 3%Z true opts_milkyway
           "SLURM_PROCID" (GeneratedBeforeInit "3") ScaleGalactics).
  - reflexivity.
  - reflexivity.
  - reflexivity.
Defined.
